(** * SubscriptionWorker: a shallow embedding of
      src/Documents/Subscriptions/SubscriptionWorker.ts

    The worker is a class whose methods mutate [this] and emit events; it is
    embedded as a state-and-exception monad over the worker record that also
    logs the observable effects (emitted events, socket writes, sleeps).
    Whatever the code awaits from its collaborators (the request executor,
    the socket, the JSON stream, the subscriber callbacks, the clock) is an
    input of the embedded function. *)

From stdpp Require Import gmap strings list numbers pretty.

Set Warnings "-register-all".
Local Open Scope Z_scope.
Local Open Scope string_scope.
Local Open Scope list_scope.

(** ** JavaScript errors *)

(** An [Error] object: [name] is what the reconnect policy compares,
    [appropriateNode] is the extra property attached to redirect errors and
    [inner] the cause handed to [throwError]/[getError]. *)
Inductive Error : Type :=
  mkError { name : string;
            message : string;
            appropriateNode : option string;
            inner : option Error }.

Definition getError (errName msg : string) (cause : option Error) : Error :=
  {| name := errName; message := msg; appropriateNode := None; inner := cause |}.

(** Reading a property of [undefined] or [null]. *)
Definition TypeError (msg : string) : Error := getError "TypeError" msg None.

(** The engine's error when the call stack is exhausted. *)
Definition RangeError : Error :=
  getError "RangeError" "Maximum call stack size exceeded" None.

(** ** Data model *)

Record ServerNode := { clusterTag : string; url : string }.

Record SubscriptionWorkerOptions := {
  subscriptionName : string;
  strategy : string;
  maxDocsPerBatch : Z;
  timeToWaitBeforeConnectionRetry : Z;
  maxErroneousPeriod : Z;
  ignoreSubscriberErrors : bool;
  closeWhenNoDocsLeft : bool
}.

(** Messages pushed by the server ([SubscriptionConnectionServerMessage]).
    [type] and [status] are the strings the code switches on; a property the
    server left out is [None]. *)
Module ServerMessage.
Record t := {
  type : string;
  status : string;
  exception : option string;
  message : option string;
  (** [data]: absent, or an object whose [redirectedTag] may be absent *)
  data : option (option string);
  (** document id and change vector of a [Data] frame *)
  documentId : string;
  changeVector : option string
}.
End ServerMessage.
Abbreviation ServerMessage := ServerMessage.t.

(** The reply to the TCP header, as [_readServerResponseAndGetVersion] reads
    it: [x.status], [x.version], [x.message] and [x.value]. *)
Module HeaderResponse.
Record reply := { reply_version : option Z }.
Record t := {
  status : string;
  version : Z;
  message : string;
  value : option reply
}.
End HeaderResponse.

(** Frames written to the socket (their JSON text is not modelled). *)
Inductive ClientFrame :=
| OptionsFrame (options : SubscriptionWorkerOptions)
| DropFrame (databaseName : string) (operationVersion : Z) (info : string)
| AcknowledgeFrame (changeVector : option string).

(** The batch object handed to the subscriber. *)
Record SubscriptionBatch := { items : list ServerMessage }.

(** Listeners are identified by a number (function identity in JS). *)
Definition Handler := nat.

Inductive EmitArg :=
| NoArg
| ErrorArg (e : Error)
| BatchArg (batch : SubscriptionBatch).

(** Observable effects, in program order. *)
Inductive Effect :=
| Emit (event : string) (arg : EmitArg) (delivered : list Handler)
| SocketEnd (socket : nat)
| ParserEnd
| SocketWrite (frame : ClientFrame)
| Sleep (millis : Z)
| DisposeExecutor.

(** ** The worker object *)

Record SubscriptionWorker := {
  _options : SubscriptionWorkerOptions;
  _dbName : string;
  _processingCancelled : bool;
  _disposed : bool;
  _tcpClient : option nat;
  _parser : bool;
  _subscriptionTask : bool;
  _emitter : gmap string (list Handler);
  _redirectNode : option ServerNode;
  _subscriptionLocalRequestExecutor : option string;
  _lastConnectionFailure : option Z;
  _supportedFeatures : option Z
}.

Definition set_processingCancelled (b : bool) (w : SubscriptionWorker) :=
  {| _options := _options w; _dbName := _dbName w; _processingCancelled := b;
     _disposed := _disposed w; _tcpClient := _tcpClient w; _parser := _parser w;
     _subscriptionTask := _subscriptionTask w; _emitter := _emitter w;
     _redirectNode := _redirectNode w;
     _subscriptionLocalRequestExecutor := _subscriptionLocalRequestExecutor w;
     _lastConnectionFailure := _lastConnectionFailure w;
     _supportedFeatures := _supportedFeatures w |}.

Definition set_disposed (b : bool) (w : SubscriptionWorker) :=
  {| _options := _options w; _dbName := _dbName w;
     _processingCancelled := _processingCancelled w;
     _disposed := b; _tcpClient := _tcpClient w; _parser := _parser w;
     _subscriptionTask := _subscriptionTask w; _emitter := _emitter w;
     _redirectNode := _redirectNode w;
     _subscriptionLocalRequestExecutor := _subscriptionLocalRequestExecutor w;
     _lastConnectionFailure := _lastConnectionFailure w;
     _supportedFeatures := _supportedFeatures w |}.

Definition set_tcpClient (s : option nat) (w : SubscriptionWorker) :=
  {| _options := _options w; _dbName := _dbName w;
     _processingCancelled := _processingCancelled w;
     _disposed := _disposed w; _tcpClient := s; _parser := _parser w;
     _subscriptionTask := _subscriptionTask w; _emitter := _emitter w;
     _redirectNode := _redirectNode w;
     _subscriptionLocalRequestExecutor := _subscriptionLocalRequestExecutor w;
     _lastConnectionFailure := _lastConnectionFailure w;
     _supportedFeatures := _supportedFeatures w |}.

Definition set_parser (b : bool) (w : SubscriptionWorker) :=
  {| _options := _options w; _dbName := _dbName w;
     _processingCancelled := _processingCancelled w;
     _disposed := _disposed w; _tcpClient := _tcpClient w; _parser := b;
     _subscriptionTask := _subscriptionTask w; _emitter := _emitter w;
     _redirectNode := _redirectNode w;
     _subscriptionLocalRequestExecutor := _subscriptionLocalRequestExecutor w;
     _lastConnectionFailure := _lastConnectionFailure w;
     _supportedFeatures := _supportedFeatures w |}.

Definition set_subscriptionTask (b : bool) (w : SubscriptionWorker) :=
  {| _options := _options w; _dbName := _dbName w;
     _processingCancelled := _processingCancelled w;
     _disposed := _disposed w; _tcpClient := _tcpClient w; _parser := _parser w;
     _subscriptionTask := b; _emitter := _emitter w;
     _redirectNode := _redirectNode w;
     _subscriptionLocalRequestExecutor := _subscriptionLocalRequestExecutor w;
     _lastConnectionFailure := _lastConnectionFailure w;
     _supportedFeatures := _supportedFeatures w |}.

Definition set_emitter (em : gmap string (list Handler)) (w : SubscriptionWorker) :=
  {| _options := _options w; _dbName := _dbName w;
     _processingCancelled := _processingCancelled w;
     _disposed := _disposed w; _tcpClient := _tcpClient w; _parser := _parser w;
     _subscriptionTask := _subscriptionTask w; _emitter := em;
     _redirectNode := _redirectNode w;
     _subscriptionLocalRequestExecutor := _subscriptionLocalRequestExecutor w;
     _lastConnectionFailure := _lastConnectionFailure w;
     _supportedFeatures := _supportedFeatures w |}.

Definition set_redirectNode (n : option ServerNode) (w : SubscriptionWorker) :=
  {| _options := _options w; _dbName := _dbName w;
     _processingCancelled := _processingCancelled w;
     _disposed := _disposed w; _tcpClient := _tcpClient w; _parser := _parser w;
     _subscriptionTask := _subscriptionTask w; _emitter := _emitter w;
     _redirectNode := n;
     _subscriptionLocalRequestExecutor := _subscriptionLocalRequestExecutor w;
     _lastConnectionFailure := _lastConnectionFailure w;
     _supportedFeatures := _supportedFeatures w |}.

Definition set_subscriptionLocalRequestExecutor (x : option string)
    (w : SubscriptionWorker) :=
  {| _options := _options w; _dbName := _dbName w;
     _processingCancelled := _processingCancelled w;
     _disposed := _disposed w; _tcpClient := _tcpClient w; _parser := _parser w;
     _subscriptionTask := _subscriptionTask w; _emitter := _emitter w;
     _redirectNode := _redirectNode w;
     _subscriptionLocalRequestExecutor := x;
     _lastConnectionFailure := _lastConnectionFailure w;
     _supportedFeatures := _supportedFeatures w |}.

Definition set_lastConnectionFailure (t : option Z) (w : SubscriptionWorker) :=
  {| _options := _options w; _dbName := _dbName w;
     _processingCancelled := _processingCancelled w;
     _disposed := _disposed w; _tcpClient := _tcpClient w; _parser := _parser w;
     _subscriptionTask := _subscriptionTask w; _emitter := _emitter w;
     _redirectNode := _redirectNode w;
     _subscriptionLocalRequestExecutor := _subscriptionLocalRequestExecutor w;
     _lastConnectionFailure := t;
     _supportedFeatures := _supportedFeatures w |}.

Definition set_supportedFeatures (v : option Z) (w : SubscriptionWorker) :=
  {| _options := _options w; _dbName := _dbName w;
     _processingCancelled := _processingCancelled w;
     _disposed := _disposed w; _tcpClient := _tcpClient w; _parser := _parser w;
     _subscriptionTask := _subscriptionTask w; _emitter := _emitter w;
     _redirectNode := _redirectNode w;
     _subscriptionLocalRequestExecutor := _subscriptionLocalRequestExecutor w;
     _lastConnectionFailure := _lastConnectionFailure w;
     _supportedFeatures := v |}.

(** ** The monad of worker methods *)

(** How a call ends: it returns, it throws, or it is still waiting for an
    event that the given inputs never deliver. *)
Inductive Completion (A : Type) :=
| Normal (a : A)
| Throw (e : Error)
| Pending.
Arguments Normal {A} a.
Arguments Throw {A} e.
Arguments Pending {A}.

Definition M (A : Type) : Type :=
  SubscriptionWorker -> Completion A * SubscriptionWorker * list Effect.

Definition ret {A} (a : A) : M A := fun w => (Normal a, w, []).

Definition bind {A B} (m : M A) (k : A -> M B) : M B :=
  fun w =>
    match m w with
    | (Normal a, w1, t1) =>
        match k a w1 with (r, w2, t2) => (r, w2, t1 ++ t2) end
    | (Throw e, w1, t1) => (Throw e, w1, t1)
    | (Pending, w1, t1) => (Pending, w1, t1)
    end.

Declare Scope worker_scope.
Delimit Scope worker_scope with worker.
Bind Scope worker_scope with M.
Notation "x <- c1 ;; c2" := (bind c1 (fun x => c2))
  (at level 100, c1 at next level, right associativity) : worker_scope.
Notation "c1 ;;; c2" := (bind c1 (fun _ => c2))
  (at level 100, right associativity) : worker_scope.
Local Open Scope worker_scope.

(** The three components of a run. *)
Definition result {A} (run : Completion A * SubscriptionWorker * list Effect)
  : Completion A := fst (fst run).
Definition state {A} (run : Completion A * SubscriptionWorker * list Effect)
  : SubscriptionWorker := snd (fst run).
Definition trace {A} (run : Completion A * SubscriptionWorker * list Effect)
  : list Effect := snd run.

Definition this : M SubscriptionWorker := fun w => (Normal w, w, []).
Definition update (f : SubscriptionWorker -> SubscriptionWorker) : M unit :=
  fun w => (Normal tt, f w, []).
Definition effect (e : Effect) : M unit := fun w => (Normal tt, w, [e]).
Definition throw {A} (e : Error) : M A := fun w => (Throw e, w, []).
Definition pending {A} : M A := fun w => (Pending, w, []).

Definition throwError {A} (errName msg : string) (cause : option Error) : M A :=
  throw (getError errName msg cause).

(** [try { body } catch (e) { handler e }] *)
Definition try_catch {A} (body : M A) (handler : Error -> M A) : M A :=
  fun w =>
    match body w with
    | (Throw e, w1, t1) =>
        match handler e w1 with (r, w2, t2) => (r, w2, t1 ++ t2) end
    | other => other
    end.

(** [try { body } finally { cleanup }] *)
Definition try_finally {A} (body : M A) (cleanup : M unit) : M A :=
  fun w =>
    match body w with
    | (Pending, w1, t1) => (Pending, w1, t1)
    | (r, w1, t1) =>
        match cleanup w1 with
        | (Normal _, w2, t2) => (r, w2, t1 ++ t2)
        | (Throw e, w2, t2) => (Throw e, w2, t1 ++ t2)
        | (Pending, w2, t2) => (Pending, w2, t1 ++ t2)
        end
    end.

(** ** The event emitter

    [_emitter] is a Node [EventEmitter]: per event name, the array of
    registered listeners in registration order.  A listener is assumed to
    return normally; emitting ["error"] while no listener is registered for
    it throws the emitted error, as the events API specifies. *)

Definition listeners (em : gmap string (list Handler)) (event : string)
  : list Handler := default [] (em !! event).

Definition emitter_listenerCount (em : gmap string (list Handler)) (event : string) : Z :=
  Z.of_nat (length (listeners em event)).

Definition emitter_on (em : gmap string (list Handler)) (event : string)
    (handler : Handler) : gmap string (list Handler) :=
  <[event := listeners em event ++ [handler]]> em.

Fixpoint remove_first (handler : Handler) (l : list Handler) : list Handler :=
  match l with
  | [] => []
  | h :: rest => if decide (h = handler) then rest else h :: remove_first handler rest
  end.

(** [removeListener] drops the most recently added instance of the handler. *)
Definition emitter_removeListener (em : gmap string (list Handler))
    (event : string) (handler : Handler) : gmap string (list Handler) :=
  <[event := rev (remove_first handler (rev (listeners em event)))]> em.

(** [removeAllListeners(event)] as the worker calls it (line 673): always
    with one argument, which is [undefined] when the worker's method got
    none.  Only a call without any argument empties the emitter; handed
    [undefined], it removes the listeners of the event of that name, the
    property key ["undefined"], and no other. *)
Definition emitter_removeAllListeners (em : gmap string (list Handler))
    (event : option string) : gmap string (list Handler) :=
  match event with
  | Some ev => delete ev em
  | None => delete "undefined" em
  end.

(** [this._emitter.emit(event, arg)] *)
Definition emit (event : string) (arg : EmitArg) : M bool :=
  w <- this;;
  match listeners (_emitter w) event with
  | [] =>
      if String.eqb event "error" then
        match arg with
        | ErrorArg e => throw e
        | _ => throw (getError "Error" "Unhandled error." None)
        end
      else (effect (Emit event arg []);;; ret false)
  | hs => effect (Emit event arg hs);;; ret true
  end.

(** ** dispose (lines 74-86) and _closeTcpClient (lines 611-615) *)

Definition _closeTcpClient : M unit :=
  w <- this;;
  match _tcpClient w with
  | Some socket => effect (SocketEnd socket)
  | None => ret tt
  end.

Definition dispose : M unit :=
  w <- this;;
  if _disposed w then ret tt
  else
    update (set_disposed true);;;
    update (set_processingCancelled true);;;
    _closeTcpClient;;;
    (if _parser w then effect ParserEnd else ret tt).

(** ** Waiting

    While the worker waits, the program that owns it keeps running and may
    call the public methods.  [on] appears here as the plain registration:
    these are the calls made while the background task exists, so the start
    of the task in [on] (line 633) is not taken again. *)

Inductive UserCall :=
| CallDispose
| CallOn (event : string) (handler : Handler)
| CallOff (event : string) (handler : Handler)
| CallRemoveAllListeners (event : option string).

Definition userCall (c : UserCall) : M unit :=
  match c with
  | CallDispose => dispose
  | CallOn event handler =>
      update (fun w => set_emitter (emitter_on (_emitter w) event handler) w)
  | CallOff event handler =>
      update (fun w => set_emitter (emitter_removeListener (_emitter w) event handler) w)
  | CallRemoveAllListeners event =>
      update (fun w => set_emitter (emitter_removeAllListeners (_emitter w) event) w)
  end.

Fixpoint interleave (calls : list UserCall) : M unit :=
  match calls with
  | [] => ret tt
  | c :: rest => userCall c;;; interleave rest
  end.

(** The settlement of a promise (or the argument a completion callback is
    invoked with), and what the user did before it settled. *)
Inductive Settled (A : Type) :=
| Resolved (a : A)
| Rejected (e : Error)
| Unsettled.
Arguments Resolved {A} a.
Arguments Rejected {A} e.
Arguments Unsettled {A}.

Record Await (A : Type) := { meanwhile : list UserCall; settled : Settled A }.
Arguments meanwhile {A} _.
Arguments settled {A} _.

Definition await {A} (p : Await A) : M A :=
  interleave (meanwhile p);;;
  match settled p with
  | Resolved a => ret a
  | Rejected e => throw e
  | Unsettled => pending
  end.

(** How JavaScript prints an optional value inside a string concatenation. *)
Definition jsString (o : option string) : string := default "undefined" o.
Definition jsNumber (o : option Z) : string :=
  match o with Some z => pretty z | None => "undefined" end.

(** [s.includes(sub)] *)
Fixpoint includes (s sub : string) : bool :=
  String.prefix sub s ||
  match s with
  | EmptyString => false
  | String _ rest => includes rest sub
  end.

(** ** Socket writes (lines 166-182, 228-244, 507-518)

    [written] is the argument the socket passes to the write callback:
    [None] on success, the write error otherwise ([Unsettled] when the
    callback is never invoked, [Rejected] when [write] itself throws). *)

Definition _sendOptions (options : SubscriptionWorkerOptions)
    (written : Await (option Error)) : M unit :=
  effect (SocketWrite (OptionsFrame options));;;
  _ <- await written;;
  ret tt.

Definition _sendAck (lastReceivedChangeVector : option string)
    (written : Await (option Error)) : M unit :=
  effect (SocketWrite (AcknowledgeFrame lastReceivedChangeVector));;;
  err <- await written;;
  match err with
  | Some e => throw e
  | None => ret tt
  end.

Section Negotiation.

(** Constants imported from ServerWide/Tcp, which is not part of the
    sources at hand. *)
Variable SUBSCRIPTION_TCP_VERSION : Z.
Variable OUT_OF_RANGE_STATUS : Z.

Definition _sendDropMessage (reply : option HeaderResponse.reply)
    (written : Await (option Error)) : M unit :=
  w <- this;;
  match reply with
  | None => throw (TypeError "Cannot read property 'version' of undefined")
  | Some r =>
      let info := "Couldn't agree on subscription tcp version ours: "
                  +:+ pretty SUBSCRIPTION_TCP_VERSION +:+ " theirs: "
                  +:+ jsNumber (HeaderResponse.reply_version r) in
      match _tcpClient w with
      | None => throw (TypeError "Cannot read property 'write' of undefined")
      | Some _ =>
          effect (SocketWrite (DropFrame (_dbName w) SUBSCRIPTION_TCP_VERSION info));;;
          _ <- await written;;
          ret tt
      end
  end.

(** lines 205-226; [read] is the outcome of [this._readNextObject()]. *)
Definition _readServerResponseAndGetVersion
    (read : Await (option HeaderResponse.t))
    (dropWritten : Await (option Error)) : M Z :=
  x <- await read;;
  w <- this;;
  match x with
  | None => throw (TypeError "Cannot read property 'status' of null")
  | Some x =>
      if String.eqb (HeaderResponse.status x) "Ok" then
        ret (HeaderResponse.version x)
      else if String.eqb (HeaderResponse.status x) "AuthorizationFailed" then
        throwError "AuthorizationException"
          ("Cannot access database " +:+ _dbName w +:+ " because "
           +:+ HeaderResponse.message x) None
      else if String.eqb (HeaderResponse.status x) "TcpVersionMismatch" then
        if negb (Z.eqb (HeaderResponse.version x) OUT_OF_RANGE_STATUS) then
          ret (HeaderResponse.version x)
        else
          _sendDropMessage (HeaderResponse.value x) dropWritten;;;
          throwError "InvalidOperationException"
            ("Can't connect to database " +:+ _dbName w +:+ " because: "
             +:+ HeaderResponse.message x) None
      else ret (HeaderResponse.version x)
  end.

End Negotiation.

(** ** Connecting (lines 99-164, 184-202) *)

Record TcpConnectionInfo := { tcpUrl : string; requestedNode : ServerNode }.

(** What [_connectToServer] awaits, in order: the [GetTcpInfoCommand]
    request, [TcpUtils.connect], [TcpNegotiation.negotiateProtocolVersion]
    (its [protocolVersion]) and the write of the options.

    The negotiation is code of ServerWide/Tcp, which is not part of the
    sources at hand, and is an input as a whole: the header frames it
    writes on the socket and its calls of the callback of line 134,
    [_readServerResponseAndGetVersion], happen while it is awaited and are
    not among the effects of [_connectToServer] below, which logs what the
    method does itself. *)
Record ConnectScript := {
  tcpInfo : Await TcpConnectionInfo;
  connected : Await nat;
  negotiated : Await Z;
  optionsWritten : Await (option Error)
}.

Definition _ensureParser : M unit := update (set_parser true).

(** The completion callback that [_ensureParser] hands to [stream.pipeline]
    (lines 195-199), called by the stream library with the pipeline's error,
    if any; [tcpClientDestroyed] is [this._tcpClient.destroyed] then. *)
Definition pipelineCallback (err : option Error) (tcpClientDestroyed : bool) : M unit :=
  match err with
  | Some e =>
      if negb tcpClientDestroyed then (_ <- emit "error" (ErrorArg e);; ret tt)
      else ret tt
  | None => ret tt
  end.

Definition _connectToServer (s : ConnectScript) : M (option nat) :=
  w <- this;;
  info <- match _redirectNode w with
          | Some _ =>
              try_catch (await (tcpInfo s))
                (fun e => update (set_redirectNode None);;; throw e)
          | None => await (tcpInfo s)
          end;;
  socket <- await (connected s);;
  update (set_tcpClient (Some socket));;;
  _ensureParser;;;
  protocolVersion <- await (negotiated s);;
  update (set_supportedFeatures (Some protocolVersion));;;
  w <- this;;
  (if (protocolVersion <=? 0)%Z then
     throwError "InvalidOperationException"
       (subscriptionName (_options w)
        +:+ " : TCP negotiation resulted with an invalid protocol version: "
        +:+ pretty protocolVersion) None
   else ret tt);;;
  _sendOptions (_options w) (optionsWritten s);;;
  w <- this;;
  match _subscriptionLocalRequestExecutor w with
  | Some _ => effect DisposeExecutor
  | None => ret tt
  end;;;
  update (set_subscriptionLocalRequestExecutor (Some (url (requestedNode info))));;;
  w <- this;;
  ret (_tcpClient w).

(** lines 91-97 *)
Definition currentNodeTag (w : SubscriptionWorker) : option string :=
  match _redirectNode w with
  | Some node => Some (clusterTag node)
  | None => None
  end.

(** ** Connection status (lines 246-295) *)

Definition _assertConnectionState (connectionStatus : ServerMessage) : M unit :=
  w <- this;;
  (if String.eqb (ServerMessage.type connectionStatus) "Error" then
     match ServerMessage.exception connectionStatus with
     | None => throw (TypeError "Cannot read property 'includes' of undefined")
     | Some ex =>
         if includes ex "DatabaseDoesNotExistException" then
           throwError "DatabaseDoesNotExistException"
             (_dbName w +:+ " does not exists. "
              +:+ jsString (ServerMessage.message connectionStatus)) None
         else ret tt
     end
   else ret tt);;;
  (if negb (String.eqb (ServerMessage.type connectionStatus) "ConnectionStatus") then
     throwError "InvalidOperationException"
       ("Server returned illegal type message when expecting connection status, was: "
        +:+ ServerMessage.type connectionStatus) None
   else ret tt);;;
  let status := ServerMessage.status connectionStatus in
  let subscription := subscriptionName (_options w) in
  if String.eqb status "Accepted" then ret tt
  else if String.eqb status "InUse" then
    throwError "SubscriptionInUseException"
      ("Subscription with id " +:+ subscription
       +:+ " cannot be opened, because it's in use and the connection strategy is "
       +:+ strategy (_options w)) None
  else if String.eqb status "Closed" then
    throwError "SubscriptionClosedException"
      ("Subscription with id " +:+ subscription +:+ " was closed. "
       +:+ jsString (ServerMessage.exception connectionStatus)) None
  else if String.eqb status "Invalid" then
    throwError "SubscriptionInvalidStateException"
      ("Subscription with id " +:+ subscription
       +:+ " cannot be opened, because it is in invalid state. "
       +:+ jsString (ServerMessage.exception connectionStatus)) None
  else if String.eqb status "NotFound" then
    throwError "SubscriptionDoesNotExistException"
      ("Subscription with id " +:+ subscription
       +:+ " cannot be opened, because it does not exist. "
       +:+ jsString (ServerMessage.exception connectionStatus)) None
  else if String.eqb status "Redirect" then
    match ServerMessage.data connectionStatus with
    | None => throw (TypeError "Cannot read property 'redirectedTag' of undefined")
    | Some appropriateNode =>
        throw {| name := "SubscriptionDoesNotBelongToNodeException";
                 message := "Subscription with id " +:+ subscription
                   +:+ " cannot be processed by current node, it will be redirected to "
                   +:+ jsString appropriateNode;
                 appropriateNode := appropriateNode;
                 inner := None |}
    end
  else if String.eqb status "ConcurrencyReconnect" then
    throwError "SubscriptionChangeVectorUpdateConcurrencyException"
      (jsString (ServerMessage.message connectionStatus)) None
  else
    throwError "InvalidOperationException"
      ("Subscription " +:+ subscription +:+ " could not be opened, reason: " +:+ status)
      None.

(** lines 454-462; [exception || "None"] also replaces the empty string. *)
Definition _throwInvalidServerResponse {A} (receivedMessage : ServerMessage) : M A :=
  throwError "InvalidArgumentException"
    ("Unrecognized message " +:+ ServerMessage.type receivedMessage
     +:+ " type received from server") None.

Definition _throwSubscriptionError {A} (receivedMessage : ServerMessage) : M A :=
  throwError "InvalidOperationException"
    ("Connection terminated by server. Exception: "
     +:+ match ServerMessage.exception receivedMessage with
         | Some "" | None => "None"
         | Some ex => ex
         end) None.

(** ** Reading the framed message stream (lines 464-505)

    [_parser] in paused mode: [buffered] holds the [{key, value}] objects
    that [read()] hands out one at a time.  While a read is waiting, the
    stream fires ['readable'] (possibly after new objects arrived),
    ['error'] or ['end'], and the user may call the worker. *)

Section FramedStream.

Context {V : Type}.

Record ParserStream := { readable : bool; buffered : list (Z * option V) }.

Inductive StreamEvent :=
| Readable (arrived : list (Z * option V))
| StreamError (err : Error)
| StreamEnd
| User (call : UserCall).

(** The synchronous part of [_readNextObject], lines 465-479; [wait] is
    the promise built at lines 481-504. *)
Definition readOrWait (stream : ParserStream)
    (wait : ParserStream -> M (option V * ParserStream))
  : M (option V * ParserStream) :=
  w <- this;;
  if _processingCancelled w then ret (None, stream)
  else if _disposed w then ret (None, stream)
  else
    match (if readable stream then buffered stream else []) with
    | (_, value) :: rest =>
        ret (value, {| readable := readable stream; buffered := rest |})
    | [] => wait stream
    end.

Fixpoint waitForStream (stream : ParserStream) (events : list StreamEvent)
  : M (option V * ParserStream) :=
  match events with
  | [] => pending
  | User call :: later => userCall call;;; waitForStream stream later
  | Readable arrived :: later =>
      readOrWait {| readable := readable stream;
                    buffered := buffered stream ++ arrived |}
                 (fun stream' => waitForStream stream' later)
  | StreamError err :: _ => throw err
  | StreamEnd :: _ =>
      throw (getError "SubscriptionException"
               "Subscription stream has ended unexpectedly." None)
  end.

Definition _readNextObject (stream : ParserStream) (events : list StreamEvent)
  : M (option V * ParserStream) :=
  readOrWait stream (fun stream' => waitForStream stream' events).

End FramedStream.
Arguments ParserStream V : clear implicits.
Arguments StreamEvent V : clear implicits.

(** ** The batch pump (lines 414-452)

    [reads] are the outcomes of the successive [await this._readNextObject()]
    of the loop.  The function returns [incomingBatch] and the batch object,
    whose [items] a [Confirm] truncates. *)

Fixpoint readBatchLoop (batch : SubscriptionBatch) (incomingBatch : list ServerMessage)
    (reads : list (Await (option ServerMessage)))
  : M (list ServerMessage * SubscriptionBatch) :=
  w <- this;;
  if _processingCancelled w then ret (incomingBatch, batch)
  else
    match reads with
    | [] => pending
    | read :: later =>
        receivedMessage <- await read;;
        w <- this;;
        match receivedMessage with
        | None => ret (incomingBatch, batch)
        | Some receivedMessage =>
            if _processingCancelled w then ret (incomingBatch, batch)
            else
              let type := ServerMessage.type receivedMessage in
              if String.eqb type "Data" then
                readBatchLoop batch (incomingBatch ++ [receivedMessage]) later
              else if String.eqb type "EndOfBatch" then
                ret (incomingBatch, batch)
              else if String.eqb type "Confirm" then
                _ <- emit "afterAcknowledgment" (BatchArg batch);;
                readBatchLoop {| items := [] |} [] later
              else if String.eqb type "ConnectionStatus" then
                _assertConnectionState receivedMessage;;;
                readBatchLoop batch incomingBatch later
              else if String.eqb type "Error" then
                _throwSubscriptionError receivedMessage
              else
                _throwInvalidServerResponse receivedMessage
        end
    end.

Definition _readSingleSubscriptionBatchFromServer (batch : SubscriptionBatch)
    (reads : list (Await (option ServerMessage)))
  : M (list ServerMessage * SubscriptionBatch) :=
  readBatchLoop batch [] reads.

(** ** Dispatching a batch (lines 398-412)

    The promise and the counter captured by the completion callback. *)

Record Dispatch := { listenerCount : Z; promise : Settled unit }.

Definition resolve (p : Settled unit) : Settled unit :=
  match p with Unsettled => Resolved tt | _ => p end.

Definition reject (error : Error) (p : Settled unit) : Settled unit :=
  match p with Unsettled => Rejected error | _ => p end.

(** The callback passed with the batch; a falsy [error] is [None]. *)
Definition completionCallback (error : option Error) (d : Dispatch) : Dispatch :=
  match error with
  | Some e => {| listenerCount := listenerCount d; promise := reject e (promise d) |}
  | None =>
      let n := (listenerCount d - 1)%Z in
      {| listenerCount := n;
         promise := if (n =? 0)%Z then resolve (promise d) else promise d |}
  end.

(** [invocations]: the calls of the completion callback in the order they
    happen, each with the position of the calling listener among the
    listeners of ["batch"] and the error it passes. *)
Definition callbacks (d : Dispatch) (invocations : list (nat * option Error)) : Dispatch :=
  fold_left (fun d call => completionCallback (snd call) d) invocations d.

Definition _emitBatchAndWaitForProcessing (batch : SubscriptionBatch)
    (invocations : list (nat * option Error)) : M (Settled unit) :=
  w <- this;;
  let d := {| listenerCount := emitter_listenerCount (_emitter w) "batch";
              promise := Unsettled |} in
  _ <- emit "batch" (BatchArg batch);;
  ret (promise (callbacks d invocations)).

(** Modelled from the spec: [SubscriptionBatch.initialize] is not part of the
    sources at hand.  "The final last_received_change_vector is taken from
    the last Data frame's metadata by batch.initialize(incoming)"; the items
    of the batch are the incoming frames. *)
Definition initialize (incomingBatch : list ServerMessage)
  : SubscriptionBatch * option string :=
  ({| items := incomingBatch |},
   match last incomingBatch with
   | Some frame => ServerMessage.changeVector frame
   | None => None
   end).

(** ** One connection (lines 297-396)

    The two promises of the pipeline, [notifiedSubscriber] and
    [readFromServer], settle concurrently with the loop that awaits them;
    their settlements are inputs, one pair per round of the loop.  What the
    loop itself does is embedded: the cancellation checks, the reaction to a
    rejected notification, the emission of the batch, the clean-up and the
    swallowing of errors once disposed. *)

Record PipelineRound := {
  notified : Await unit;
  incoming : Await (list ServerMessage)
}.

Record ProcessScript := {
  connecting : ConnectScript;
  connectionStatus : Await (option ServerMessage);
  rounds : list PipelineRound;
  lastNotified : Await unit;
  lastRead : Await unit
}.

(** lines 331-370 *)
Fixpoint dispatchLoop (rounds : list PipelineRound) : M unit :=
  w <- this;;
  if _processingCancelled w then ret tt
  else
    match rounds with
    | [] => pending
    | round :: later =>
        try_catch (await (notified round))
          (fun err => _closeTcpClient;;; throw err);;;
        incomingBatch <- await (incoming round);;
        w <- this;;
        (if _processingCancelled w then throwError "OperationCancelledException" "" None
         else ret tt);;;
        _ <- emit "batch" (BatchArg (fst (initialize incomingBatch)));;
        dispatchLoop later
    end.

(** [try { await p } catch { }] of the clean-up *)
Definition settle (p : Await unit) : M unit :=
  try_catch (await p) (fun _ => ret tt).

Definition _processSubscription (s : ProcessScript) : M unit :=
  try_catch
    (w <- this;;
     (if _processingCancelled w then throwError "OperationCancelledException" "" None
      else ret tt);;;
     socket <- _connectToServer (connecting s);;
     try_finally
       (w <- this;;
        (if _processingCancelled w then throwError "OperationCancelledException" "" None
         else ret tt);;;
        connectionStatus <- await (connectionStatus s);;
        w <- this;;
        if _processingCancelled w then ret tt
        else
          match connectionStatus with
          | None => throw (TypeError "Cannot read property 'type' of null")
          | Some connectionStatus =>
              (if negb (String.eqb (ServerMessage.type connectionStatus) "ConnectionStatus")
                  || negb (String.eqb (ServerMessage.status connectionStatus) "Accepted")
               then _assertConnectionState connectionStatus
               else ret tt);;;
              update (set_lastConnectionFailure None);;;
              w <- this;;
              if _processingCancelled w then ret tt
              else dispatchLoop (rounds s)
          end)
       (match socket with
        | Some socket => effect (SocketEnd socket)
        | None => throw (TypeError "Cannot read property 'end' of undefined")
        end;;;
        effect ParserEnd;;;
        settle (lastNotified s);;;
        settle (lastRead s)))
    (fun err =>
       w <- this;;
       if negb (_disposed w) then throw err else ret tt).

(** ** Notifying the subscriber (lines 354-369)

    The promise that the loop of [_processSubscription] assigns to
    [notifiedSubscriber], the one whose settlement [notified] stands for:
    the dispatch of the batch, the [catch] that wraps an error of the
    subscriber, and the [then] that acknowledges the batch.
    [whileProcessing] is what the user does before the dispatch settles,
    [tcpClientCopy] the socket captured at line 311, [writable] its
    [writable] property when the [then] callback runs and [written] the
    outcome of the write of the acknowledgement. *)
Definition notifiedSubscriber (batch : SubscriptionBatch)
    (invocations : list (nat * option Error)) (whileProcessing : list UserCall)
    (lastReceivedChangeVector : option string)
    (tcpClientCopy : option nat) (writable : bool)
    (written : Await (option Error)) : M unit :=
  dispatched <- _emitBatchAndWaitForProcessing batch invocations;;
  try_catch
    (await {| meanwhile := whileProcessing; settled := dispatched |})
    (fun err =>
       w <- this;;
       if negb (ignoreSubscriberErrors (_options w)) then
         throwError "SubscriberErrorException"
           ("Subscriber threw an exception in subscription "
            +:+ subscriptionName (_options w)) (Some err)
       else ret tt);;;
  match tcpClientCopy with
  | Some _ => if writable then _sendAck lastReceivedChangeVector written else ret tt
  | None => ret tt
  end.

(** ** The reconnect controller (lines 520-609)

    [now] is the value of [new Date().getTime()] and [topologyNodes] that of
    [requestExecutor.getTopologyNodes()] when the error is classified. *)

Definition _assertLastConnectionFailure (now : Z) (lastError : Error) : M unit :=
  w <- this;;
  match _lastConnectionFailure w with
  | None => update (set_lastConnectionFailure (Some now))
  | Some lastConnectionFailure =>
      let maxErroneousPeriod := maxErroneousPeriod (_options w) in
      let erroneousPeriodDuration := (now - lastConnectionFailure)%Z in
      if (maxErroneousPeriod <? erroneousPeriodDuration)%Z then
        throwError "SubscriptionInvalidStateException"
          ("Subscription connection was in invalid state for more than "
           +:+ pretty maxErroneousPeriod +:+ " and therefore will be terminated.")
          (Some lastError)
      else ret tt
  end.

Definition fatalName (n : string) : bool :=
  String.eqb n "SubscriptionInUseException"
  || String.eqb n "SubscriptionDoesNotExistException"
  || String.eqb n "SubscriptionClosedException"
  || String.eqb n "SubscriptionInvalidStateException"
  || String.eqb n "DatabaseDoesNotExistException"
  || String.eqb n "AuthorizationException"
  || String.eqb n "AllTopologyNodesDownException"
  || String.eqb n "SubscriberErrorException".

Definition _shouldTryToReconnect (now : Z) (topologyNodes : list ServerNode)
    (ex : Error) : M bool :=
  if String.eqb (name ex) "SubscriptionDoesNotBelongToNodeException" then
    _assertLastConnectionFailure now ex;;;
    match appropriateNode ex with
    | None | Some "" => ret true
    | Some appropriateNode =>
        match find (fun x => String.eqb (clusterTag x) appropriateNode) topologyNodes with
        | None =>
            throwError "InvalidOperationException"
              ("Could not redirect to " +:+ appropriateNode
               +:+ ", because it was not found in local topology, even after retrying")
              None
        | Some nodeToRedirectTo =>
            update (set_redirectNode (Some nodeToRedirectTo));;;
            ret true
        end
    end
  else if String.eqb (name ex) "SubscriptionChangeVectorUpdateConcurrencyException" then
    ret true
  else if fatalName (name ex) then
    update (set_processingCancelled true);;;
    ret false
  else
    _assertLastConnectionFailure now ex;;;
    ret true.

(** One turn of the loop of [_runSubscriptionAsync]: the connection attempt,
    what the user does before the loop resumes after it and, should it have
    failed, the clock, the topology and what the user does during the retry
    delay. *)
Record Iteration := {
  processing : ProcessScript;
  onResume : list UserCall;
  now : Z;
  topologyNodes : list ServerNode;
  duringDelay : list UserCall
}.

Fixpoint _runSubscriptionAsync (iterations : list Iteration) : M unit :=
  w <- this;;
  if _processingCancelled w then ret tt
  else
    match iterations with
    | [] => pending
    | it :: later =>
        proceed <-
          try_catch
            (_closeTcpClient;;;
             try_finally (_processSubscription (processing it))
               (interleave (onResume it));;;
             ret true)
            (fun error =>
               w <- this;;
               if _processingCancelled w then
                 if negb (_disposed w) then throw error else ret false
               else
                 retry <- _shouldTryToReconnect (now it) (topologyNodes it) error;;
                 if retry then
                   effect (Sleep (timeToWaitBeforeConnectionRetry (_options w)));;;
                   interleave (duringDelay it);;;
                   _ <- emit "connectionRetry" (ErrorArg error);;
                   ret true
                 else throw error);;
        if proceed then _runSubscriptionAsync later else ret tt
    end.

(** ** The public listener methods (lines 617-675) *)

(** The background task as [on] builds it (lines 634-636):
    [_runSubscriptionAsync().catch(emit "error").then(emit "end")]. *)
Definition subscriptionTask (iterations : list Iteration) : M unit :=
  try_catch (_runSubscriptionAsync iterations)
    (fun err => _ <- emit "error" (ErrorArg err);; ret tt);;;
  _ <- emit "end" NoArg;;
  ret tt.

(** [iterations] drive the task, should this call start it. *)
Definition on (event : string) (handler : Handler) (iterations : list Iteration)
  : M unit :=
  update (fun w => set_emitter (emitter_on (_emitter w) event handler) w);;;
  w <- this;;
  if String.eqb event "batch" && negb (_subscriptionTask w) then
    update (set_subscriptionTask true);;;
    subscriptionTask iterations
  else ret tt.

Definition off (event : string) (handler : Handler) : M unit :=
  update (fun w => set_emitter (emitter_removeListener (_emitter w) event handler) w).

(** [removeListener] calls itself (line 666); [stack] is the number of
    frames the call stack still has room for. *)
Fixpoint removeListener (stack : nat) (event : string) (handler : Handler) : M unit :=
  match stack with
  | O => throw RangeError
  | S stack' => removeListener stack' event handler;;; ret tt
  end.

Definition removeAllListeners (event : option string) : M unit :=
  update (fun w => set_emitter (emitter_removeAllListeners (_emitter w) event) w).

(** The constructor (lines 55-72).  [options] are the caller's options laid
    over the defaults of lines 58-63; an empty subscription name is
    refused. *)
Definition defaultOptions (subscription : string) : SubscriptionWorkerOptions :=
  {| subscriptionName := subscription; strategy := "OpenIfFree";
     maxDocsPerBatch := 4096;
     timeToWaitBeforeConnectionRetry := 5 * 1000;
     maxErroneousPeriod := 5 * 60 * 1000;
     ignoreSubscriberErrors := false;
     closeWhenNoDocsLeft := false |}.

Definition initialWorker (options : SubscriptionWorkerOptions) (dbName : string)
  : SubscriptionWorker :=
  {| _options := options;
     _dbName := dbName;
     _processingCancelled := false;
     _disposed := false;
     _tcpClient := None;
     _parser := false;
     _subscriptionTask := false;
     _emitter := ∅;
     _redirectNode := None;
     _subscriptionLocalRequestExecutor := None;
     _lastConnectionFailure := None;
     _supportedFeatures := None |}.

Definition constructor (options : SubscriptionWorkerOptions) (dbName : string)
  : Error + SubscriptionWorker :=
  if String.eqb (subscriptionName options) "" then
    inl (getError "InvalidArgumentException"
           "SubscriptionConnectionOptions must specify the subscriptionName" None)
  else inr (initialWorker options dbName).

(** A worker with the default options. *)
Definition newWorker (subscription : string) (dbName : string) : SubscriptionWorker :=
  initialWorker (defaultOptions subscription) dbName.

(** ** Vocabulary of the statements *)

(** A read that delivers the frame [m] while the user does nothing. *)
Definition deliver {A} (m : A) : Await (option A) :=
  {| meanwhile := []; settled := Resolved (Some m) |}.

(** The read delivers the frame [m], and the user does not dispose of the
    worker while it is awaited. *)
Definition delivers (read : Await (option ServerMessage)) (m : ServerMessage) : Prop :=
  settled read = Resolved (Some m) /\ CallDispose ∉ meanwhile read.

(** The run goes on as [next], on a worker whose processing is still not
    cancelled. *)
Definition continuesAs {A} (run : Completion A * SubscriptionWorker * list Effect)
    (next : M A) : Prop :=
  exists w' t,
    _processingCancelled w' = false
    /\ run = (result (next w'), state (next w'), t ++ trace (next w')).

Definition isType (t : string) (m : ServerMessage) : bool :=
  String.eqb (ServerMessage.type m) t.

(** Frames after which the batch pump goes on reading. *)
Definition keepsReading (m : ServerMessage) : bool :=
  isType "Data" m || isType "Confirm" m
  || (isType "ConnectionStatus" m && String.eqb (ServerMessage.status m) "Accepted").

Definition recognized (t : string) : bool :=
  String.eqb t "Data" || String.eqb t "EndOfBatch" || String.eqb t "Confirm"
  || String.eqb t "ConnectionStatus" || String.eqb t "Error".

(** The frames that follow the last [Confirm] (all of them if there is none). *)
Fixpoint sinceLastConfirm (frames : list ServerMessage) : list ServerMessage :=
  match frames with
  | [] => []
  | m :: rest =>
      if existsb (isType "Confirm") rest then sinceLastConfirm rest
      else if isType "Confirm" m then rest
      else m :: rest
  end.

Definition dataFrames (frames : list ServerMessage) : list ServerMessage :=
  List.filter (isType "Data") frames.

(** The erroneous period has lasted longer than allowed at time [now]. *)
Definition windowExceeded (now : Z) (w : SubscriptionWorker) : bool :=
  match _lastConnectionFailure w with
  | Some lastConnectionFailure =>
      (maxErroneousPeriod (_options w) <? now - lastConnectionFailure)%Z
  | None => false
  end.

(** The worker once a failure at time [now] is on record. *)
Definition failureRecorded (now : Z) (w : SubscriptionWorker) : SubscriptionWorker :=
  match _lastConnectionFailure w with
  | Some _ => w
  | None => set_lastConnectionFailure (Some now) w
  end.

(** The worker has a redirect node, and the request for the connection
    info, which then goes to that node, fails. *)
Definition redirectNodeFails (s : ConnectScript) (w : SubscriptionWorker) : bool :=
  match _redirectNode w, settled (tcpInfo s) with
  | Some _, Rejected _ => true
  | _, _ => false
  end.

(** The node that the classification of the error [ex] at time [now]
    redirects to, if it redirects: [ex] is a
    SubscriptionDoesNotBelongToNodeException, the erroneous period is not
    over, and the local topology has a node of the tag that [ex] names. *)
Definition redirectTarget (now : Z) (topologyNodes : list ServerNode) (ex : Error)
    (w : SubscriptionWorker) : option ServerNode :=
  if String.eqb (name ex) "SubscriptionDoesNotBelongToNodeException"
     && negb (windowExceeded now w)
  then
    match appropriateNode ex with
    | None | Some "" => None
    | Some tag => find (fun x => String.eqb (clusterTag x) tag) topologyNodes
    end
  else None.

(** A relation between the worker before a call, the worker after it and the
    effects of the call, stated of every run of a method. *)
Definition Always (P : SubscriptionWorker -> SubscriptionWorker -> list Effect -> Prop)
    {A} (m : M A) : Prop :=
  forall w, P w (state (m w)) (trace (m w)).

(** Such a relation can be followed along a method when it holds of doing
    nothing and composes. *)
Class Stepwise (P : SubscriptionWorker -> SubscriptionWorker -> list Effect -> Prop) := {
  stepwise_refl : forall w, P w w [];
  stepwise_trans : forall w1 w2 w3 t1 t2,
      P w1 w2 t1 -> P w2 w3 t2 -> P w1 w3 (t1 ++ t2)
}.

(** The call leaves the field [f] of the worker as it was. *)
Definition keeps {X} (f : SubscriptionWorker -> X)
  : SubscriptionWorker -> SubscriptionWorker -> list Effect -> Prop :=
  fun w w' _ => f w' = f w.

(** Emissions of the two events of the background task. *)
Definition taskEvent (e : Effect) : bool :=
  match e with
  | Emit event _ _ => String.eqb event "error" || String.eqb event "end"
  | _ => false
  end.

Definition silent : SubscriptionWorker -> SubscriptionWorker -> list Effect -> Prop :=
  fun _ _ t => Forall (fun e => taskEvent e = false) t.

(** [dispose] is the only place that sets [_disposed], and it cancels too. *)
Definition consistent (w : SubscriptionWorker) : Prop :=
  _disposed w = true -> _processingCancelled w = true.

Definition staysConsistent : SubscriptionWorker -> SubscriptionWorker -> list Effect -> Prop :=
  fun w w' _ => consistent w -> consistent w'.

(** A relation that the effects other than the task events, [dispose] and
    the registration of listeners respect. *)
Class Harmless (P : SubscriptionWorker -> SubscriptionWorker -> list Effect -> Prop) := {
  harmless_effect : forall e, taskEvent e = false -> Always P (effect e);
  harmless_dispose : Always P dispose;
  harmless_emitter : forall g, Always P (update (fun w => set_emitter (g w) w))
}.

(** The connection statuses that refuse the subscription for good, each
    with the name of the error [_assertConnectionState] throws for it. *)
Definition refusals : list (string * string) :=
  [("InUse", "SubscriptionInUseException");
   ("Closed", "SubscriptionClosedException");
   ("Invalid", "SubscriptionInvalidStateException");
   ("NotFound", "SubscriptionDoesNotExistException")].

(** The first error among the invocations of a completion callback. *)
Definition firstError (invocations : list (nat * option Error)) : option Error :=
  head (omap snd invocations).

(** Effects by kind. *)
Definition isEnd (e : Effect) : bool :=
  match e with SocketEnd _ | ParserEnd => true | _ => false end.

Definition isWrite (e : Effect) : bool :=
  match e with SocketWrite _ => true | _ => false end.

(** The write of the subscription options. *)
Definition isOptionsWrite (e : Effect) : bool :=
  match e with SocketWrite (OptionsFrame _) => true | _ => false end.

Definition isEmit (e : Effect) : bool :=
  match e with Emit _ _ _ => true | _ => false end.

Definition isSleep (e : Effect) : bool :=
  match e with Sleep _ => true | _ => false end.

Definition isRetry (e : Effect) : bool :=
  match e with
  | Emit event _ _ => String.eqb event "connectionRetry"
  | _ => false
  end.

(** The emission of [afterAcknowledgment] with a batch. *)
Definition isAcknowledgment (e : Effect) : bool :=
  match e with
  | Emit event (BatchArg _) _ => String.eqb event "afterAcknowledgment"
  | _ => false
  end.

(** The two effects of a retry. *)
Definition retryEffect (e : Effect) : bool := isSleep e || isRetry e.

(** The effects [t] are pairs: a sleep of [delay] milliseconds, then the
    emission of [connectionRetry] with an error. *)
Fixpoint sleepsThenRetries (delay : Z) (t : list Effect) : bool :=
  match t with
  | [] => true
  | Sleep millis :: Emit event (ErrorArg _) _ :: rest =>
      (millis =? delay)%Z && String.eqb event "connectionRetry"
      && sleepsThenRetries delay rest
  | _ => false
  end.

(** The call neither sleeps nor emits [connectionRetry]. *)
Definition performsNoRetry : SubscriptionWorker -> SubscriptionWorker -> list Effect -> Prop :=
  fun _ _ t => Forall (fun e => retryEffect e = false) t.

(** The call emits no event. *)
Definition emitsNothing : SubscriptionWorker -> SubscriptionWorker -> list Effect -> Prop :=
  fun _ _ t => Forall (fun e => isEmit e = false) t.

(** The run goes on as [next] after the effects [t], on a worker that is
    neither cancelled nor disposed. *)
Definition goesOn {A} (run : Completion A * SubscriptionWorker * list Effect)
    (t : list Effect) (next : M A) : Prop :=
  exists w',
    _processingCancelled w' = false /\ _disposed w' = false
    /\ run = (result (next w'), state (next w'), t ++ trace (next w')).

(** Stream events that leave a waiting read waiting: a ['readable'] with
    nothing to read, or a call of the user other than [dispose]. *)
Definition idle {V} (ev : StreamEvent V) : bool :=
  match ev with
  | Readable [] => true
  | User CallDispose => false
  | User _ => true
  | _ => false
  end.

(** [dispose] is the only way the processing is cancelled. *)
Definition cancelledByDispose (w : SubscriptionWorker) : Prop :=
  _processingCancelled w = true -> _disposed w = true.

Definition staysCancelledByDispose
  : SubscriptionWorker -> SubscriptionWorker -> list Effect -> Prop :=
  fun w w' _ => cancelledByDispose w -> cancelledByDispose w'.

(** The error the controller raises when the erroneous period is over. *)
Definition erroneousPeriodOver (maxErroneousPeriod : Z) (lastError : Error) : Error :=
  getError "SubscriptionInvalidStateException"
    ("Subscription connection was in invalid state for more than "
     +:+ pretty maxErroneousPeriod +:+ " and therefore will be terminated.")
    (Some lastError).

(** The effects of [n] retries after the error [e]. *)
Definition retries (n : nat) (w : SubscriptionWorker) (e : Error) : list Effect :=
  concat (replicate n
            [Sleep (timeToWaitBeforeConnectionRetry (_options w));
             Emit "connectionRetry" (ErrorArg e)
               (listeners (_emitter w) "connectionRetry")]).

(** ** Sample inputs *)

Definition orders : SubscriptionWorker := newWorker "orders" "shop".

(** The worker after [on("error", 7)]. *)
Definition listening : SubscriptionWorker := state (on "error" 7%nat [] orders).

(** The worker after two calls of [on("batch", _)], the task left aside. *)
Definition twoSubscribers : SubscriptionWorker :=
  state (interleave [CallOn "batch" 1%nat; CallOn "batch" 2%nat] orders).

Definition frame (type status documentId : string) : ServerMessage :=
  {| ServerMessage.type := type; ServerMessage.status := status;
     ServerMessage.exception := None; ServerMessage.message := None;
     ServerMessage.data := None; ServerMessage.documentId := documentId;
     ServerMessage.changeVector := Some ("A:" +:+ documentId) |}.

(** [{Type: "ConnectionStatus", Status: "Redirect", Data: {RedirectedTag}}] *)
Definition redirectTo (tag : string) : ServerMessage :=
  {| ServerMessage.type := "ConnectionStatus"; ServerMessage.status := "Redirect";
     ServerMessage.exception := None; ServerMessage.message := None;
     ServerMessage.data := Some (Some tag); ServerMessage.documentId := "";
     ServerMessage.changeVector := None |}.

Definition undisturbed {A} (s : Settled A) : Await A :=
  {| meanwhile := []; settled := s |}.

Definition nodeA : ServerNode := {| clusterTag := "A"; url := "http://a:8080" |}.
Definition nodeB : ServerNode := {| clusterTag := "B"; url := "http://b:8080" |}.

(** A handshake with [node] that goes through. *)
Definition connectingTo (node : ServerNode) : ConnectScript :=
  {| tcpInfo := undisturbed (Resolved {| tcpUrl := "tcp://node:38888";
                                         requestedNode := node |});
     connected := undisturbed (Resolved 1%nat);
     negotiated := undisturbed (Resolved 40);
     optionsWritten := undisturbed (Resolved None) |}.

(** A turn in which node A answers the handshake with the message [m]. *)
Definition answeredWith (m : ServerMessage) (time : Z) : Iteration :=
  {| processing := {| connecting := connectingTo nodeA;
                      connectionStatus := deliver m;
                      rounds := [];
                      lastNotified := undisturbed (Resolved tt);
                      lastRead := undisturbed (Resolved tt) |};
     onResume := []; now := time; topologyNodes := [nodeA; nodeB];
     duringDelay := [] |}.

(** A turn in which node A cannot be reached: [TcpUtils.connect] fails
    with [e]. *)
Definition unreachable (e : Error) (time : Z) : Iteration :=
  {| processing := {| connecting :=
                        {| tcpInfo := undisturbed (Resolved {| tcpUrl := "tcp://node:38888";
                                                               requestedNode := nodeA |});
                           connected := undisturbed (Rejected e);
                           negotiated := undisturbed Unsettled;
                           optionsWritten := undisturbed Unsettled |};
                      connectionStatus := undisturbed Unsettled;
                      rounds := [];
                      lastNotified := undisturbed (Resolved tt);
                      lastRead := undisturbed (Resolved tt) |};
     onResume := []; now := time; topologyNodes := [nodeA; nodeB];
     duringDelay := [] |}.

Definition transportFailure : Error := getError "Error" "connect ECONNREFUSED" None.
Definition parseFailure : Error :=
  getError "Error" "Parser cannot parse input: expected a value" None.
Definition concurrencyFailure : Error :=
  getError "SubscriptionChangeVectorUpdateConcurrencyException" "try again" None.
Definition subscriberFailure : Error := getError "Error" "cannot store order" None.
Definition inUseFailure : Error :=
  getError "SubscriptionInUseException"
    "Subscription with id orders cannot be opened, because it's in use and the connection strategy is OpenIfFree"
    None.
Definition redirectedToB : Error :=
  {| name := "SubscriptionDoesNotBelongToNodeException";
     message := "Subscription with id orders cannot be processed by current node, it will be redirected to B";
     appropriateNode := Some "B"; inner := None |}.

(** The worker once a redirect to B has been classified. *)
Definition redirectedOrders : SubscriptionWorker :=
  state (_shouldTryToReconnect 0 [nodeA; nodeB] redirectedToB orders).

(** A handshake whose request for the connection info fails with [e]. *)
Definition endpointFails (e : Error) : ConnectScript :=
  {| tcpInfo := undisturbed (Rejected e);
     connected := undisturbed Unsettled;
     negotiated := undisturbed Unsettled;
     optionsWritten := undisturbed Unsettled |}.


(** A read during which the user disposes of the worker. *)
Definition disposedMeanwhile (m : ServerMessage) : Await (option ServerMessage) :=
  {| meanwhile := [CallDispose]; settled := Resolved (Some m) |}.

(** A turn in which node A cannot be reached and the user disposes of the
    worker during the retry delay. *)
Definition disposedDuringDelay (e : Error) (time : Z) : Iteration :=
  {| processing := processing (unreachable e time);
     onResume := []; now := time; topologyNodes := [nodeA; nodeB];
     duringDelay := [CallDispose] |}.

(** A turn in which node A accepts the connection and the user disposes of
    the worker while the first batch is awaited. *)
Definition disposedWhileReading (time : Z) : Iteration :=
  {| processing :=
       {| connecting := connectingTo nodeA;
          connectionStatus := deliver (frame "ConnectionStatus" "Accepted" "");
          rounds := [{| notified := undisturbed (Resolved tt);
                        incoming := {| meanwhile := [CallDispose];
                                       settled := Resolved [] |} |}];
          lastNotified := undisturbed (Resolved tt);
          lastRead := undisturbed (Resolved tt) |};
     onResume := []; now := time; topologyNodes := [nodeA; nodeB];
     duringDelay := [] |}.

(** * Properties *)

(** ** Following a relation along the monad *)

Section Stepwise.

Context (P : SubscriptionWorker -> SubscriptionWorker -> list Effect -> Prop)
        `{!Stepwise P}.

Lemma always_ret {A} (a : A) : Always P (ret a).
Proof. intros w. apply stepwise_refl. Qed.

Lemma always_this : Always P this.
Proof. intros w. apply stepwise_refl. Qed.

Lemma always_throw {A} (e : Error) : Always P (throw (A:=A) e).
Proof. intros w. apply stepwise_refl. Qed.

Lemma always_throwError {A} n msg cause : Always P (throwError (A:=A) n msg cause).
Proof. intros w. apply stepwise_refl. Qed.

Lemma always_pending {A} : Always P (pending (A:=A)).
Proof. intros w. apply stepwise_refl. Qed.

Lemma always_bind {A B} (m : M A) (k : A -> M B) :
  Always P m -> (forall a, Always P (k a)) -> Always P (bind m k).
Proof.
  intros Hm Hk w. specialize (Hm w). unfold bind, state, trace in *.
  destruct (m w) as [[[a| |] w1] t1]; simpl in *; try done.
  specialize (Hk a w1). unfold state, trace in Hk.
  destruct (k a w1) as [[r w2] t2]; simpl in *.
  by eapply stepwise_trans.
Qed.

Lemma always_try_catch {A} (body : M A) (handler : Error -> M A) :
  Always P body -> (forall e, Always P (handler e)) -> Always P (try_catch body handler).
Proof.
  intros Hm Hk w. specialize (Hm w). unfold try_catch, state, trace in *.
  destruct (body w) as [[[a|e|] w1] t1]; simpl in *; try done.
  specialize (Hk e w1). unfold state, trace in Hk.
  destruct (handler e w1) as [[r w2] t2]; simpl in *.
  by eapply stepwise_trans.
Qed.

Lemma always_try_finally {A} (body : M A) (cleanup : M unit) :
  Always P body -> Always P cleanup -> Always P (try_finally body cleanup).
Proof.
  intros Hm Hk w. specialize (Hm w). unfold try_finally, state, trace in *.
  destruct (body w) as [[[a|e|] w1] t1]; simpl in *; try done;
    specialize (Hk w1); unfold state, trace in Hk;
    destruct (cleanup w1) as [[[[]|e'|] w2] t2]; simpl in *;
    by eapply stepwise_trans.
Qed.

End Stepwise.

#[local] Instance keeps_stepwise {X} (f : SubscriptionWorker -> X) : Stepwise (keeps f).
Proof. split; unfold keeps; [done|congruence]. Qed.

#[local] Instance silent_stepwise : Stepwise silent.
Proof.
  split; unfold silent; [by constructor|].
  intros. by apply Forall_app.
Qed.

#[local] Instance staysConsistent_stepwise : Stepwise staysConsistent.
Proof. split; unfold staysConsistent; auto. Qed.

(** One step of the analysis of a method: a sequencing, a handler, a
    return or a throw, or a case distinction of the code. *)
Ltac stepwise_step :=
  first
    [ apply always_bind; [tc_solve| |intros ?]
    | apply always_try_catch; [tc_solve| |intros ?]
    | apply always_try_finally; [tc_solve| |]
    | apply always_ret; tc_solve
    | apply always_this; tc_solve
    | apply always_throw; tc_solve
    | apply always_throwError; tc_solve
    | apply always_pending; tc_solve
    | progress cbv zeta
    | progress case_match ].

Ltac stepwise := repeat stepwise_step.

(** ** What waiting cannot change *)

Section Harmless.

Context (P : SubscriptionWorker -> SubscriptionWorker -> list Effect -> Prop)
        `{!Stepwise P, !Harmless P}.

Lemma always_userCall (c : UserCall) : Always P (userCall c).
Proof.
  destruct c; simpl; auto using harmless_dispose, harmless_emitter.
Qed.

Lemma always_interleave (calls : list UserCall) : Always P (interleave calls).
Proof.
  induction calls as [|c calls IH]; simpl; stepwise; auto using always_userCall.
Qed.

Lemma always_await {A} (p : Await A) : Always P (await p).
Proof. unfold await. stepwise; auto using always_interleave. Qed.

Lemma always_settle (p : Await unit) : Always P (settle p).
Proof. unfold settle. stepwise; auto using always_interleave. Qed.

Lemma always_emit (event : string) (arg : EmitArg) :
  event <> "error" -> event <> "end" -> Always P (emit event arg).
Proof.
  intros H1 H2.
  apply (proj2 (String.eqb_neq _ _)) in H1. apply (proj2 (String.eqb_neq _ _)) in H2.
  unfold emit.
  stepwise; try congruence; apply harmless_effect; simpl;
    destruct (String.eqb event "error"), (String.eqb event "end"); simpl; congruence.
Qed.

Lemma always_closeTcpClient : Always P _closeTcpClient.
Proof. unfold _closeTcpClient. stepwise; by apply harmless_effect. Qed.

Lemma always_sendOptions options written : Always P (_sendOptions options written).
Proof.
  unfold _sendOptions. stepwise; auto using always_interleave.
  by apply harmless_effect.
Qed.

Lemma always_assertConnectionState m : Always P (_assertConnectionState m).
Proof. unfold _assertConnectionState. stepwise. Qed.

Lemma always_dispatchLoop (rounds : list PipelineRound) :
  Always P (dispatchLoop rounds).
Proof.
  induction rounds as [|round rounds IH]; simpl; stepwise;
    auto using always_interleave; by apply harmless_effect.
Qed.

End Harmless.

(** ** Calls made by the user always return *)

Lemma dispose_returns (w : SubscriptionWorker) :
  exists w' t, dispose w = (Normal tt, w', t).
Proof.
  unfold dispose, _closeTcpClient, bind, this, update, effect, ret; simpl.
  destruct (_disposed w); simpl; eauto.
  destruct (_tcpClient w), (_parser w); simpl; eauto.
Qed.

Lemma userCall_returns (c : UserCall) (w : SubscriptionWorker) :
  exists w' t, userCall c w = (Normal tt, w', t).
Proof.
  destruct c; simpl; eauto using dispose_returns.
Qed.

Lemma interleave_returns (calls : list UserCall) (w : SubscriptionWorker) :
  exists w' t, interleave calls w = (Normal tt, w', t).
Proof.
  revert w; induction calls as [|c calls IH]; intros w; simpl.
  - unfold ret; eauto.
  - unfold bind. destruct (userCall_returns c w) as (w1 & t1 & ->).
    destruct (IH w1) as (w2 & t2 & ->). eauto.
Qed.

Lemma await_resolved {A} (calls : list UserCall) (a : A) (w : SubscriptionWorker) :
  exists w' t,
    interleave calls w = (Normal tt, w', t)
    /\ await {| meanwhile := calls; settled := Resolved a |} w = (Normal a, w', t ++ []).
Proof.
  destruct (interleave_returns calls w) as (w' & t & H).
  exists w', t. split; [done|]. unfold await, bind; simpl. by rewrite H.
Qed.

(** ** Socket writes *)

(** C9. Whatever the outcome [err] of the socket write and whatever the user
    does while it is in flight, [_sendAck] rejects with the write error when
    there is one and resolves otherwise, whereas [_sendOptions] and
    [_sendDropMessage] (here with a reply to report and a socket to write
    to) resolve in both cases: the error of their write is dropped. *)
Theorem sendAck_reports_write_error_others_drop_it :
  forall (w : SubscriptionWorker) (calls : list UserCall) (err : option Error)
         (lastReceivedChangeVector : option string)
         (options : SubscriptionWorkerOptions)
         (ours : Z) (reply : HeaderResponse.reply) (socket : nat),
    let written := {| meanwhile := calls; settled := Resolved err |} in
    result (_sendAck lastReceivedChangeVector written w)
      = match err with Some e => Throw e | None => Normal tt end
    /\ result (_sendOptions options written w) = Normal tt
    /\ result (_sendDropMessage ours (Some reply) written
                 (set_tcpClient (Some socket) w)) = Normal tt.
Proof.
  intros w calls err cv options ours reply socket written.
  destruct (await_resolved calls err w) as (w1 & t1 & _ & Hw).
  destruct (await_resolved calls err (set_tcpClient (Some socket) w))
    as (w2 & t2 & _ & Hs).
  repeat split.
  - unfold _sendAck, bind, effect, result; simpl. fold written in Hw. rewrite Hw.
    by destruct err.
  - unfold _sendOptions, bind, effect, result; simpl. fold written in Hw.
    by rewrite Hw.
  - unfold _sendDropMessage, bind, effect, this, result; simpl.
    fold written in Hs. by rewrite Hs.
Qed.

(** ** removeListener *)

(** C10. However deep the call stack, [removeListener] ends with the
    engine's stack-overflow error and leaves the worker, its emitter
    included, as it was; [off] on the same arguments does drop the most
    recently added instance of the handler. *)
Theorem removeListener_overflows_the_stack :
  forall (stack : nat) (event : string) (handler : Handler) (w : SubscriptionWorker),
    removeListener stack event handler w = (Throw RangeError, w, [])
    /\ result (off event handler w) = Normal tt
    /\ listeners (_emitter (state (off event handler w))) event
       = rev (remove_first handler (rev (listeners (_emitter w) event))).
Proof.
  intros stack event handler w. repeat split.
  - induction stack as [|stack IH]; simpl; [done|].
    unfold bind. by rewrite IH.
  - unfold off, update, state, listeners; simpl.
    unfold emitter_removeListener. by rewrite lookup_insert_eq.
Qed.

(** ** Negotiation *)

(** C5. A header response [{Status: "TcpVersionMismatch", Version:
    OUT_OF_RANGE_STATUS, Message}] has no [value] property, so the
    [x.value] handed to [_sendDropMessage] is undefined: reading its version
    throws a TypeError before anything is written and before the
    InvalidOperationException is raised. *)
Theorem out_of_range_mismatch_writes_no_drop_frame :
  forall (ours outOfRange : Z) (msg : string) (w : SubscriptionWorker)
         (dropWritten : Await (option Error)),
    let x := {| HeaderResponse.status := "TcpVersionMismatch";
                HeaderResponse.version := outOfRange;
                HeaderResponse.message := msg;
                HeaderResponse.value := None |} in
    _readServerResponseAndGetVersion ours outOfRange
      {| meanwhile := []; settled := Resolved (Some x) |} dropWritten w
    = (Throw (TypeError "Cannot read property 'version' of undefined"), w, []).
Proof.
  intros ours outOfRange msg w dropWritten x.
  unfold _readServerResponseAndGetVersion, _sendDropMessage, await, bind, this,
    throw, ret; simpl.
  by rewrite Z.eqb_refl.
Qed.

(** The other branches of the negotiation do what the protocol says, and so
    does the out-of-range branch once the response carries a [value]. *)
Lemma negotiation_other_branches :
  forall (ours outOfRange : Z) (x : HeaderResponse.t) (w : SubscriptionWorker)
         (dropWritten : Await (option Error)),
    let run := _readServerResponseAndGetVersion ours outOfRange
                 {| meanwhile := []; settled := Resolved (Some x) |} dropWritten w in
    (HeaderResponse.status x = "Ok" -> result run = Normal (HeaderResponse.version x))
    /\ (HeaderResponse.status x = "AuthorizationFailed" ->
        exists e, result run = Throw e /\ name e = "AuthorizationException")
    /\ (HeaderResponse.status x = "TcpVersionMismatch" ->
        HeaderResponse.version x <> outOfRange ->
        result run = Normal (HeaderResponse.version x))
    /\ (HeaderResponse.status x = "TcpVersionMismatch" ->
        HeaderResponse.version x = outOfRange ->
        forall reply socket calls err,
          HeaderResponse.value x = Some reply ->
          _tcpClient w = Some socket ->
          dropWritten = {| meanwhile := calls; settled := Resolved err |} ->
          exists e info,
            result run = Throw e /\ name e = "InvalidOperationException"
            /\ SocketWrite (DropFrame (_dbName w) ours info) ∈ trace run).
Proof.
  intros ours outOfRange x w dropWritten run. subst run.
  unfold _readServerResponseAndGetVersion, await, bind, this, throwError, throw,
    ret, result; simpl.
  repeat split.
  - by intros ->.
  - intros ->; simpl. eauto.
  - intros -> Hne; simpl. by apply Z.eqb_neq in Hne as ->.
  - intros -> -> reply socket calls err Hv Hs ->; simpl.
    rewrite Z.eqb_refl; simpl.
    unfold _sendDropMessage, bind, this, effect, trace; simpl. rewrite Hv, Hs; simpl.
    destruct (await_resolved calls err w) as (w1 & t1 & _ & ->); simpl.
    eexists _, _. split; [done|]. split; [done|]. apply list_elem_of_here.
Qed.

(** After the negotiation, a protocol version that is zero or negative makes
    [_connectToServer] fail with InvalidOperationException. *)
Lemma invalid_protocol_version_is_refused :
  forall (s : ConnectScript) (w : SubscriptionWorker) info socket version,
    _redirectNode w = None ->
    tcpInfo s = {| meanwhile := []; settled := Resolved info |} ->
    connected s = {| meanwhile := []; settled := Resolved socket |} ->
    negotiated s = {| meanwhile := []; settled := Resolved version |} ->
    (version <= 0)%Z ->
    exists e, result (_connectToServer s w) = Throw e
              /\ name e = "InvalidOperationException".
Proof.
  intros s w info socket version Hr Hi Hc Hn Hle.
  unfold _connectToServer, await, bind, this, update, _ensureParser, throwError,
    throw, ret, result; simpl.
  rewrite Hr, Hi; simpl. rewrite Hc; simpl. rewrite Hn; simpl.
  apply Z.leb_le in Hle as ->. simpl. eauto.
Qed.

(** ** The completion latch of a dispatch *)

Lemma callbacks_settled (d : Dispatch) (invocations : list (nat * option Error)) :
  promise d <> Unsettled -> promise (callbacks d invocations) = promise d.
Proof.
  unfold callbacks. revert d.
  induction invocations as [|[i [e|]] calls IH]; intros d Hd; simpl; [done| |].
  - rewrite IH; simpl; by destruct (promise d).
  - rewrite IH; simpl.
    + case_match; [|done]. by destruct (promise d).
    + case_match; [|done]. by destruct (promise d).
Qed.

Lemma callbacks_resolved (n : Z) (invocations : list (nat * option Error)) :
  promise (callbacks {| listenerCount := n; promise := Unsettled |} invocations)
    = Resolved tt ->
  exists completed later,
    invocations = completed ++ later
    /\ Forall (fun call => snd call = None) completed
    /\ Z.of_nat (length completed) = n.
Proof.
  revert n. induction invocations as [|[i [e|]] calls IH]; intros n; simpl.
  - done.
  - unfold callbacks; simpl. fold (callbacks {| listenerCount := n; promise := Rejected e |} calls).
    by rewrite callbacks_settled.
  - unfold callbacks; simpl.
    destruct (n - 1 =? 0)%Z eqn:Hn; simpl.
    + intros _. exists [(i, None)], calls.
      split; [done|]. split; [by repeat constructor|]. simpl. lia.
    + intros H. apply IH in H as (completed & later & -> & Hok & Hlen).
      exists ((i, None) :: completed), later.
      split; [done|]. split; [by constructor|]. simpl length. lia.
Qed.

Lemma callbacks_rejected (n : Z) (invocations : list (nat * option Error)) :
  (Z.of_nat (length invocations) <= n)%Z ->
  Exists (fun call => snd call <> None) invocations ->
  exists e k, invocations !! k = Some e /\ snd e <> None
    /\ promise (callbacks {| listenerCount := n; promise := Unsettled |} invocations)
       = match snd e with Some err => Rejected err | None => Unsettled end.
Proof.
  revert n. induction invocations as [|[i [e|]] calls IH]; intros n Hlen Hex.
  - by apply Exists_nil in Hex.
  - exists (i, Some e), 0%nat. split; [done|]. split; [done|].
    unfold callbacks; simpl.
    fold (callbacks {| listenerCount := n; promise := Rejected e |} calls).
    by rewrite callbacks_settled.
  - apply Exists_cons in Hex as [Hex|Hex]; [done|].
    simpl length in Hlen.
    assert (calls <> []) as Hne by (intros ->; by apply Exists_nil in Hex).
    assert (0 < length calls)%nat by (destruct calls; simpl; [done|lia]).
    destruct (IH (n - 1)%Z) as (e & k & Hk & He & Hp); [lia|done|].
    exists e, (S k). split; [done|]. split; [done|].
    unfold callbacks; simpl.
    destruct (n - 1 =? 0)%Z eqn:Hn; [lia|]. done.
Qed.

Lemma at_most_once_bounds_calls (n : nat) (invocations : list (nat * option Error)) :
  NoDup (map fst invocations) ->
  Forall (fun call => (fst call < n)%nat) invocations ->
  (length invocations <= n)%nat.
Proof.
  intros Hnd Hlt.
  assert (map fst invocations ⊆+ seq 0 n) as Hsub.
  { apply NoDup_submseteq; [done|].
    intros i Hi. apply list_elem_of_In, in_map_iff in Hi as (call & <- & Hcall).
    rewrite Forall_forall in Hlt. apply elem_of_seq.
    apply list_elem_of_In in Hcall.
    specialize (Hlt call Hcall). lia. }
  apply submseteq_length in Hsub.
  by rewrite length_map, length_seq in Hsub.
Qed.

Lemma emitBatch_runs (batch : SubscriptionBatch)
    (invocations : list (nat * option Error)) (w : SubscriptionWorker) :
  result (_emitBatchAndWaitForProcessing batch invocations w)
  = Normal (promise (callbacks
              {| listenerCount := emitter_listenerCount (_emitter w) "batch";
                 promise := Unsettled |} invocations)).
Proof.
  unfold _emitBatchAndWaitForProcessing, emit, bind, this, effect, ret, result; simpl.
  by destruct (listeners (_emitter w) "batch").
Qed.

(** C7. The dispatch promise resolves only once the completion callback has
    been invoked without error as many times as there were ["batch"]
    listeners when the batch was emitted; when every listener calls it at
    most once, a single call that passes an error rejects the promise; and
    in any case a call that passes an error while the promise is pending
    rejects it with that error. *)
Theorem dispatch_waits_for_every_listener :
  forall (w : SubscriptionWorker) (batch : SubscriptionBatch)
         (invocations : list (nat * option Error)),
    (result (_emitBatchAndWaitForProcessing batch invocations w) = Normal (Resolved tt) ->
     exists completed later,
       invocations = completed ++ later
       /\ Forall (fun call => snd call = None) completed
       /\ Z.of_nat (length completed) = emitter_listenerCount (_emitter w) "batch")
    /\ (NoDup (map fst invocations) ->
        Forall (fun call => (fst call < length (listeners (_emitter w) "batch"))%nat)
          invocations ->
        Exists (fun call => snd call <> None) invocations ->
        exists err, result (_emitBatchAndWaitForProcessing batch invocations w)
                    = Normal (Rejected err))
    /\ (forall before i err after,
           invocations = before ++ (i, Some err) :: after ->
           promise (callbacks {| listenerCount := emitter_listenerCount (_emitter w) "batch";
                                 promise := Unsettled |} before) = Unsettled ->
           result (_emitBatchAndWaitForProcessing batch invocations w)
           = Normal (Rejected err)).
Proof.
  intros w batch invocations. rewrite emitBatch_runs. split; [|split].
  - intros [= H]. by apply callbacks_resolved.
  - intros Hnd Hlt Hex.
    pose proof (at_most_once_bounds_calls _ _ Hnd Hlt) as Hlen.
    destruct (callbacks_rejected (emitter_listenerCount (_emitter w) "batch") invocations)
      as ([i [err|]] & k & _ & He & Hp); [unfold emitter_listenerCount; lia|done| |done].
    exists err. by rewrite Hp.
  - intros before i err after -> Hpending.
    unfold callbacks in *. rewrite fold_left_app. simpl.
    match goal with |- context [fold_left ?f after ?d] =>
      change (fold_left f after d) with (callbacks d after) end.
    rewrite callbacks_settled; simpl; by rewrite Hpending.
Qed.

(** ** The batch pump *)

Lemma isType_eq (t : string) (m : ServerMessage) :
  isType t m = true <-> ServerMessage.type m = t.
Proof. unfold isType. apply String.eqb_eq. Qed.

Lemma emit_delivers (event : string) (arg : EmitArg) (w : SubscriptionWorker) :
  event <> "error" ->
  exists b, emit event arg w
            = (Normal b, w, [Emit event arg (listeners (_emitter w) event)]).
Proof.
  intros Hev. apply String.eqb_neq in Hev.
  unfold emit, bind, this, effect, ret; simpl. rewrite Hev.
  destruct (listeners (_emitter w) event); simpl; eauto.
Qed.

Lemma assertConnectionState_accepted (m : ServerMessage) (w : SubscriptionWorker) :
  ServerMessage.type m = "ConnectionStatus" ->
  ServerMessage.status m = "Accepted" ->
  _assertConnectionState m w = (Normal tt, w, []).
Proof.
  intros Ht Hs. unfold _assertConnectionState, bind, this, ret; simpl.
  by rewrite Ht, Hs.
Qed.

Lemma assertConnectionState_throws (m : ServerMessage) (w : SubscriptionWorker) :
  ServerMessage.type m <> "ConnectionStatus" \/ ServerMessage.status m <> "Accepted" ->
  exists e, _assertConnectionState m w = (Throw e, w, []).
Proof.
  intros H. unfold _assertConnectionState, bind, this, ret, throwError, throw; simpl.
  destruct (String.eqb (ServerMessage.type m) "Error") eqn:Herr; simpl.
  { apply String.eqb_eq in Herr. rewrite Herr; simpl.
    destruct (ServerMessage.exception m) as [ex|]; simpl; [|eauto].
    destruct (includes ex "DatabaseDoesNotExistException"); simpl; eauto. }
  destruct (String.eqb (ServerMessage.type m) "ConnectionStatus") eqn:Ht; simpl; [|eauto].
  apply String.eqb_eq in Ht. destruct H as [H|H]; [done|].
  apply String.eqb_neq in H. rewrite H.
  repeat (match goal with
          | |- context [String.eqb ?a ?b] => destruct (String.eqb a b)
          end; simpl; eauto).
  destruct (ServerMessage.data m); simpl; eauto.
Qed.

(** Calls other than [dispose] do not cancel the processing. *)
Lemma interleave_undisposed (calls : list UserCall) (w : SubscriptionWorker) :
  CallDispose ∉ calls ->
  exists w' t, interleave calls w = (Normal tt, w', t)
               /\ _processingCancelled w' = _processingCancelled w.
Proof.
  revert w. induction calls as [|c calls IH]; intros w Hnot; simpl.
  { unfold ret. eauto. }
  apply not_elem_of_cons in Hnot as [Hc Hnot].
  unfold bind.
  assert (exists w1, userCall c w = (Normal tt, w1, [])
                     /\ _processingCancelled w1 = _processingCancelled w)
    as (w1 & -> & Hw1) by (destruct c; simpl; unfold update; by eauto).
  destruct (IH w1 Hnot) as (w' & t & -> & Hw'). exists w', t.
  split; [done|congruence].
Qed.

Lemma await_delivers (read : Await (option ServerMessage)) (m : ServerMessage)
    (w : SubscriptionWorker) :
  delivers read m ->
  exists w' t, await read w = (Normal (Some m), w', t)
               /\ _processingCancelled w' = _processingCancelled w.
Proof.
  intros [Hs Hnot]. destruct (interleave_undisposed _ w Hnot) as (w' & t & Hi & Hw').
  exists w', (t ++ []). split; [|done].
  unfold await, bind. by rewrite Hi, Hs.
Qed.

Lemma continuesAs_trans {A} (run : Completion A * SubscriptionWorker * list Effect)
    (next next' : M A) :
  continuesAs run next ->
  (forall w, _processingCancelled w = false -> continuesAs (next w) next') ->
  continuesAs run next'.
Proof.
  intros (w1 & t1 & Hc1 & ->) Hnext.
  destruct (Hnext w1 Hc1) as (w2 & t2 & Hc2 & ->).
  exists w2, (t1 ++ t2). split; [done|].
  unfold result, state, trace; simpl. by rewrite app_assoc.
Qed.

Lemma continuesAs_result {A} (run : Completion A * SubscriptionWorker * list Effect)
    (next : M A) :
  continuesAs run next ->
  exists w, _processingCancelled w = false /\ result run = result (next w).
Proof. intros (w1 & t1 & Hc1 & ->). eauto. Qed.

(** The head of the loop, up to the [switch] on the type of the frame. *)
Lemma readBatchLoop_read batch acc read reads m w :
  _processingCancelled w = false ->
  delivers read m ->
  exists w' t,
    _processingCancelled w' = false
    /\ readBatchLoop batch acc (read :: reads) w
       = (let type := ServerMessage.type m in
          let run :=
            (if String.eqb type "Data" then
               readBatchLoop batch (acc ++ [m]) reads
             else if String.eqb type "EndOfBatch" then ret (acc, batch)
             else if String.eqb type "Confirm" then
               _ <- emit "afterAcknowledgment" (BatchArg batch);;
               readBatchLoop {| items := [] |} [] reads
             else if String.eqb type "ConnectionStatus" then
               _assertConnectionState m;;; readBatchLoop batch acc reads
             else if String.eqb type "Error" then _throwSubscriptionError m
             else _throwInvalidServerResponse m) w' in
          (result run, state run, t ++ trace run)).
Proof.
  intros Hc Hd. destruct (await_delivers read m w Hd) as (w' & t & Ha & Hc').
  exists w', t. split; [congruence|].
  simpl. unfold bind at 1, this. rewrite Hc.
  unfold bind at 1. rewrite Ha.
  unfold bind at 1, this. simpl. rewrite Hc', Hc.
  match goal with |- context [(if ?c then ?a else ?b) w'] =>
    destruct ((if c then a else b) w') as [[r s] t'] end.
  done.
Qed.

Lemma read_data batch acc read reads m w :
  _processingCancelled w = false ->
  delivers read m ->
  ServerMessage.type m = "Data" ->
  continuesAs (readBatchLoop batch acc (read :: reads) w)
    (readBatchLoop batch (acc ++ [m]) reads).
Proof.
  intros Hc Hd Ht.
  destruct (readBatchLoop_read batch acc read reads m w Hc Hd) as (w' & t & Hc' & ->).
  rewrite Ht. simpl. by exists w', t.
Qed.

Lemma read_end_of_batch batch acc read reads m w :
  _processingCancelled w = false ->
  delivers read m ->
  ServerMessage.type m = "EndOfBatch" ->
  result (readBatchLoop batch acc (read :: reads) w) = Normal (acc, batch).
Proof.
  intros Hc Hd Ht.
  destruct (readBatchLoop_read batch acc read reads m w Hc Hd) as (w' & t & Hc' & ->).
  by rewrite Ht.
Qed.

Lemma read_confirm batch acc read reads m w :
  _processingCancelled w = false ->
  delivers read m ->
  ServerMessage.type m = "Confirm" ->
  continuesAs (readBatchLoop batch acc (read :: reads) w)
    (readBatchLoop {| items := [] |} [] reads).
Proof.
  intros Hc Hd Ht.
  destruct (readBatchLoop_read batch acc read reads m w Hc Hd) as (w' & t & Hc' & ->).
  rewrite Ht. simpl.
  destruct (emit_delivers "afterAcknowledgment" (BatchArg batch) w') as (b & He);
    [done|].
  exists w', (t ++ [Emit "afterAcknowledgment" (BatchArg batch)
                      (listeners (_emitter w') "afterAcknowledgment")]).
  split; [done|]. unfold bind. rewrite He.
  destruct (readBatchLoop {| items := [] |} [] reads w') as [[r s] t'].
  unfold result, state, trace; simpl. by rewrite <- app_assoc.
Qed.

Lemma read_accepted batch acc read reads m w :
  _processingCancelled w = false ->
  delivers read m ->
  ServerMessage.type m = "ConnectionStatus" ->
  ServerMessage.status m = "Accepted" ->
  continuesAs (readBatchLoop batch acc (read :: reads) w)
    (readBatchLoop batch acc reads).
Proof.
  intros Hc Hd Ht Hs.
  destruct (readBatchLoop_read batch acc read reads m w Hc Hd) as (w' & t & Hc' & ->).
  rewrite Ht. simpl. exists w', t. split; [done|].
  unfold bind. rewrite assertConnectionState_accepted by done.
  by destruct (readBatchLoop batch acc reads w') as [[r s] t'].
Qed.

Lemma read_refused batch acc read reads m w :
  _processingCancelled w = false ->
  delivers read m ->
  ServerMessage.type m = "ConnectionStatus" ->
  ServerMessage.status m <> "Accepted" ->
  exists e, result (readBatchLoop batch acc (read :: reads) w) = Throw e.
Proof.
  intros Hc Hd Ht Hs.
  destruct (readBatchLoop_read batch acc read reads m w Hc Hd) as (w' & t & Hc' & ->).
  rewrite Ht. simpl. unfold bind.
  destruct (assertConnectionState_throws m w') as (e & ->); eauto.
Qed.

Lemma read_error batch acc read reads m w :
  _processingCancelled w = false ->
  delivers read m ->
  ServerMessage.type m = "Error" ->
  exists e, result (readBatchLoop batch acc (read :: reads) w) = Throw e
            /\ name e = "InvalidOperationException".
Proof.
  intros Hc Hd Ht.
  destruct (readBatchLoop_read batch acc read reads m w Hc Hd) as (w' & t & Hc' & ->).
  rewrite Ht. simpl. eauto.
Qed.

Lemma read_unrecognized batch acc read reads m w :
  _processingCancelled w = false ->
  delivers read m ->
  recognized (ServerMessage.type m) = false ->
  exists e, result (readBatchLoop batch acc (read :: reads) w) = Throw e
            /\ name e = "InvalidArgumentException".
Proof.
  intros Hc Hd Ht. unfold recognized in Ht.
  repeat (apply orb_false_iff in Ht as [Ht ?]).
  destruct (readBatchLoop_read batch acc read reads m w Hc Hd) as (w' & t & Hc' & ->).
  cbv zeta.
  repeat match goal with H : String.eqb _ _ = false |- _ => rewrite H; clear H end.
  simpl. eauto.
Qed.

Lemma keepsReading_cases (m : ServerMessage) :
  keepsReading m = true ->
  ServerMessage.type m = "Data"
  \/ ServerMessage.type m = "Confirm"
  \/ (ServerMessage.type m = "ConnectionStatus" /\ ServerMessage.status m = "Accepted").
Proof.
  unfold keepsReading. rewrite !orb_true_iff, andb_true_iff, !isType_eq.
  rewrite String.eqb_eq. tauto.
Qed.

Lemma sinceLastConfirm_none (frames : list ServerMessage) :
  existsb (isType "Confirm") frames = false -> sinceLastConfirm frames = frames.
Proof.
  destruct frames as [|m rest]; simpl; [done|].
  intros [Hm ->]%orb_false_iff. by rewrite Hm.
Qed.

Lemma isType_other (t t' : string) (m : ServerMessage) :
  ServerMessage.type m = t -> t <> t' -> isType t' m = false.
Proof. intros <- Hne. unfold isType. by apply String.eqb_neq. Qed.

Lemma sinceLastConfirm_cons (m : ServerMessage) (pre : list ServerMessage) :
  sinceLastConfirm (m :: pre)
  = if existsb (isType "Confirm") pre then sinceLastConfirm pre
    else if isType "Confirm" m then pre else m :: pre.
Proof. done. Qed.

Lemma dataFrames_cons (m : ServerMessage) (pre : list ServerMessage) :
  dataFrames (m :: pre) = if isType "Data" m then m :: dataFrames pre else dataFrames pre.
Proof. done. Qed.

(** Reading a prefix of frames that keep the loop going leaves it with the
    data frames received since the last [Confirm]. *)
Lemma readBatchLoop_prefix (reads : list (Await (option ServerMessage)))
    (pre : list ServerMessage) :
  Forall2 delivers reads pre ->
  Forall (fun m => keepsReading m = true) pre ->
  forall batch acc later w,
    _processingCancelled w = false ->
    continuesAs (readBatchLoop batch acc (reads ++ later) w)
      (readBatchLoop
         (if existsb (isType "Confirm") pre then {| items := [] |} else batch)
         (if existsb (isType "Confirm") pre then dataFrames (sinceLastConfirm pre)
          else acc ++ dataFrames pre)
         later).
Proof.
  induction 1 as [|read m reads pre Hd Hrest IH]; intros Hpre batch acc later w Hc.
  - simpl. rewrite app_nil_r. exists w, []. split; [done|].
    by destruct (readBatchLoop batch acc later w) as [[r s] t].
  - apply Forall_cons in Hpre as [Hm Hpre]. specialize (IH Hpre).
    change (existsb (isType "Confirm") (m :: pre))
      with (isType "Confirm" m || existsb (isType "Confirm") pre).
    rewrite sinceLastConfirm_cons, dataFrames_cons. simpl app.
    apply keepsReading_cases in Hm as [Hm|[Hm|[Hm Hs]]].
    + eapply continuesAs_trans; [by apply read_data|].
      intros w' Hc'. specialize (IH batch (acc ++ [m]) later w' Hc').
      rewrite (isType_other "Data" "Confirm") by done.
      rewrite (proj2 (isType_eq "Data" m) Hm). simpl.
      destruct (existsb (isType "Confirm") pre); [done|].
      by rewrite <- app_assoc in IH.
    + eapply continuesAs_trans; [by apply (read_confirm _ _ _ _ m)|].
      intros w' Hc'. specialize (IH {| items := [] |} [] later w' Hc').
      rewrite (proj2 (isType_eq "Confirm" m) Hm). simpl.
      by destruct (existsb (isType "Confirm") pre).
    + eapply continuesAs_trans; [by apply (read_accepted _ _ _ _ m)|].
      intros w' Hc'. specialize (IH batch acc later w' Hc').
      rewrite (isType_other "ConnectionStatus" "Confirm") by done.
      rewrite (isType_other "ConnectionStatus" "Data") by done. simpl.
      by destruct (existsb (isType "Confirm") pre).
Qed.

(** The loop returns only when it has read an [EndOfBatch] frame. *)
Lemma readBatchLoop_returns_at_end_of_batch (reads : list (Await (option ServerMessage)))
    (frames : list ServerMessage) :
  Forall2 delivers reads frames ->
  forall batch acc w x,
    _processingCancelled w = false ->
    result (readBatchLoop batch acc reads w) = Normal x ->
    exists pre eob rest,
      frames = pre ++ eob :: rest
      /\ Forall (fun m => keepsReading m = true) pre
      /\ ServerMessage.type eob = "EndOfBatch".
Proof.
  induction 1 as [|read m reads frames Hd Hrest IH]; intros batch acc w x Hc Hrun.
  - simpl in Hrun. unfold bind, this, pending, result in Hrun; simpl in Hrun.
    by rewrite Hc in Hrun.
  - destruct (String.eqb (ServerMessage.type m) "EndOfBatch") eqn:Heob.
    { apply String.eqb_eq in Heob. exists [], m, frames. by repeat split. }
    assert (forall (next : M (list ServerMessage * SubscriptionBatch)),
               continuesAs (readBatchLoop batch acc (read :: reads) w) next ->
               (forall w', _processingCancelled w' = false ->
                           result (next w') = Normal x ->
                           exists pre eob rest,
                             frames = pre ++ eob :: rest
                             /\ Forall (fun m => keepsReading m = true) pre
                             /\ ServerMessage.type eob = "EndOfBatch") ->
               keepsReading m = true ->
               exists pre eob rest,
                 m :: frames = pre ++ eob :: rest
                 /\ Forall (fun m => keepsReading m = true) pre
                 /\ ServerMessage.type eob = "EndOfBatch") as Hext.
    { intros next Hnext Hind Hm.
      apply continuesAs_result in Hnext as (w' & Hc' & Hr).
      destruct (Hind w' Hc') as (pre & eob & rest & -> & Hpre & He); [congruence|].
      exists (m :: pre), eob, rest. repeat split; [by constructor|done]. }
    destruct (String.eqb (ServerMessage.type m) "Data") eqn:Hdata.
    { apply String.eqb_eq in Hdata.
      eapply Hext; [by apply read_data| |].
      - intros w' Hc' Hr. by eapply IH.
      - unfold keepsReading, isType. by rewrite Hdata. }
    destruct (String.eqb (ServerMessage.type m) "Confirm") eqn:Hconfirm.
    { apply String.eqb_eq in Hconfirm.
      eapply Hext; [by apply (read_confirm _ _ _ _ m)| |].
      - intros w' Hc' Hr. by eapply IH.
      - unfold keepsReading, isType. by rewrite Hconfirm. }
    destruct (String.eqb (ServerMessage.type m) "ConnectionStatus") eqn:Hstatus.
    { apply String.eqb_eq in Hstatus.
      destruct (String.eqb (ServerMessage.status m) "Accepted") eqn:Hacc.
      - apply String.eqb_eq in Hacc.
        eapply Hext; [by apply (read_accepted _ _ _ _ m)| |].
        + intros w' Hc' Hr. by eapply IH.
        + unfold keepsReading, isType. by rewrite Hstatus, Hacc.
      - apply String.eqb_neq in Hacc.
        destruct (read_refused batch acc read reads m w) as (e & He); [done..|].
        congruence. }
    destruct (String.eqb (ServerMessage.type m) "Error") eqn:Herror.
    { apply String.eqb_eq in Herror.
      destruct (read_error batch acc read reads m w) as (e & He & _); [done..|].
      congruence. }
    destruct (read_unrecognized batch acc read reads m w) as (e & He & _);
      [done|done| |congruence].
    unfold recognized. by rewrite Hdata, Heob, Hconfirm, Hstatus, Herror.
Qed.

(** C1. While processing is not cancelled and every read delivers a frame
    (the user may call the worker in the meantime, short of disposing of
    it): the pump returns, at the first [EndOfBatch] that follows frames
    which keep it reading, exactly the [Data] frames received since the most
    recent [Confirm], in arrival order; it returns only at an [EndOfBatch];
    a [Confirm] empties both the buffer and [batch.items]; an [Error] frame
    or a frame of unrecognized type throws. *)
Theorem pump_returns_data_since_last_confirm :
  forall (w : SubscriptionWorker) (batch : SubscriptionBatch),
    _processingCancelled w = false ->
    (forall reads pre lastRead eob later,
        Forall2 delivers reads pre ->
        Forall (fun m => keepsReading m = true) pre ->
        delivers lastRead eob ->
        ServerMessage.type eob = "EndOfBatch" ->
        result (_readSingleSubscriptionBatchFromServer batch
                  (reads ++ lastRead :: later) w)
        = Normal (dataFrames (sinceLastConfirm pre),
                  if existsb (isType "Confirm") pre then {| items := [] |} else batch))
    /\ (forall reads frames x,
           Forall2 delivers reads frames ->
           result (_readSingleSubscriptionBatchFromServer batch reads w) = Normal x ->
           exists pre eob rest,
             frames = pre ++ eob :: rest
             /\ Forall (fun m => keepsReading m = true) pre
             /\ ServerMessage.type eob = "EndOfBatch")
    /\ (forall acc read confirm later,
           delivers read confirm ->
           ServerMessage.type confirm = "Confirm" ->
           continuesAs (readBatchLoop batch acc (read :: later) w)
             (readBatchLoop {| items := [] |} [] later))
    /\ (forall reads pre lastRead bad later,
           Forall2 delivers reads pre ->
           Forall (fun m => keepsReading m = true) pre ->
           delivers lastRead bad ->
           ServerMessage.type bad = "Error" \/ recognized (ServerMessage.type bad) = false ->
           exists e,
             result (_readSingleSubscriptionBatchFromServer batch
                       (reads ++ lastRead :: later) w) = Throw e).
Proof.
  intros w batch Hc. unfold _readSingleSubscriptionBatchFromServer.
  split; [|split; [|split]].
  - intros reads pre lastRead eob later Hreads Hpre Hlast Heob.
    destruct (continuesAs_result _ _
                (readBatchLoop_prefix reads pre Hreads Hpre batch [] (lastRead :: later)
                   w Hc)) as (w' & Hc' & ->).
    erewrite read_end_of_batch by done.
    destruct (existsb (isType "Confirm") pre) eqn:Hex; [done|].
    by rewrite sinceLastConfirm_none.
  - intros reads frames x Hreads. by eapply readBatchLoop_returns_at_end_of_batch.
  - intros acc read confirm later Hd Ht. by apply (read_confirm _ _ _ _ confirm).
  - intros reads pre lastRead bad later Hreads Hpre Hlast Hbad.
    destruct (continuesAs_result _ _
                (readBatchLoop_prefix reads pre Hreads Hpre batch [] (lastRead :: later)
                   w Hc)) as (w' & Hc' & ->).
    destruct Hbad as [Hbad|Hbad].
    + edestruct read_error as (e & He & _); [exact Hc'|exact Hlast|exact Hbad|].
      eauto.
    + edestruct read_unrecognized as (e & He & _); [exact Hc'|exact Hlast|exact Hbad|].
      eauto.
Qed.

(** ** Relations that hold along the worker's methods *)

Ltac run_dispose w :=
  intros w; unfold dispose, _closeTcpClient, bind, this, update, effect, ret,
    state, trace; simpl;
  destruct (_disposed w) eqn:?, (_tcpClient w), (_parser w); simpl.

#[local] Instance keeps_redirectNode_harmless : Harmless (keeps _redirectNode).
Proof. split; [done| |done]. run_dispose w; done. Qed.

#[local] Instance keeps_lastConnectionFailure_harmless :
  Harmless (keeps _lastConnectionFailure).
Proof. split; [done| |done]. run_dispose w; done. Qed.

#[local] Instance silent_harmless : Harmless silent.
Proof.
  split.
  - intros e He w. by repeat constructor.
  - run_dispose w; by repeat constructor.
  - intros g w. constructor.
Qed.

#[local] Instance staysConsistent_harmless : Harmless staysConsistent.
Proof.
  split.
  - intros e He w H. exact H.
  - run_dispose w; unfold staysConsistent, consistent; simpl; auto.
  - intros g w H. exact H.
Qed.

(** Leaves of an analysis with [stepwise]: an interleaving of user calls,
    an effect, or an update of a field the relation does not look at. *)
Ltac stepwise_leaf :=
  first
    [ apply always_interleave; tc_solve
    | apply harmless_effect; done
    | by intros ? ].

Ltac stepwise_auto := stepwise; try stepwise_leaf.

(** ** The redirect node *)

Lemma await_rejected {A} (p : Await A) (w w' : SubscriptionWorker) e t :
  await p w = (Throw e, w', t) -> settled p = Rejected e.
Proof.
  unfold await, bind. destruct (interleave_returns (meanwhile p) w) as (w1 & t1 & ->).
  destruct (settled p); unfold ret, throw, pending; simpl; congruence.
Qed.

Lemma connect_keeps_redirect_unless_contact_fails (s : ConnectScript)
    (w : SubscriptionWorker) :
  _redirectNode (state (_connectToServer s w)) = _redirectNode w
  \/ exists e, settled (tcpInfo s) = Rejected e
               /\ result (_connectToServer s w) = Throw e
               /\ _redirectNode (state (_connectToServer s w)) = None.
Proof.
  destruct (_connectToServer s w) as [[r w'] t] eqn:Hrun.
  unfold state, result; simpl.
  unfold _connectToServer in Hrun.
  match type of Hrun with
  | context [bind (match _ with Some _ => _ | None => _ end) ?k] =>
      assert (forall info, Always (keeps _redirectNode) (k info)) as Hk
        by (intros info; stepwise_auto);
      set (rest := k) in *
  end.
  pose proof (always_await (keeps _redirectNode) (tcpInfo s) w) as Hc.
  unfold keeps, state in Hc.
  unfold bind at 1, this in Hrun. simpl in Hrun.
  destruct (_redirectNode w) as [node|] eqn:Hr; unfold bind at 1, try_catch in Hrun.
  - destruct (await (tcpInfo s) w) as [[[info|e|] w1] t1] eqn:Hawait; simpl in *.
    + left. specialize (Hk info w1). unfold keeps, state in Hk.
      destruct (rest info w1) as [[r2 w2] t2]. simpl in *. congruence.
    + right. exists e. split; [by eapply await_rejected|].
      unfold bind, update, throw in Hrun; simpl in Hrun.
      by injection Hrun as <- <- <-.
    + left. congruence.
  - left. destruct (await (tcpInfo s) w) as [[[info|e|] w1] t1] eqn:Hawait;
      simpl in *; [|congruence..].
    specialize (Hk info w1). unfold keeps, state in Hk.
    destruct (rest info w1) as [[r2 w2] t2]. simpl in *. congruence.
Qed.

(** ** The reconnect policy *)

Lemma assertLastConnectionFailure_run (now : Z) (lastError : Error)
    (w : SubscriptionWorker) :
  if windowExceeded now w then
    exists e, _assertLastConnectionFailure now lastError w = (Throw e, w, [])
              /\ name e = "SubscriptionInvalidStateException"
              /\ inner e = Some lastError
  else
    _assertLastConnectionFailure now lastError w
    = (Normal tt, failureRecorded now w, []).
Proof.
  unfold windowExceeded, failureRecorded, _assertLastConnectionFailure, bind, this,
    update, throwError, throw, ret; simpl.
  destruct (_lastConnectionFailure w) as [t0|]; simpl; [|done].
  destruct (maxErroneousPeriod (_options w) <? now - t0)%Z; simpl; eauto.
Qed.

Lemma fatalName_not_special (n : string) :
  fatalName n = true ->
  n <> "SubscriptionDoesNotBelongToNodeException"
  /\ n <> "SubscriptionChangeVectorUpdateConcurrencyException".
Proof.
  unfold fatalName. rewrite !orb_true_iff, !String.eqb_eq.
  intros H; split; intros ->; repeat destruct H as [H|H]; discriminate.
Qed.

Lemma shouldTryToReconnect_fatal now topologyNodes ex w :
  fatalName (name ex) = true ->
  _shouldTryToReconnect now topologyNodes ex w
  = (Normal false, set_processingCancelled true w, []).
Proof.
  intros Hf. destruct (fatalName_not_special _ Hf) as [H1 H2].
  apply String.eqb_neq in H1. apply String.eqb_neq in H2.
  unfold _shouldTryToReconnect. by rewrite H1, H2, Hf.
Qed.

Lemma shouldTryToReconnect_concurrency now topologyNodes ex w :
  name ex = "SubscriptionChangeVectorUpdateConcurrencyException" ->
  _shouldTryToReconnect now topologyNodes ex w = (Normal true, w, []).
Proof. intros Hn. unfold _shouldTryToReconnect. by rewrite Hn. Qed.

Lemma shouldTryToReconnect_other now topologyNodes ex w :
  name ex <> "SubscriptionDoesNotBelongToNodeException" ->
  name ex <> "SubscriptionChangeVectorUpdateConcurrencyException" ->
  fatalName (name ex) = false ->
  if windowExceeded now w then
    exists e, _shouldTryToReconnect now topologyNodes ex w = (Throw e, w, [])
              /\ name e = "SubscriptionInvalidStateException"
  else
    _shouldTryToReconnect now topologyNodes ex w
    = (Normal true, failureRecorded now w, []).
Proof.
  intros H1 H2 Hf. apply String.eqb_neq in H1. apply String.eqb_neq in H2.
  unfold _shouldTryToReconnect. rewrite H1, H2, Hf. unfold bind.
  pose proof (assertLastConnectionFailure_run now ex w) as H.
  destruct (windowExceeded now w).
  - destruct H as (e & -> & He & _). eauto.
  - by rewrite H.
Qed.

Lemma shouldTryToReconnect_redirect now topologyNodes ex w :
  name ex = "SubscriptionDoesNotBelongToNodeException" ->
  if windowExceeded now w then
    exists e, _shouldTryToReconnect now topologyNodes ex w = (Throw e, w, [])
              /\ name e = "SubscriptionInvalidStateException"
  else
    match appropriateNode ex with
    | None | Some "" =>
        _shouldTryToReconnect now topologyNodes ex w
        = (Normal true, failureRecorded now w, [])
    | Some tag =>
        match find (fun x => String.eqb (clusterTag x) tag) topologyNodes with
        | Some node =>
            _shouldTryToReconnect now topologyNodes ex w
            = (Normal true, set_redirectNode (Some node) (failureRecorded now w), [])
        | None =>
            exists e, _shouldTryToReconnect now topologyNodes ex w
                      = (Throw e, failureRecorded now w, [])
                      /\ name e = "InvalidOperationException"
        end
    end.
Proof.
  intros Hn. unfold _shouldTryToReconnect. rewrite Hn. simpl. unfold bind.
  pose proof (assertLastConnectionFailure_run now ex w) as H.
  destruct (windowExceeded now w).
  - destruct H as (e & -> & He & _). eauto.
  - rewrite H. destruct (appropriateNode ex) as [[|c tag]|]; simpl; [done| |done].
    destruct (find _ topologyNodes); simpl; eauto.
Qed.

(** The classification has no effect of its own, and it reports "do not
    retry" for the fatal kinds only. *)
Lemma shouldTryToReconnect_answers now topologyNodes ex w :
  trace (_shouldTryToReconnect now topologyNodes ex w) = []
  /\ (result (_shouldTryToReconnect now topologyNodes ex w) = Normal false ->
      fatalName (name ex) = true)
  /\ result (_shouldTryToReconnect now topologyNodes ex w) <> Pending.
Proof.
  destruct (String.eqb (name ex) "SubscriptionDoesNotBelongToNodeException") eqn:H1.
  { apply String.eqb_eq in H1.
    pose proof (shouldTryToReconnect_redirect now topologyNodes ex w H1) as H.
    destruct (windowExceeded now w); [by destruct H as (e & -> & _)|].
    destruct (appropriateNode ex) as [[|c tag]|]; try by rewrite H.
    destruct (find _ topologyNodes); [by rewrite H|].
    by destruct H as (e & -> & _). }
  apply String.eqb_neq in H1.
  destruct (String.eqb (name ex) "SubscriptionChangeVectorUpdateConcurrencyException")
    eqn:H2.
  { apply String.eqb_eq in H2. by rewrite shouldTryToReconnect_concurrency. }
  apply String.eqb_neq in H2.
  destruct (fatalName (name ex)) eqn:Hf.
  { by rewrite shouldTryToReconnect_fatal. }
  pose proof (shouldTryToReconnect_other now topologyNodes ex w H1 H2 Hf) as H.
  destruct (windowExceeded now w); [by destruct H as (e & -> & _)|].
  by rewrite H.
Qed.

(** One turn of the reconnect loop whose connection attempt threw [error]
    while processing was not cancelled. *)
Lemma runSubscriptionAsync_failed_iteration (it : Iteration) (later : list Iteration)
    (w w1 : SubscriptionWorker) (error : Error) (t1 : list Effect) :
  _processingCancelled w = false ->
  (_closeTcpClient;;;
   try_finally (_processSubscription (processing it)) (interleave (onResume it));;;
   ret true) w = (Throw error, w1, t1) ->
  _processingCancelled w1 = false ->
  match _shouldTryToReconnect (now it) (topologyNodes it) error w1 with
  | (Normal true, w2, t2) =>
      exists w3 t3,
        interleave (duringDelay it) w2 = (Normal tt, w3, t3)
        /\ _runSubscriptionAsync (it :: later) w
           = (result (_runSubscriptionAsync later w3),
              state (_runSubscriptionAsync later w3),
              t1 ++ t2
              ++ Sleep (timeToWaitBeforeConnectionRetry (_options w1)) :: t3
              ++ Emit "connectionRetry" (ErrorArg error)
                   (listeners (_emitter w3) "connectionRetry")
              :: trace (_runSubscriptionAsync later w3))
  | (Normal false, w2, t2) =>
      _runSubscriptionAsync (it :: later) w = (Throw error, w2, t1 ++ t2)
  | (Throw e, w2, t2) =>
      _runSubscriptionAsync (it :: later) w = (Throw e, w2, t1 ++ t2)
  | (Pending, w2, t2) =>
      _runSubscriptionAsync (it :: later) w = (Pending, w2, t1 ++ t2)
  end.
Proof.
  intros Hc Hbody Hc1.
  remember (_runSubscriptionAsync (it :: later) w) as run eqn:Hrun.
  simpl in Hrun.
  unfold bind at 1, this in Hrun. rewrite Hc in Hrun.
  unfold bind at 1, try_catch in Hrun. rewrite Hbody in Hrun.
  unfold bind at 1 in Hrun. simpl in Hrun. rewrite Hc1 in Hrun.
  unfold bind at 1 in Hrun.
  destruct (_shouldTryToReconnect (now it) (topologyNodes it) error w1)
    as [[[[|]|e|] w2] t2]; simpl in Hrun; unfold throw in Hrun; simpl in Hrun;
    rewrite ?app_nil_r in Hrun; try done.
  destruct (interleave_returns (duringDelay it) w2) as (w3 & t3 & Hi).
  exists w3, t3. split; [done|].
  destruct (emit_delivers "connectionRetry" (ErrorArg error) w3) as (b & He); [done|].
  unfold bind, effect in Hrun; simpl in Hrun. rewrite Hi, He in Hrun; simpl in Hrun.
  destruct (_runSubscriptionAsync later w3) as [[r w4] t4]; simpl in Hrun.
  unfold result, state, trace; simpl. rewrite Hrun.
  rewrite ?app_nil_r, <- ?app_assoc. simpl.
  by rewrite <- ?app_assoc.
Qed.

(** ** The background task *)

Ltac stepwise_update :=
  intros ?;
  unfold silent, staysConsistent, keeps, consistent, update, effect, state, trace;
  simpl; first [done | by constructor | by auto].

Ltac stepwise_all :=
  stepwise;
  try first [ stepwise_leaf | apply always_dispatchLoop; tc_solve | stepwise_update ].

Lemma silent_connectToServer s : Always silent (_connectToServer s).
Proof. unfold _connectToServer. stepwise_all. Qed.

Lemma consistent_connectToServer s : Always staysConsistent (_connectToServer s).
Proof. unfold _connectToServer. stepwise_all. Qed.

Lemma silent_processSubscription s : Always silent (_processSubscription s).
Proof. unfold _processSubscription. stepwise_all. Qed.

Lemma consistent_processSubscription s : Always staysConsistent (_processSubscription s).
Proof. unfold _processSubscription. stepwise_all. Qed.

Lemma silent_shouldTryToReconnect now nodes ex :
  Always silent (_shouldTryToReconnect now nodes ex).
Proof. unfold _shouldTryToReconnect, _assertLastConnectionFailure. stepwise_all. Qed.

Lemma consistent_shouldTryToReconnect now nodes ex :
  Always staysConsistent (_shouldTryToReconnect now nodes ex).
Proof. unfold _shouldTryToReconnect, _assertLastConnectionFailure. stepwise_all. Qed.

Lemma disposed_shouldTryToReconnect now nodes ex :
  Always (keeps _disposed) (_shouldTryToReconnect now nodes ex).
Proof. unfold _shouldTryToReconnect, _assertLastConnectionFailure. stepwise_all. Qed.

Lemma silent_runSubscriptionAsync its : Always silent (_runSubscriptionAsync its).
Proof.
  induction its as [|it its IH]; simpl; stepwise_all;
    auto using silent_processSubscription, silent_shouldTryToReconnect.
Qed.

Lemma consistent_runSubscriptionAsync its :
  Always staysConsistent (_runSubscriptionAsync its).
Proof.
  induction its as [|it its IH]; simpl; stepwise_all;
    auto using consistent_processSubscription, consistent_shouldTryToReconnect.
Qed.

Lemma bind_normal_inv {A B} (m : M A) (k : A -> M B) w b w1 t1 :
  bind m k w = (Normal b, w1, t1) ->
  exists a w0 t0 t, m w = (Normal a, w0, t0) /\ k a w0 = (Normal b, w1, t).
Proof.
  unfold bind. destruct (m w) as [[[a|e|] w0] t0]; [|done..].
  destruct (k a w0) as [[r w2] t2] eqn:Hk. intros [= -> -> <-]. eauto 10.
Qed.

(** Once disposed, [_processSubscription] swallows whatever is thrown. *)
Lemma processSubscription_throws_undisposed s w e w' t :
  _processSubscription s w = (Throw e, w', t) -> _disposed w' = false.
Proof.
  unfold _processSubscription, try_catch.
  match goal with |- context [match ?body w with _ => _ end] => destruct (body w)
    as [[[a|e0|] w1] t1] end; try done.
  unfold bind, this, throw, ret; simpl.
  destruct (_disposed w1) eqn:Hd; simpl; [done|]. by intros [= <- <- <-].
Qed.

(** The other ways a turn of the reconnect loop can go: the connection
    attempt returns, never settles, or throws after a cancellation. *)
Lemma runSubscriptionAsync_other_turns (it : Iteration) (later : list Iteration)
    (w : SubscriptionWorker) :
  _processingCancelled w = false ->
  match (_closeTcpClient;;;
         try_finally (_processSubscription (processing it)) (interleave (onResume it));;;
         ret true) w with
  | (Normal _, w1, t1) =>
      _runSubscriptionAsync (it :: later) w
      = (result (_runSubscriptionAsync later w1),
         state (_runSubscriptionAsync later w1),
         t1 ++ trace (_runSubscriptionAsync later w1))
  | (Pending, w1, t1) => _runSubscriptionAsync (it :: later) w = (Pending, w1, t1)
  | (Throw error, w1, t1) =>
      _processingCancelled w1 = true ->
      _runSubscriptionAsync (it :: later) w
      = if _disposed w1 then (Normal tt, w1, t1) else (Throw error, w1, t1)
  end.
Proof.
  intros Hc.
  remember (_runSubscriptionAsync (it :: later) w) as run eqn:Hrun.
  simpl in Hrun.
  unfold bind at 1, this in Hrun. rewrite Hc in Hrun.
  unfold bind at 1, try_catch in Hrun.
  match goal with |- match ?body with _ => _ end => destruct body
    as [[[b|error|] w1] t1] eqn:Hbody end.
  - assert (b = true) as ->.
    { apply bind_normal_inv in Hbody as (? & ? & ? & ? & _ & Hbody).
      apply bind_normal_inv in Hbody as (? & ? & ? & ? & _ & Hbody).
      unfold ret in Hbody. congruence. }
    by destruct (_runSubscriptionAsync later w1) as [[r w2] t2].
  - intros Hc1. unfold bind at 1 in Hrun. simpl in Hrun. rewrite Hc1 in Hrun.
    destruct (_disposed w1); simpl in Hrun; unfold throw, ret in Hrun; simpl in Hrun;
      by rewrite ?app_nil_r in Hrun.
  - done.
Qed.

Lemma consistent_attempt (it : Iteration) :
  Always staysConsistent
    (_closeTcpClient;;;
     try_finally (_processSubscription (processing it)) (interleave (onResume it));;;
     ret true).
Proof. stepwise_all; auto using consistent_processSubscription. Qed.

(** The reconnect loop never fails on a disposed worker. *)
Lemma runSubscriptionAsync_fails_undisposed (its : list Iteration) :
  forall w e,
    consistent w ->
    result (_runSubscriptionAsync its w) = Throw e ->
    _disposed (state (_runSubscriptionAsync its w)) = false.
Proof.
  induction its as [|it later IH]; intros w e Hcons Hthrow.
  { simpl in Hthrow. unfold bind, this, pending, ret, result in Hthrow.
    simpl in Hthrow. by destruct (_processingCancelled w). }
  destruct (_processingCancelled w) eqn:Hc.
  { simpl in Hthrow. unfold bind at 1, this, result in Hthrow.
    by rewrite Hc in Hthrow. }
  pose proof (runSubscriptionAsync_other_turns it later w Hc) as Hother.
  pose proof (runSubscriptionAsync_failed_iteration it later w) as Hfailed.
  pose proof (consistent_attempt it w Hcons) as Hcons1.
  match type of Hother with match ?body with _ => _ end =>
    destruct body as [[[b|error|] w1] t1] eqn:Hbody end;
    unfold state in Hcons1; simpl in Hcons1.
  - rewrite Hother in *. unfold result, state in *; simpl in *. by eapply IH.
  - destruct (_processingCancelled w1) eqn:Hc1.
    + rewrite (Hother eq_refl) in *.
      destruct (_disposed w1) eqn:Hd1; [done|]. by unfold state.
    + assert (_disposed w1 = false) as Hd1.
      { destruct (_disposed w1) eqn:Hd; [|done]. specialize (Hcons1 Hd). congruence. }
      specialize (Hfailed w1 error t1 Hc eq_refl Hc1).
      pose proof (disposed_shouldTryToReconnect (now it) (topologyNodes it) error w1)
        as Hkeep.
      pose proof (consistent_shouldTryToReconnect (now it) (topologyNodes it) error w1
                    Hcons1) as Hcons2.
      unfold keeps, state in Hkeep, Hcons2.
      destruct (_shouldTryToReconnect (now it) (topologyNodes it) error w1)
        as [[[[|]|e2|] w2] t2]; simpl in *.
      * destruct Hfailed as (w3 & t3 & Hi & Hrun). rewrite Hrun in *.
        unfold result, state in *; simpl in *. eapply IH; [|done].
        pose proof (always_interleave staysConsistent (duringDelay it) w2 Hcons2) as H3.
        by rewrite Hi in H3.
      * rewrite Hfailed. unfold state; simpl. congruence.
      * rewrite Hfailed. unfold state; simpl. congruence.
      * by rewrite Hfailed in Hthrow.
  - by rewrite Hother in Hthrow.
Qed.

(** What the classification of a non-fatal error comes to: "retry", or one
    of the two errors the controller raises itself. *)
Lemma shouldTryToReconnect_nonfatal now topologyNodes ex w :
  fatalName (name ex) = false ->
  (exists w2, _shouldTryToReconnect now topologyNodes ex w = (Normal true, w2, []))
  \/ (exists e w2,
         _shouldTryToReconnect now topologyNodes ex w = (Throw e, w2, [])
         /\ _processingCancelled w2 = _processingCancelled w
         /\ ((name e = "SubscriptionInvalidStateException"
              /\ windowExceeded now w = true
              /\ name ex <> "SubscriptionChangeVectorUpdateConcurrencyException")
             \/ (name e = "InvalidOperationException"
                 /\ name ex = "SubscriptionDoesNotBelongToNodeException"))).
Proof.
  intros Hf.
  destruct (String.eqb (name ex) "SubscriptionDoesNotBelongToNodeException") eqn:H1.
  { apply String.eqb_eq in H1.
    pose proof (shouldTryToReconnect_redirect now topologyNodes ex w H1) as H.
    destruct (windowExceeded now w) eqn:Hw.
    { destruct H as (e & -> & He). right. exists e, w. split; [done|]. split; [done|].
      left. split; [done|]. split; [done|]. by rewrite H1. }
    destruct (appropriateNode ex) as [[|c tag]|]; try (left; by eauto).
    destruct (find _ topologyNodes); [left; by eauto|].
    destruct H as (e & -> & He). right. exists e, (failureRecorded now w).
    split; [done|]. split; [|by right].
    unfold failureRecorded. by destruct (_lastConnectionFailure w). }
  apply String.eqb_neq in H1.
  destruct (String.eqb (name ex) "SubscriptionChangeVectorUpdateConcurrencyException")
    eqn:H2.
  { apply String.eqb_eq in H2. left. rewrite shouldTryToReconnect_concurrency by done.
    eauto. }
  apply String.eqb_neq in H2.
  pose proof (shouldTryToReconnect_other now topologyNodes ex w H1 H2 Hf) as H.
  destruct (windowExceeded now w) eqn:Hw; [|left; by eauto].
  destruct H as (e & -> & He). right. exists e, w. split; [done|]. split; [done|].
  by left.
Qed.

(** C2 (as amended). When a connection attempt throws [error] while
    processing is not cancelled: for the eight fatal kinds the controller
    sets [_processingCancelled] and rethrows [error] without sleeping or
    emitting; for every other kind it sleeps
    [timeToWaitBeforeConnectionRetry], then emits [connectionRetry] with
    [error] and goes on with the next attempt, unless the classification
    itself raises: SubscriptionInvalidStateException once the erroneous
    period is exceeded, or InvalidOperationException for a redirect; that
    error then ends the loop, with no retry. *)
Theorem fatal_errors_stop_other_errors_retry_unless_escalated :
  forall (it : Iteration) (later : list Iteration) (w w1 : SubscriptionWorker)
         (error : Error) (t1 : list Effect),
    _processingCancelled w = false ->
    (_closeTcpClient;;;
     try_finally (_processSubscription (processing it)) (interleave (onResume it));;;
     ret true) w = (Throw error, w1, t1) ->
    _processingCancelled w1 = false ->
    (fatalName (name error) = true ->
     _runSubscriptionAsync (it :: later) w
     = (Throw error, set_processingCancelled true w1, t1))
    /\ (fatalName (name error) = false ->
        (exists w2 w3 t3,
            _shouldTryToReconnect (now it) (topologyNodes it) error w1
            = (Normal true, w2, [])
            /\ interleave (duringDelay it) w2 = (Normal tt, w3, t3)
            /\ _runSubscriptionAsync (it :: later) w
               = (result (_runSubscriptionAsync later w3),
                  state (_runSubscriptionAsync later w3),
                  t1 ++ Sleep (timeToWaitBeforeConnectionRetry (_options w1)) :: t3
                  ++ Emit "connectionRetry" (ErrorArg error)
                       (listeners (_emitter w3) "connectionRetry")
                  :: trace (_runSubscriptionAsync later w3)))
        \/ (exists e w2,
               _runSubscriptionAsync (it :: later) w = (Throw e, w2, t1)
               /\ _processingCancelled w2 = false
               /\ ((name e = "SubscriptionInvalidStateException"
                    /\ windowExceeded (now it) w1 = true
                    /\ name error <> "SubscriptionChangeVectorUpdateConcurrencyException")
                   \/ (name e = "InvalidOperationException"
                       /\ name error = "SubscriptionDoesNotBelongToNodeException")))).
Proof.
  intros it later w w1 error t1 Hc Hbody Hc1.
  pose proof (runSubscriptionAsync_failed_iteration it later w w1 error t1 Hc Hbody Hc1)
    as Hturn.
  split; intros Hf.
  - rewrite shouldTryToReconnect_fatal in Hturn by done.
    by rewrite app_nil_r in Hturn.
  - destruct (shouldTryToReconnect_nonfatal (now it) (topologyNodes it) error w1 Hf)
      as [(w2 & Hcls)|(e & w2 & Hcls & Hcancel & Hwhy)]; rewrite Hcls in Hturn.
    + left. destruct Hturn as (w3 & t3 & Hi & Hrun). exists w2, w3, t3.
      split; [done|]. split; [done|]. by rewrite Hrun.
    + right. exists e, w2. rewrite app_nil_r in Hturn.
      split; [done|]. split; [congruence|done].
Qed.

(** ** The erroneous-window guard *)

Lemma bind_run {A B} (m : M A) (k : A -> M B) w a w1 t1 :
  m w = (Normal a, w1, t1) ->
  bind m k w = (result (k a w1), state (k a w1), t1 ++ trace (k a w1)).
Proof. unfold bind. intros ->. by destruct (k a w1) as [[r w2] t2]. Qed.

(** The first [ConnectionStatus: Accepted] of a connection clears the
    recorded failure, and nothing later in that connection sets it again. *)
Lemma processSubscription_clears_failure (s : ProcessScript) (w w1 : SubscriptionWorker)
    (socket : option nat) (t1 : list Effect) (m : ServerMessage) :
  _processingCancelled w = false ->
  _connectToServer (connecting s) w = (Normal socket, w1, t1) ->
  _processingCancelled w1 = false ->
  connectionStatus s = deliver m ->
  ServerMessage.type m = "ConnectionStatus" ->
  ServerMessage.status m = "Accepted" ->
  _lastConnectionFailure (state (_processSubscription s w)) = None.
Proof.
  intros Hc Hconn Hc1 Hstatus Htype Haccepted.
  unfold _processSubscription.
  match goal with |- context [try_catch ?body ?handler] =>
    assert (_lastConnectionFailure (state (body w)) = None) as Hbody;
    [|assert (forall e, Always (keeps _lastConnectionFailure) (handler e)) as Hh
        by (intros e; stepwise_all);
      unfold try_catch; destruct (body w) as [[[[]|e|] w2] t2]; try done;
      specialize (Hh e w2); unfold keeps, state in *; simpl in *;
      destruct (handler e w2) as [[r3 w3] t3]; simpl in *; congruence]
  end.
  unfold bind at 1, this. simpl. rewrite Hc.
  erewrite bind_run by reflexivity. unfold state at 1; simpl.
  erewrite bind_run by exact Hconn. unfold state at 1; simpl.
  match goal with |- context [try_finally ?inner ?cleanup] =>
    assert (_lastConnectionFailure (state (inner w1)) = None) as Hinner;
    [|assert (Always (keeps _lastConnectionFailure) cleanup) as Hcl
        by stepwise_all;
      unfold try_finally; destruct (inner w1) as [[[[]|e|] w2] t2]; try done;
      specialize (Hcl w2); unfold keeps, state in *; simpl in *;
      destruct (cleanup w2) as [[[[]|e3|] w3] t3]; simpl in *; congruence]
  end.
  unfold bind at 1, this. simpl. rewrite Hc1.
  erewrite bind_run by reflexivity. unfold state at 1; simpl.
  rewrite Hstatus.
  erewrite bind_run by reflexivity. unfold state at 1; simpl.
  unfold bind at 1, this. simpl. rewrite Hc1, Htype, Haccepted. simpl.
  erewrite bind_run by reflexivity. unfold state at 1; simpl.
  erewrite bind_run by reflexivity. unfold state at 1; simpl.
  unfold bind at 1, this. simpl. rewrite Hc1.
  pose proof (always_dispatchLoop (keeps _lastConnectionFailure) (rounds s)
                (set_lastConnectionFailure None w1)) as Hp.
  unfold keeps in Hp. unfold state in *.
  destruct (dispatchLoop (rounds s) (set_lastConnectionFailure None w1)) as [[r w2] t2].
  simpl in *. congruence.
Qed.

(** C3 (as amended). When the controller classifies an error that is
    neither fatal nor a SubscriptionChangeVectorUpdateConcurrencyException:
    an unset [_lastConnectionFailure] is set to the current time; a set one
    is left alone, and once the time elapsed since it exceeds
    [maxErroneousPeriod] the controller raises
    SubscriptionInvalidStateException, which ends the reconnect loop.  The
    field is cleared when the first message of a connection is
    [ConnectionStatus: Accepted]. *)
Theorem erroneous_window_is_guarded :
  (forall (now : Z) (topologyNodes : list ServerNode) (ex : Error)
          (w : SubscriptionWorker),
      fatalName (name ex) = false ->
      name ex <> "SubscriptionChangeVectorUpdateConcurrencyException" ->
      match _lastConnectionFailure w with
      | None =>
          _lastConnectionFailure (state (_shouldTryToReconnect now topologyNodes ex w))
          = Some now
      | Some since =>
          if (maxErroneousPeriod (_options w) <? now - since)%Z then
            exists e,
              _shouldTryToReconnect now topologyNodes ex w = (Throw e, w, [])
              /\ name e = "SubscriptionInvalidStateException"
          else
            _lastConnectionFailure (state (_shouldTryToReconnect now topologyNodes ex w))
            = Some since
      end)
  /\ (forall (it : Iteration) (later : list Iteration) (w w1 : SubscriptionWorker)
             (error : Error) (t1 : list Effect),
         _processingCancelled w = false ->
         (_closeTcpClient;;;
          try_finally (_processSubscription (processing it)) (interleave (onResume it));;;
          ret true) w = (Throw error, w1, t1) ->
         _processingCancelled w1 = false ->
         fatalName (name error) = false ->
         name error <> "SubscriptionChangeVectorUpdateConcurrencyException" ->
         windowExceeded (now it) w1 = true ->
         exists e, _runSubscriptionAsync (it :: later) w = (Throw e, w1, t1)
                   /\ name e = "SubscriptionInvalidStateException")
  /\ (forall (s : ProcessScript) (w w1 : SubscriptionWorker) (socket : option nat)
             (t1 : list Effect) (m : ServerMessage),
         _processingCancelled w = false ->
         _connectToServer (connecting s) w = (Normal socket, w1, t1) ->
         _processingCancelled w1 = false ->
         connectionStatus s = deliver m ->
         ServerMessage.type m = "ConnectionStatus" ->
         ServerMessage.status m = "Accepted" ->
         _lastConnectionFailure (state (_processSubscription s w)) = None).
Proof.
  split; [|split].
  - intros now nodes ex w Hf Hnc.
    assert (forall w', _lastConnectionFailure (failureRecorded now w')
                       = match _lastConnectionFailure w' with
                         | Some since => Some since
                         | None => Some now
                         end) as Hrec.
    { intros w'. unfold failureRecorded.
      by destruct (_lastConnectionFailure w') eqn:E. }
    destruct (String.eqb (name ex) "SubscriptionDoesNotBelongToNodeException") eqn:H1.
    + apply String.eqb_eq in H1.
      pose proof (shouldTryToReconnect_redirect now nodes ex w H1) as H.
      unfold windowExceeded in H. specialize (Hrec w).
      destruct (_lastConnectionFailure w) as [since|] eqn:Hl.
      * destruct (maxErroneousPeriod (_options w) <? now - since)%Z; [done|].
        destruct (appropriateNode ex) as [[|c tag]|]; try by rewrite H.
        destruct (find _ nodes); [by rewrite H|]. by destruct H as (e & -> & _).
      * destruct (appropriateNode ex) as [[|c tag]|]; try by rewrite H.
        destruct (find _ nodes); [by rewrite H|]. by destruct H as (e & -> & _).
    + apply String.eqb_neq in H1.
      pose proof (shouldTryToReconnect_other now nodes ex w H1 Hnc Hf) as H.
      unfold windowExceeded in H. specialize (Hrec w).
      destruct (_lastConnectionFailure w) as [since|] eqn:Hl.
      * destruct (maxErroneousPeriod (_options w) <? now - since)%Z; [done|].
        by rewrite H.
      * by rewrite H.
  - intros it later w w1 error t1 Hc Hbody Hc1 Hf Hnc Hexceeded.
    pose proof (runSubscriptionAsync_failed_iteration it later w w1 error t1 Hc Hbody Hc1)
      as Hturn.
    destruct (String.eqb (name error) "SubscriptionDoesNotBelongToNodeException") eqn:H1.
    + apply String.eqb_eq in H1.
      pose proof (shouldTryToReconnect_redirect (now it) (topologyNodes it) error w1 H1)
        as H.
      rewrite Hexceeded in H. destruct H as (e & H & He). rewrite H in Hturn.
      exists e. by rewrite app_nil_r in Hturn.
    + apply String.eqb_neq in H1.
      pose proof (shouldTryToReconnect_other (now it) (topologyNodes it) error w1
                    H1 Hnc Hf) as H.
      rewrite Hexceeded in H. destruct H as (e & H & He). rewrite H in Hturn.
      exists e. by rewrite app_nil_r in Hturn.
  - apply processSubscription_clears_failure.
Qed.

(** ** The events of the background task *)

Lemma emit_error_delivers (arg : EmitArg) (w : SubscriptionWorker) :
  listeners (_emitter w) "error" <> [] ->
  emit "error" arg w = (Normal true, w, [Emit "error" arg (listeners (_emitter w) "error")]).
Proof.
  intros Hl. unfold emit, bind, this, effect, ret; simpl.
  by destruct (listeners (_emitter w) "error").
Qed.

Lemma emit_end (w : SubscriptionWorker) :
  exists b, emit "end" NoArg w
            = (Normal b, w, [Emit "end" NoArg (listeners (_emitter w) "end")]).
Proof. by apply emit_delivers. Qed.

(** C4 (as amended). Of the reconnect loop and the task that [on] builds
    around it, started on a worker whose flags are consistent: the loop,
    retries included, emits neither ['error'] nor ['end']; when it returns,
    the task emits ['end'] and nothing else; when it fails, the worker is
    not disposed and, provided a listener is registered for ['error'], the
    task emits ['error'] with the error the loop failed with and then
    ['end']; while the loop runs, neither event is emitted.  Apart from the
    task, the completion callback of the stream pipeline emits ['error'] for
    whatever error the pipeline reports while the socket is not destroyed. *)
Theorem task_emits_error_only_for_the_failure_then_end :
  (forall (its : list Iteration) (w : SubscriptionWorker),
      consistent w ->
      let run := _runSubscriptionAsync its w in
      let task := subscriptionTask its w in
      Forall (fun e => taskEvent e = false) (trace run)
      /\ match result run with
         | Normal _ =>
             result task = Normal tt
             /\ trace task
                = trace run ++ [Emit "end" NoArg (listeners (_emitter (state run)) "end")]
         | Throw e =>
             _disposed (state run) = false
             /\ (listeners (_emitter (state run)) "error" <> [] ->
                 result task = Normal tt
                 /\ trace task
                    = trace run
                      ++ [Emit "error" (ErrorArg e)
                            (listeners (_emitter (state run)) "error");
                          Emit "end" NoArg (listeners (_emitter (state run)) "end")])
         | Pending => result task = Pending /\ trace task = trace run
         end)
  /\ (forall (err : option Error) (tcpClientDestroyed : bool) (w : SubscriptionWorker),
         trace (pipelineCallback err tcpClientDestroyed w)
         = match err, tcpClientDestroyed, listeners (_emitter w) "error" with
           | Some e, false, h :: hs => [Emit "error" (ErrorArg e) (h :: hs)]
           | _, _, _ => []
           end).
Proof.
  split.
  - intros its w Hcons run task.
    split; [apply silent_runSubscriptionAsync|].
    pose proof (runSubscriptionAsync_fails_undisposed its w) as Hfail.
    subst task. unfold subscriptionTask, bind, try_catch. fold run in Hfail |- *.
    destruct run as [[[[]|e|] w1] t1]; unfold result, state, trace in *; simpl in *.
    + destruct (emit_end w1) as (b & ->). by simpl.
    + split; [by eapply Hfail|]. intros Hl.
      rewrite emit_error_delivers by done. simpl.
      destruct (emit_end w1) as (b & ->). simpl.
      by rewrite <- app_assoc.
    + done.
  - intros [e|] [|] w; try done.
    unfold pipelineCallback, emit, bind, this, effect, throw, ret, trace; simpl.
    by destruct (listeners (_emitter w) "error").
Qed.

(** ** The current node tag *)

Lemma await_rejects {A} (p : Await A) (w : SubscriptionWorker) (e : Error) :
  settled p = Rejected e ->
  exists w' t, await p w = (Throw e, w', t) /\ _redirectNode w' = _redirectNode w.
Proof.
  intros Hp.
  pose proof (always_interleave (keeps _redirectNode) (meanwhile p) w) as Hk.
  unfold keeps, state in Hk.
  unfold await, bind. destruct (interleave_returns (meanwhile p) w) as (w1 & t1 & Hi).
  rewrite Hi in Hk |- *. rewrite Hp. unfold throw. simpl. eauto.
Qed.

(** The failed request to the redirect node clears it. *)
Lemma failed_request_clears_redirect (s : ConnectScript) (w : SubscriptionWorker)
    (node : ServerNode) (e : Error) :
  _redirectNode w = Some node ->
  settled (tcpInfo s) = Rejected e ->
  result (_connectToServer s w) = Throw e
  /\ _redirectNode (state (_connectToServer s w)) = None.
Proof.
  intros Hr Hs. destruct (await_rejects (tcpInfo s) w e Hs) as (w1 & t1 & Ha & _).
  destruct (_connectToServer s w) as [[r w'] t] eqn:Hrun.
  unfold _connectToServer in Hrun. unfold bind at 1, this in Hrun. simpl in Hrun.
  rewrite Hr in Hrun. unfold bind at 1, try_catch in Hrun. rewrite Ha in Hrun.
  unfold bind, update, throw in Hrun. simpl in Hrun.
  by injection Hrun as <- <- <-.
Qed.

Lemma redirect_connectToServer (s : ConnectScript) (w : SubscriptionWorker) :
  _redirectNode (state (_connectToServer s w))
  = if redirectNodeFails s w then None else _redirectNode w.
Proof.
  unfold redirectNodeFails.
  destruct (connect_keeps_redirect_unless_contact_fails s w)
    as [H|(e & Hs & _ & H)]; rewrite H.
  - destruct (_redirectNode w) as [node|] eqn:Hr; [|done].
    destruct (settled (tcpInfo s)) as [| e |] eqn:Hs; try done.
    destruct (failed_request_clears_redirect s w node e Hr Hs) as [_ Hnone].
    congruence.
  - rewrite Hs. by destruct (_redirectNode w).
Qed.

(** Whatever follows the handshake in a connection leaves the redirect
    node alone: the first message, the dispatch loop, the clean-up. *)
Lemma redirect_processSubscription (s : ProcessScript) (w : SubscriptionWorker) :
  _redirectNode (state (_processSubscription s w))
  = if negb (_processingCancelled w) && redirectNodeFails (connecting s) w
    then None else _redirectNode w.
Proof.
  destruct (_processSubscription s w) as [[r w'] t] eqn:Hrun.
  unfold state; simpl.
  unfold _processSubscription, try_catch in Hrun.
  unfold bind at 1, this in Hrun. simpl in Hrun.
  destruct (_processingCancelled w) eqn:Hc; simpl.
  { unfold bind, throwError, throw, this, ret in Hrun. simpl in Hrun.
    destruct (_disposed w); simpl in Hrun; by injection Hrun as <- <- <-. }
  rewrite <- redirect_connectToServer.
  unfold bind at 1, ret in Hrun. simpl in Hrun.
  match type of Hrun with context [bind (_connectToServer (connecting s)) ?k w] =>
    assert (forall socket, Always (keeps _redirectNode) (k socket)) as Hk
      by (intros socket; stepwise_all);
    set (rest := k) in *
  end.
  unfold bind at 1 in Hrun. unfold state.
  destruct (_connectToServer (connecting s) w) as [[[socket|e|] w1] t1]; simpl in *.
  - specialize (Hk socket w1). unfold keeps, state in Hk.
    destruct (rest socket w1) as [[[|e|] w2] t2]; simpl in *;
      unfold bind, this, throw, ret in Hrun; simpl in Hrun.
    + injection Hrun as <- <- <-. done.
    + destruct (_disposed w2); simpl in Hrun; by injection Hrun as <- <- <-.
    + by injection Hrun as <- <- <-.
  - unfold bind, this, throw, ret in Hrun; simpl in Hrun.
    destruct (_disposed w1); simpl in Hrun; by injection Hrun as <- <- <-.
  - by injection Hrun as <- <- <-.
Qed.

Lemma redirect_shouldTryToReconnect now topologyNodes ex w :
  _redirectNode (state (_shouldTryToReconnect now topologyNodes ex w))
  = match redirectTarget now topologyNodes ex w with
    | Some node => Some node
    | None => _redirectNode w
    end.
Proof.
  unfold redirectTarget.
  destruct (String.eqb (name ex) "SubscriptionDoesNotBelongToNodeException") eqn:H1.
  { apply String.eqb_eq in H1.
    pose proof (shouldTryToReconnect_redirect now topologyNodes ex w H1) as H.
    destruct (windowExceeded now w) eqn:Hw; simpl.
    { by destruct H as (e & -> & _). }
    assert (_redirectNode (failureRecorded now w) = _redirectNode w) as Hf
      by (unfold failureRecorded; by destruct (_lastConnectionFailure w)).
    destruct (appropriateNode ex) as [[|c tag]|]; try (by rewrite H).
    destruct (find _ topologyNodes) as [node|]; [by rewrite H|].
    by destruct H as (e & -> & _). }
  simpl.
  apply String.eqb_neq in H1.
  destruct (String.eqb (name ex) "SubscriptionChangeVectorUpdateConcurrencyException")
    eqn:H2.
  { apply String.eqb_eq in H2. by rewrite shouldTryToReconnect_concurrency. }
  apply String.eqb_neq in H2.
  destruct (fatalName (name ex)) eqn:Hf.
  { by rewrite shouldTryToReconnect_fatal. }
  pose proof (shouldTryToReconnect_other now topologyNodes ex w H1 H2 Hf) as H.
  destruct (windowExceeded now w).
  - by destruct H as (e & -> & _).
  - rewrite H. unfold failureRecorded, state; simpl.
    by destruct (_lastConnectionFailure w).
Qed.

(** One turn of the reconnect loop: the connection attempt changes the
    redirect node as [_processSubscription] does, the classification of
    its error as [_shouldTryToReconnect] does, and nothing else in the turn
    changes it. *)
Lemma redirect_turn (it : Iteration) (later : list Iteration) (w : SubscriptionWorker) :
  _processingCancelled w = false ->
  let attempt :=
    (_closeTcpClient;;;
     try_finally (_processSubscription (processing it)) (interleave (onResume it));;;
     ret true) w in
  let run := _runSubscriptionAsync (it :: later) w in
  _redirectNode (state attempt)
  = _redirectNode (state (_processSubscription (processing it) w))
  /\ exists w',
       (state run = w' \/ state run = state (_runSubscriptionAsync later w'))
       /\ _redirectNode w'
          = match result attempt with
            | Throw error =>
                if _processingCancelled (state attempt) then _redirectNode (state attempt)
                else _redirectNode
                       (state (_shouldTryToReconnect (now it) (topologyNodes it) error
                                 (state attempt)))
            | _ => _redirectNode (state attempt)
            end.
Proof.
  intros Hc attempt run. split.
  { subst attempt. unfold bind at 1.
    assert (exists t0, _closeTcpClient w = (Normal tt, w, t0)) as (t0 & ->).
    { unfold _closeTcpClient, bind, this, effect, ret. simpl.
      destruct (_tcpClient w); simpl; eauto. }
    unfold bind at 1, try_finally.
    destruct (_processSubscription (processing it) w) as [[[[]|e|] w1] t1]; simpl;
      try done;
      pose proof (always_interleave (keeps _redirectNode) (onResume it) w1) as Hk;
      unfold keeps, state in Hk;
      destruct (interleave_returns (onResume it) w1) as (w2 & t2 & Hi);
      rewrite Hi in Hk |- *; by simpl. }
  pose proof (runSubscriptionAsync_other_turns it later w Hc) as Hother.
  pose proof (runSubscriptionAsync_failed_iteration it later w) as Hfailed.
  fold attempt in Hother.
  assert (run = _runSubscriptionAsync (it :: later) w) as Hrun by done.
  clearbody run. rewrite <- Hrun in Hother.
  destruct attempt as [[[b|error|] w1] t1] eqn:Hattempt; unfold result, state; simpl.
  - exists w1. rewrite Hother. by split; [right|].
  - destruct (_processingCancelled w1) eqn:Hc1.
    + exists w1. rewrite (Hother eq_refl). split; [|done]. left. by destruct (_disposed w1).
    + specialize (Hfailed w1 error t1 Hc Hattempt Hc1). rewrite <- Hrun in Hfailed.
      destruct (_shouldTryToReconnect (now it) (topologyNodes it) error w1)
        as [[[[|]|e2|] w2] t2]; simpl in *.
      * destruct Hfailed as (w3 & t3 & Hi & ->). exists w3. split; [by right|].
        pose proof (always_interleave (keeps _redirectNode) (duringDelay it) w2) as Hk.
        unfold keeps, state in Hk. by rewrite Hi in Hk.
      * exists w2. rewrite Hfailed. by split; [left|].
      * exists w2. rewrite Hfailed. by split; [left|].
      * exists w2. rewrite Hfailed. by split; [left|].
  - exists w1. rewrite Hother. by split; [left|].
Qed.

#[local] Instance keeps_currentNodeTag_harmless : Harmless (keeps currentNodeTag).
Proof. split; [done| |done]. run_dispose w; done. Qed.

Lemma currentNodeTag_readBatchLoop (reads : list (Await (option ServerMessage))) :
  forall batch incomingBatch,
    Always (keeps currentNodeTag) (readBatchLoop batch incomingBatch reads).
Proof.
  induction reads as [|read later IH]; intros batch incomingBatch; simpl.
  - stepwise_all.
  - stepwise_all; try apply IH; try (apply always_await; tc_solve);
      try (apply always_emit; [tc_solve|tc_solve|done|done]);
      try (apply always_assertConnectionState; tc_solve).
Qed.

Lemma currentNodeTag_waitForStream {V} (events : list (StreamEvent V)) :
  forall stream, Always (keeps currentNodeTag) (waitForStream stream events).
Proof.
  induction events as [|ev later IH]; intros stream; simpl; [stepwise_all|].
  destruct ev as [arrived|err| |call].
  - unfold readOrWait. stepwise; apply IH.
  - stepwise.
  - stepwise.
  - stepwise; [apply always_userCall; tc_solve|apply IH].
Qed.

Lemma currentNodeTag_notifiedSubscriber batch invocations whileProcessing
    lastReceivedChangeVector tcpClientCopy writable written :
  Always (keeps currentNodeTag)
    (notifiedSubscriber batch invocations whileProcessing lastReceivedChangeVector
       tcpClientCopy writable written).
Proof.
  unfold notifiedSubscriber, _emitBatchAndWaitForProcessing, _sendAck.
  stepwise_all; try (apply always_await; tc_solve);
    try (apply always_emit; [tc_solve|tc_solve|done|done]).
Qed.

(** C6 (as amended). [currentNodeTag] is the cluster tag of the redirect
    node and is null while there is none.  It is null on a new worker.
    [_connectToServer] clears it when the worker has a redirect node and
    the request to that node fails, the call then throwing the error of
    the request, and leaves it as it was otherwise, in particular when the
    handshake completes.  A whole connection, [_processSubscription],
    changes it as its [_connectToServer] does: the first message of the
    server, accepted or not, the dispatch loop and the clean-up leave it.
    The classification of an error sets it to the tag the server named
    when the error is a SubscriptionDoesNotBelongToNodeException, the
    erroneous period is not over and the local topology has a node of that
    tag, and leaves it otherwise.  The calls of the user, a read of the
    stream, the batch pump and the notification of the subscriber leave
    it.  And in a turn of the reconnect loop it changes in the connection
    attempt and in the classification of the attempt's error only: the
    loop ends in, or goes on from, a worker whose tag is the one these two
    left. *)
Theorem currentNodeTag_is_the_redirect_target :
  (forall w, currentNodeTag w = option_map clusterTag (_redirectNode w))
  /\ (forall options dbName w,
         constructor options dbName = inr w -> currentNodeTag w = None)
  /\ (forall (s : ConnectScript) (w : SubscriptionWorker) (socket : option nat),
         result (_connectToServer s w) = Normal socket ->
         currentNodeTag (state (_connectToServer s w)) = currentNodeTag w)
  /\ (forall (s : ConnectScript) (w : SubscriptionWorker),
         currentNodeTag (state (_connectToServer s w))
         = if redirectNodeFails s w then None else currentNodeTag w)
  /\ (forall (s : ConnectScript) (w : SubscriptionWorker) (node : ServerNode)
             (e : Error),
         _redirectNode w = Some node ->
         settled (tcpInfo s) = Rejected e ->
         result (_connectToServer s w) = Throw e
         /\ currentNodeTag (state (_connectToServer s w)) = None)
  /\ (forall (s : ProcessScript) (w : SubscriptionWorker),
         currentNodeTag (state (_processSubscription s w))
         = if negb (_processingCancelled w) && redirectNodeFails (connecting s) w
           then None else currentNodeTag w)
  /\ (forall (now : Z) (topologyNodes : list ServerNode) (ex : Error)
             (w : SubscriptionWorker) (tag : string) (node : ServerNode),
         name ex = "SubscriptionDoesNotBelongToNodeException" ->
         windowExceeded now w = false ->
         appropriateNode ex = Some tag ->
         tag <> "" ->
         find (fun x => String.eqb (clusterTag x) tag) topologyNodes = Some node ->
         result (_shouldTryToReconnect now topologyNodes ex w) = Normal true
         /\ currentNodeTag (state (_shouldTryToReconnect now topologyNodes ex w))
            = Some tag)
  /\ (forall (now : Z) (topologyNodes : list ServerNode) (ex : Error)
             (w : SubscriptionWorker),
         currentNodeTag (state (_shouldTryToReconnect now topologyNodes ex w))
         = match redirectTarget now topologyNodes ex w with
           | Some node => Some (clusterTag node)
           | None => currentNodeTag w
           end)
  /\ (forall (c : UserCall), Always (keeps currentNodeTag) (userCall c))
  /\ (forall (stream : ParserStream ServerMessage)
             (events : list (StreamEvent ServerMessage)),
         Always (keeps currentNodeTag) (_readNextObject stream events))
  /\ (forall (batch : SubscriptionBatch) (reads : list (Await (option ServerMessage))),
         Always (keeps currentNodeTag)
           (_readSingleSubscriptionBatchFromServer batch reads))
  /\ (forall batch invocations whileProcessing lastReceivedChangeVector tcpClientCopy
             writable written,
         Always (keeps currentNodeTag)
           (notifiedSubscriber batch invocations whileProcessing
              lastReceivedChangeVector tcpClientCopy writable written))
  /\ (forall (it : Iteration) (later : list Iteration) (w : SubscriptionWorker),
         _processingCancelled w = false ->
         let attempt :=
           (_closeTcpClient;;;
            try_finally (_processSubscription (processing it))
              (interleave (onResume it));;;
            ret true) w in
         let run := _runSubscriptionAsync (it :: later) w in
         currentNodeTag (state attempt)
         = (if redirectNodeFails (connecting (processing it)) w then None
            else currentNodeTag w)
         /\ exists w',
              (state run = w' \/ state run = state (_runSubscriptionAsync later w'))
              /\ currentNodeTag w'
                 = match result attempt with
                   | Throw error =>
                       if _processingCancelled (state attempt)
                       then currentNodeTag (state attempt)
                       else currentNodeTag
                              (state (_shouldTryToReconnect (now it) (topologyNodes it)
                                        error (state attempt)))
                   | _ => currentNodeTag (state attempt)
                   end).
Proof.
  assert (forall (s : ConnectScript) (w : SubscriptionWorker),
             currentNodeTag (state (_connectToServer s w))
             = if redirectNodeFails s w then None else currentNodeTag w) as Hconnect.
  { intros s w. unfold currentNodeTag. rewrite redirect_connectToServer.
    by destruct (redirectNodeFails s w). }
  assert (forall (s : ProcessScript) (w : SubscriptionWorker),
             currentNodeTag (state (_processSubscription s w))
             = if negb (_processingCancelled w) && redirectNodeFails (connecting s) w
               then None else currentNodeTag w) as Hprocess.
  { intros s w. unfold currentNodeTag. rewrite redirect_processSubscription.
    by destruct (negb (_processingCancelled w) && redirectNodeFails (connecting s) w). }
  split; [|split; [|split; [|split; [|split; [|split; [|split; [|split; [|split;
    [|split; [|split; [|split]]]]]]]]]]].
  - intros w. unfold currentNodeTag. by destruct (_redirectNode w).
  - intros options dbName w. unfold constructor.
    destruct (String.eqb (subscriptionName options) ""); [done|].
    by intros [= <-].
  - intros s w socket Hr.
    destruct (connect_keeps_redirect_unless_contact_fails s w)
      as [H|(e & _ & He & _)]; [|congruence].
    unfold currentNodeTag. by rewrite H.
  - exact Hconnect.
  - intros s w node e Hr Hs.
    destruct (failed_request_clears_redirect s w node e Hr Hs) as [H1 H2].
    split; [done|]. unfold currentNodeTag. by rewrite H2.
  - exact Hprocess.
  - intros now nodes ex w tag node Hn Hw Ha Htag Hfind.
    pose proof (shouldTryToReconnect_redirect now nodes ex w Hn) as H.
    rewrite Hw, Ha in H. destruct tag as [|c tag]; [done|]. rewrite Hfind in H.
    rewrite H. split; [done|].
    apply find_some in Hfind as [_ Heq]. apply String.eqb_eq in Heq.
    unfold currentNodeTag, state; simpl. by rewrite Heq.
  - intros now nodes ex w. unfold currentNodeTag.
    rewrite redirect_shouldTryToReconnect.
    by destruct (redirectTarget now nodes ex w).
  - intros c. apply always_userCall; tc_solve.
  - intros stream events. unfold _readNextObject, readOrWait.
    stepwise; apply currentNodeTag_waitForStream.
  - intros batch reads. apply currentNodeTag_readBatchLoop.
  - intros. apply currentNodeTag_notifiedSubscriber.
  - intros it later w Hc attempt run.
    destruct (redirect_turn it later w Hc) as [Hattempt (w' & Hrun & Hw')].
    fold attempt in Hattempt, Hw'. fold run in Hrun.
    assert (currentNodeTag (state attempt)
            = currentNodeTag (state (_processSubscription (processing it) w))) as Htag
      by (unfold currentNodeTag; by rewrite Hattempt).
    split; [by rewrite Htag, Hprocess, Hc|].
    exists w'. split; [done|]. unfold currentNodeTag at 1. rewrite Hw'.
    destruct (result attempt); try done.
    by destruct (_processingCancelled (state attempt)).
Qed.

(** ** Reads and disposal *)

(** C8 (as amended). A read that starts when the worker is cancelled or
    disposed returns null without looking at the stream, whatever the
    stream does.  A read that is waiting when [dispose] is called returns
    null if the stream then fires ['readable'].  An ['end'] that reaches a
    waiting read rejects it with the SubscriptionException, whether or not
    the worker has been disposed in the meantime. *)
Theorem read_is_null_once_disposed_but_end_rejects_a_waiting_read :
  forall (V : Type) (w : SubscriptionWorker) (stream : ParserStream V),
    (forall events,
        _processingCancelled w = true \/ _disposed w = true ->
        _readNextObject stream events w = (Normal (None, stream), w, []))
    /\ (forall arrived later,
           _processingCancelled w = false ->
           _disposed w = false ->
           readable stream = false \/ buffered stream = [] ->
           result (_readNextObject stream
                     (User CallDispose :: Readable arrived :: later) w)
           = Normal (None, {| readable := readable stream;
                              buffered := buffered stream ++ arrived |}))
    /\ (forall later,
           _processingCancelled w = false ->
           _disposed w = false ->
           readable stream = false \/ buffered stream = [] ->
           _readNextObject stream (StreamEnd :: later) w
           = (Throw (getError "SubscriptionException"
                       "Subscription stream has ended unexpectedly." None), w, []))
    /\ (forall later,
           waitForStream stream (StreamEnd :: later) w
           = (Throw (getError "SubscriptionException"
                       "Subscription stream has ended unexpectedly." None), w, [])).
Proof.
  intros V w stream.
  assert (forall wait,
             _processingCancelled w = false -> _disposed w = false ->
             readable stream = false \/ buffered stream = [] ->
             readOrWait stream wait w = wait stream w) as Hwait.
  { intros wait Hc Hd Hempty. unfold readOrWait, bind, this; simpl.
    rewrite Hc, Hd.
    assert ((if readable stream then buffered stream else []) = []) as ->
      by (destruct Hempty as [->| ->]; [done|by destruct (readable stream)]).
    by destruct (wait stream w) as [[r w'] t]. }
  split; [|split; [|split]].
  - intros events Hd. unfold _readNextObject, readOrWait, bind, this, ret; simpl.
    destruct (_processingCancelled w); [done|].
    by destruct Hd as [Hd|Hd]; [|rewrite Hd].
  - intros arrived later Hc Hd Hempty.
    unfold _readNextObject. rewrite Hwait by done.
    simpl. unfold bind at 1.
    destruct (dispose_returns w) as (w' & t & Hdispose). rewrite Hdispose.
    assert (_processingCancelled w' = true) as Hc'.
    { revert Hdispose. unfold dispose, _closeTcpClient, bind, this, update, effect, ret.
      simpl. rewrite Hd.
      destruct (_tcpClient w), (_parser w); simpl; by intros [= <- _]. }
    unfold readOrWait, bind, this, ret, result; simpl. by rewrite Hc'.
  - intros later Hc Hd Hempty. unfold _readNextObject. by rewrite Hwait.
  - done.
Qed.

(** * Further properties of the worker *)

(** ** What the user's calls can do *)

Lemma interleave_only_ends (calls : list UserCall) (w : SubscriptionWorker) :
  Forall (fun e => isEnd e = true) (trace (interleave calls w)).
Proof.
  revert w. induction calls as [|c calls IH]; intros w; simpl; [constructor|].
  unfold bind.
  assert (exists w1 t1, userCall c w = (Normal tt, w1, t1)
                        /\ Forall (fun e => isEnd e = true) t1) as (w1 & t1 & -> & H1).
  { destruct c; simpl; unfold update; eauto.
    unfold dispose, _closeTcpClient, bind, this, update, effect, ret; simpl.
    destruct (_disposed w), (_tcpClient w), (_parser w); simpl;
      eexists _, _; (split; [reflexivity|]); by repeat constructor. }
  specialize (IH w1). unfold trace in *.
  destruct (interleave calls w1) as [[r w2] t2]. simpl in *. by apply Forall_app.
Qed.

Lemma filter_nothing (p q : Effect -> bool) (t : list Effect) :
  Forall (fun e => q e = true) t ->
  (forall e, q e = true -> p e = false) ->
  List.filter p t = [].
Proof.
  intros Ht Hpq. induction Ht as [|e t He Ht IH]; [done|].
  simpl. by rewrite (Hpq e He).
Qed.

Lemma ends_are_no_writes (t : list Effect) :
  Forall (fun e => isEnd e = true) t -> List.filter isWrite t = [].
Proof. intros H. apply (filter_nothing _ _ _ H). by intros []. Qed.

(** Calls other than [dispose] have no effect and leave the flags alone. *)
Lemma interleave_quietly (calls : list UserCall) (w : SubscriptionWorker) :
  CallDispose ∉ calls ->
  exists w', interleave calls w = (Normal tt, w', [])
             /\ _processingCancelled w' = _processingCancelled w
             /\ _disposed w' = _disposed w.
Proof.
  revert w. induction calls as [|c calls IH]; intros w Hnot; simpl.
  { unfold ret. eauto. }
  apply not_elem_of_cons in Hnot as [Hc Hnot].
  unfold bind.
  assert (exists w1, userCall c w = (Normal tt, w1, [])
                     /\ _processingCancelled w1 = _processingCancelled w
                     /\ _disposed w1 = _disposed w)
    as (w1 & -> & Hw1 & Hd1) by (destruct c; simpl; unfold update; by eauto).
  destruct (IH w1 Hnot) as (w' & -> & Hw' & Hd'). exists w'.
  split; [done|]. split; congruence.
Qed.

Lemma userCall_stays_disposed (c : UserCall) (w : SubscriptionWorker) :
  _processingCancelled w = true ->
  _disposed w = true ->
  exists w' t, userCall c w = (Normal tt, w', t)
               /\ _processingCancelled w' = true /\ _disposed w' = true.
Proof.
  intros Hc Hd. destruct c; simpl; unfold update; eauto.
  unfold dispose, _closeTcpClient, bind, this, update, effect, ret; simpl.
  rewrite Hd. eauto.
Qed.

Lemma interleave_stays_disposed (calls : list UserCall) (w : SubscriptionWorker) :
  _processingCancelled w = true ->
  _disposed w = true ->
  exists w' t, interleave calls w = (Normal tt, w', t)
               /\ _processingCancelled w' = true /\ _disposed w' = true.
Proof.
  revert w. induction calls as [|c calls IH]; intros w Hc Hd; simpl.
  { unfold ret. eauto. }
  unfold bind. destruct (userCall_stays_disposed c w Hc Hd) as (w1 & t1 & -> & Hc1 & Hd1).
  destruct (IH w1 Hc1 Hd1) as (w2 & t2 & -> & Hc2). eauto.
Qed.

(** A call of [dispose] among the user's calls disposes of the worker and
    cancels the processing. *)
Lemma interleave_disposes (calls : list UserCall) (w : SubscriptionWorker) :
  _disposed w = false ->
  CallDispose ∈ calls ->
  exists w' t, interleave calls w = (Normal tt, w', t)
               /\ _processingCancelled w' = true /\ _disposed w' = true.
Proof.
  revert w. induction calls as [|c calls IH]; intros w Hd Hin; simpl.
  { by apply elem_of_nil in Hin. }
  unfold bind.
  assert (c = CallDispose \/ (CallDispose ∈ calls /\ exists w1,
            userCall c w = (Normal tt, w1, []) /\ _disposed w1 = false)) as [->|Hc].
  { apply elem_of_cons in Hin as [<-|Hin]; [by left|].
    destruct c; [by left|right..]; (split; [done|]); simpl; unfold update; by eauto. }
  - assert (exists w1 t1, userCall CallDispose w = (Normal tt, w1, t1)
                          /\ _processingCancelled w1 = true /\ _disposed w1 = true)
      as (w1 & t1 & -> & Hc1 & Hd1).
    { simpl. unfold dispose, _closeTcpClient, bind, this, update, effect, ret; simpl.
      rewrite Hd. destruct (_tcpClient w), (_parser w); simpl; eauto 10. }
    destruct (interleave_stays_disposed calls w1 Hc1 Hd1) as (w2 & t2 & -> & Hc2). eauto.
  - destruct Hc as (Hin' & w1 & -> & Hd1).
    destruct (IH w1 Hd1 Hin') as (w2 & t2 & -> & Hc2). eauto.
Qed.

(** Whatever the user calls, the worker ends up disposed and cancelled, or
    with both flags as they were. *)
Lemma interleave_flags (calls : list UserCall) (w : SubscriptionWorker) :
  exists w' t,
    interleave calls w = (Normal tt, w', t)
    /\ ((_processingCancelled w' = true /\ _disposed w' = true)
        \/ (_processingCancelled w' = _processingCancelled w
            /\ _disposed w' = _disposed w)).
Proof.
  revert w. induction calls as [|c calls IH]; intros w; simpl.
  { unfold ret. eauto 10. }
  unfold bind.
  assert (exists w1 t1,
             userCall c w = (Normal tt, w1, t1)
             /\ ((_processingCancelled w1 = true /\ _disposed w1 = true)
                 \/ (_processingCancelled w1 = _processingCancelled w
                     /\ _disposed w1 = _disposed w)))
    as (w1 & t1 & -> & [[Hc1 Hd1]|[Hc1 Hd1]]).
  { destruct c; simpl; unfold update; eauto 10.
    unfold dispose, _closeTcpClient, bind, this, update, effect, ret; simpl.
    destruct (_disposed w) eqn:Hd; [by eauto 10|].
    destruct (_tcpClient w), (_parser w); simpl; eauto 10. }
  - destruct (interleave_stays_disposed calls w1 Hc1 Hd1) as (w2 & t2 & -> & H2).
    eauto 10.
  - destruct (IH w1) as (w2 & t2 & -> & H2). exists w2, (t1 ++ t2). split; [done|].
    destruct H2 as [H2|[Hc2 Hd2]]; [by left|right]. split; congruence.
Qed.

#[local] Instance keeps_options_harmless : Harmless (keeps _options).
Proof. split; [done| |done]. run_dispose w; done. Qed.

#[local] Instance keeps_tcpClient_harmless : Harmless (keeps _tcpClient).
Proof. split; [done| |done]. run_dispose w; done. Qed.

#[local] Instance keeps_supportedFeatures_harmless : Harmless (keeps _supportedFeatures).
Proof. split; [done| |done]. run_dispose w; done. Qed.

#[local] Instance keeps_subscriptionTask_harmless : Harmless (keeps _subscriptionTask).
Proof. split; [done| |done]. run_dispose w; done. Qed.

(** What the user does while the worker waits: it ends the socket and the
    parser at most, and leaves the options alone. *)
Lemma interleave_run (calls : list UserCall) (w : SubscriptionWorker) :
  exists w' t,
    interleave calls w = (Normal tt, w', t)
    /\ _options w' = _options w
    /\ Forall (fun e => isEnd e = true) t.
Proof.
  destruct (interleave_returns calls w) as (w' & t & H).
  exists w', t. split; [done|].
  pose proof (always_interleave (keeps _options) calls w) as Hk.
  pose proof (interleave_only_ends calls w) as He.
  unfold keeps, state, trace in *. rewrite H in Hk, He. by split.
Qed.

Lemma await_run {A} (p : Await A) (w : SubscriptionWorker) :
  exists w' t,
    await p w = (match settled p with
                 | Resolved a => Normal a
                 | Rejected e => Throw e
                 | Unsettled => Pending
                 end, w', t)
    /\ _options w' = _options w
    /\ Forall (fun e => isEnd e = true) t.
Proof.
  destruct (interleave_run (meanwhile p) w) as (w' & t & Hi & Ho & Ht).
  exists w', t. split; [|by split].
  unfold await, bind. rewrite Hi.
  destruct (settled p); unfold ret, throw, pending; simpl; by rewrite app_nil_r.
Qed.

Lemma await_stage {A} (p : Await A) (w : SubscriptionWorker) :
  exists w' t,
    await p w = (match settled p with
                 | Resolved a => Normal a
                 | Rejected e => Throw e
                 | Unsettled => Pending
                 end, w', t)
    /\ _options w' = _options w
    /\ _tcpClient w' = _tcpClient w
    /\ _supportedFeatures w' = _supportedFeatures w
    /\ List.filter isWrite t = [].
Proof.
  destruct (await_run p w) as (w' & t & Hrun & Ho & Ht).
  exists w', t. split; [done|]. split; [done|].
  pose proof (always_await (keeps _tcpClient) p w) as H1.
  pose proof (always_await (keeps _supportedFeatures) p w) as H2.
  unfold keeps, state in H1, H2. rewrite Hrun in H1, H2.
  split; [done|]. split; [done|]. by apply ends_are_no_writes.
Qed.

(** ** dispose and the listener methods *)

(** X1. [dispose] is idempotent: a second call does nothing more than the
    first did, so the socket and the parser are ended once. After [dispose]
    the worker is disposed and, if its flags were consistent, its processing
    is cancelled; the only effects are the end of the socket, if there is
    one, and of the parser, if there is one. *)
Theorem dispose_twice_is_dispose_once :
  forall (w : SubscriptionWorker),
    (dispose;;; dispose) w = dispose w
    /\ _disposed (state (dispose w)) = true
    /\ (consistent w -> _processingCancelled (state (dispose w)) = true)
    /\ trace (dispose w)
       = if _disposed w then []
         else match _tcpClient w with Some socket => [SocketEnd socket] | None => [] end
              ++ (if _parser w then [ParserEnd] else []).
Proof.
  intros w.
  unfold consistent, dispose, _closeTcpClient, bind, this, update, effect, ret, state,
    trace; simpl.
  destruct (_disposed w) eqn:Hd; simpl.
  - rewrite Hd. simpl. repeat split. auto.
  - destruct (_tcpClient w), (_parser w); simpl; by repeat split.
Qed.

Lemma runSubscriptionAsync_cancelled (its : list Iteration) (w : SubscriptionWorker) :
  _processingCancelled w = true -> _runSubscriptionAsync its w = (Normal tt, w, []).
Proof.
  intros Hc. destruct its; simpl; unfold bind, this, ret; simpl; by rewrite Hc.
Qed.


Lemma keeps_emit {X} (f : SubscriptionWorker -> X) (event : string) (arg : EmitArg) :
  Always (keeps f) (emit event arg).
Proof. unfold emit. stepwise; by intros ?. Qed.

Lemma subscriptionTask_processSubscription s :
  Always (keeps _subscriptionTask) (_processSubscription s).
Proof. unfold _processSubscription. stepwise_all. Qed.

Lemma subscriptionTask_shouldTryToReconnect now nodes ex :
  Always (keeps _subscriptionTask) (_shouldTryToReconnect now nodes ex).
Proof. unfold _shouldTryToReconnect, _assertLastConnectionFailure. stepwise_all. Qed.

Lemma subscriptionTask_runSubscriptionAsync its :
  Always (keeps _subscriptionTask) (_runSubscriptionAsync its).
Proof.
  induction its as [|it its IH]; simpl; stepwise_all;
    auto using subscriptionTask_processSubscription,
      subscriptionTask_shouldTryToReconnect.
Qed.

Lemma subscriptionTask_task its : Always (keeps _subscriptionTask) (subscriptionTask its).
Proof.
  unfold subscriptionTask.
  apply always_bind; [tc_solve| |intros ?].
  - apply always_try_catch; [tc_solve|apply subscriptionTask_runSubscriptionAsync|].
    intros e. apply always_bind; [tc_solve|apply keeps_emit|]. intros ?.
    apply always_ret; tc_solve.
  - apply always_bind; [tc_solve|apply keeps_emit|]. intros ?.
    apply always_ret; tc_solve.
Qed.

Lemma on_registers (event : string) (handler : Handler) (its : list Iteration)
    (w : SubscriptionWorker) :
  event <> "batch" \/ _subscriptionTask w = true ->
  on event handler its w
  = (Normal tt, set_emitter (emitter_on (_emitter w) event handler) w, []).
Proof.
  intros H. unfold on, bind, update, this, ret; simpl.
  destruct H as [H|H].
  - apply String.eqb_neq in H. by rewrite H.
  - rewrite H. by rewrite andb_false_r.
Qed.

(** X3. The background task is started at most once: after a first
    [on("batch", _)], however its task went, a second [on("batch", _)] only
    registers the handler. *)
Theorem background_task_is_started_once :
  forall (w : SubscriptionWorker) (first second : Handler)
         (its its' : list Iteration),
    let w1 := state (on "batch" first its w) in
    _subscriptionTask w1 = true
    /\ on "batch" second its' w1
       = (Normal tt, set_emitter (emitter_on (_emitter w1) "batch" second) w1, []).
Proof.
  intros w first second its its' w1.
  assert (_subscriptionTask w1 = true) as Ht.
  { subst w1. unfold on. unfold bind at 1, update. simpl.
    unfold bind at 1, this. simpl.
    destruct (_subscriptionTask w) eqn:Hw; simpl; [done|].
    unfold bind at 1, update. simpl.
    match goal with |- context [subscriptionTask its ?w0] =>
      pose proof (subscriptionTask_task its w0) as Hk; unfold keeps, state in *;
      destruct (subscriptionTask its w0) as [[r s] t] end.
    simpl in *. by rewrite Hk. }
  split; [done|]. apply on_registers. by right.
Qed.

Lemma listeners_insert (em : gmap string (list Handler)) (event ev : string)
    (l : list Handler) :
  listeners (<[event := l]> em) ev = if decide (ev = event) then l else listeners em ev.
Proof.
  unfold listeners. destruct (decide (ev = event)) as [->|Hne].
  - by rewrite lookup_insert_eq.
  - by rewrite lookup_insert_ne.
Qed.

Lemma remove_first_absent (handler : Handler) (l : list Handler) :
  handler ∉ l -> remove_first handler l = l.
Proof.
  induction l as [|h l IH]; simpl; [done|].
  intros [Hne Hl]%not_elem_of_cons. destruct (decide (h = handler)); [done|].
  by rewrite IH.
Qed.

(** X4. [off] undoes [on]: where [on] only registers (any event but
    ["batch"], or ["batch"] once the task exists), [on] followed by [off] of
    the same handler leaves the listeners of every event as they were; and
    [off] of a handler that is not registered for the event changes nothing.
    *)
Theorem off_undoes_on :
  forall (w : SubscriptionWorker) (event : string) (handler : Handler)
         (its : list Iteration) (ev : string),
    event <> "batch" \/ _subscriptionTask w = true ->
    result ((on event handler its;;; off event handler) w) = Normal tt
    /\ listeners (_emitter (state ((on event handler its;;; off event handler) w))) ev
       = listeners (_emitter w) ev
    /\ (handler ∉ listeners (_emitter w) event ->
        listeners (_emitter (state (off event handler w))) ev = listeners (_emitter w) ev).
Proof.
  intros w event handler its ev H.
  unfold bind. rewrite on_registers by done.
  unfold off, update, result, state; simpl.
  split; [done|]. unfold emitter_removeListener, emitter_on.
  split.
  - rewrite !listeners_insert. destruct (decide (ev = event)) as [->|Hne]; [|done].
    destruct (decide (event = event)); [|done].
    rewrite rev_app_distr. simpl. destruct (decide (handler = handler)); [|done].
    by rewrite rev_involutive.
  - intros Hnot. rewrite listeners_insert.
    destruct (decide (ev = event)) as [->|Hne]; [|done].
    rewrite remove_first_absent; [by rewrite rev_involutive|].
    by rewrite list_elem_of_In, <- in_rev, <- list_elem_of_In.
Qed.

(** X5. [removeAllListeners(event)] empties the listeners of that event and
    leaves those of the other events.  Called without an argument it hands
    the emitter [undefined]: every event but the one named ["undefined"]
    keeps its listeners, so an emitted ['error'] is delivered or thrown as
    before the call.  It takes [removeAllListeners("error")] to have an
    emitted ['error'] thrown by the emitter. *)
Theorem removeAllListeners_clears_the_named_event :
  forall (w : SubscriptionWorker) (event ev : string) (e : Error),
    listeners (_emitter (state (removeAllListeners (Some event) w))) ev
    = (if decide (ev = event) then [] else listeners (_emitter w) ev)
    /\ listeners (_emitter (state (removeAllListeners None w))) ev
       = (if decide (ev = "undefined") then [] else listeners (_emitter w) ev)
    /\ result (emit "error" (ErrorArg e) (state (removeAllListeners None w)))
       = result (emit "error" (ErrorArg e) w)
    /\ trace (emit "error" (ErrorArg e) (state (removeAllListeners None w)))
       = trace (emit "error" (ErrorArg e) w)
    /\ emit "error" (ErrorArg e) (state (removeAllListeners (Some "error") w))
       = (Throw e, state (removeAllListeners (Some "error") w), []).
Proof.
  intros w event ev e.
  assert (forall name,
             listeners (delete name (_emitter w)) ev
             = if decide (ev = name) then [] else listeners (_emitter w) ev) as Hdelete.
  { intros name. unfold listeners. destruct (decide (ev = name)) as [->|Hne].
    - by rewrite lookup_delete_eq.
    - by rewrite lookup_delete_ne. }
  assert (listeners (delete "undefined" (_emitter w)) "error"
          = listeners (_emitter w) "error") as Herror.
  { unfold listeners. by rewrite lookup_delete_ne. }
  unfold removeAllListeners, update, state; simpl.
  split; [apply Hdelete|]. split; [apply Hdelete|].
  unfold emit, bind, this, effect, throw, ret, result, trace; simpl.
  rewrite Herror.
  split; [by destruct (listeners (_emitter w) "error")|].
  split; [by destruct (listeners (_emitter w) "error")|].
  unfold listeners. by rewrite lookup_delete_eq.
Qed.

(** ** The status of a connection *)

(** X6. [_assertConnectionState] returns only for [ConnectionStatus:
    Accepted] and throws for every other message; either way it leaves the
    worker as it was and has no effect. *)
Theorem only_accepted_status_is_accepted :
  forall (m : ServerMessage) (w : SubscriptionWorker),
    state (_assertConnectionState m w) = w
    /\ trace (_assertConnectionState m w) = []
    /\ (result (_assertConnectionState m w) = Normal tt
        <-> ServerMessage.type m = "ConnectionStatus"
            /\ ServerMessage.status m = "Accepted").
Proof.
  intros m w.
  destruct (String.eqb (ServerMessage.type m) "ConnectionStatus") eqn:Ht;
    [destruct (String.eqb (ServerMessage.status m) "Accepted") eqn:Hs|].
  - apply String.eqb_eq in Ht, Hs. by rewrite assertConnectionState_accepted.
  - apply String.eqb_neq in Hs.
    destruct (assertConnectionState_throws m w) as (e & ->); [by right|].
    split; [done|]. split; [done|]. split; [done|]. by intros [_ ?].
  - apply String.eqb_neq in Ht.
    destruct (assertConnectionState_throws m w) as (e & ->); [by left|].
    split; [done|]. split; [done|]. split; [done|]. by intros [? _].
Qed.

(** X7. The statuses InUse, Closed, Invalid and NotFound end the
    subscription: [_assertConnectionState] throws the error that [refusals]
    names, and the reconnect policy answers that error with "do not retry"
    and cancels the processing. *)
Theorem refusing_statuses_end_the_subscription :
  forall (m : ServerMessage) (w : SubscriptionWorker) (errName : string),
    ServerMessage.type m = "ConnectionStatus" ->
    (ServerMessage.status m, errName) ∈ refusals ->
    exists e,
      _assertConnectionState m w = (Throw e, w, [])
      /\ name e = errName
      /\ forall now topologyNodes,
           _shouldTryToReconnect now topologyNodes e w
           = (Normal false, set_processingCancelled true w, []).
Proof.
  intros m w errName Ht Hin.
  unfold refusals in Hin. rewrite !elem_of_cons, elem_of_nil in Hin.
  destruct Hin as [[= Hs ->]|[[= Hs ->]|[[= Hs ->]|[[= Hs ->]|[]]]]];
    unfold _assertConnectionState, bind, this, ret, throwError, throw; simpl;
    rewrite Ht, Hs; simpl;
    (eexists; split; [reflexivity|]; split; [reflexivity|];
     intros; by apply shouldTryToReconnect_fatal).
Qed.

(** X8. For a Redirect status the error thrown carries the tag the server
    named. While the erroneous period is not exceeded, the policy then
    retries on the same node when no tag was named, makes the first node of
    the topology with that tag the redirect node when there is one, and
    fails with InvalidOperationException when there is none. *)
Theorem redirect_status_selects_the_named_node :
  forall (m : ServerMessage) (w : SubscriptionWorker) (tag : option string),
    ServerMessage.type m = "ConnectionStatus" ->
    ServerMessage.status m = "Redirect" ->
    ServerMessage.data m = Some tag ->
    exists e,
      _assertConnectionState m w = (Throw e, w, [])
      /\ name e = "SubscriptionDoesNotBelongToNodeException"
      /\ appropriateNode e = tag
      /\ forall now topologyNodes,
           windowExceeded now w = false ->
           match tag with
           | None | Some "" =>
               _shouldTryToReconnect now topologyNodes e w
               = (Normal true, failureRecorded now w, [])
           | Some t =>
               match find (fun x => String.eqb (clusterTag x) t) topologyNodes with
               | Some node =>
                   _shouldTryToReconnect now topologyNodes e w
                   = (Normal true, set_redirectNode (Some node) (failureRecorded now w), [])
                   /\ clusterTag node = t
               | None =>
                   exists e',
                     _shouldTryToReconnect now topologyNodes e w
                     = (Throw e', failureRecorded now w, [])
                     /\ name e' = "InvalidOperationException"
               end
           end.
Proof.
  intros m w tag Ht Hs Hd.
  unfold _assertConnectionState, bind, this, ret, throwError, throw; simpl.
  rewrite Ht, Hs, Hd; simpl.
  eexists. split; [reflexivity|]. split; [reflexivity|]. split; [reflexivity|].
  intros now nodes Hw.
  match goal with |- context [_shouldTryToReconnect now nodes ?e w] =>
    pose proof (shouldTryToReconnect_redirect now nodes e w eq_refl) as H end.
  rewrite Hw in H. simpl in H.
  destruct tag as [[|c t]|]; [done| |done].
  destruct (find _ nodes) as [node|] eqn:Hfind; [|done].
  split; [done|]. apply find_some in Hfind as [_ Heq]. by apply String.eqb_eq in Heq.
Qed.

(** ** One connection *)

Lemma no_writes_no_options (t : list Effect) :
  List.filter isWrite t = [] -> List.filter isOptionsWrite t = [].
Proof.
  induction t as [|e t IH]; [done|]. simpl.
  destruct e as [| | |frame| |]; simpl; try done.
Qed.

(** X9. The options are written only after a valid negotiation.  When
    [_connectToServer] returns, the negotiated version is positive and
    recorded in [_supportedFeatures], and the socket returned is the one
    [TcpUtils.connect] gave.  And whatever the outcome, the method writes
    the options frame exactly when the request for the connection info,
    the connection and the negotiation have succeeded and the negotiated
    version is positive: once then, with the worker's options, and not at
    all otherwise.  (The header frames are written by the negotiation
    itself, inside the awaited call; this is about the options frame.) *)
Theorem options_are_sent_only_after_a_valid_negotiation :
  forall (s : ConnectScript) (w : SubscriptionWorker),
    let run := _connectToServer s w in
    (forall socket,
        result run = Normal socket ->
        exists version connectedSocket,
          settled (negotiated s) = Resolved version
          /\ (0 < version)%Z
          /\ settled (connected s) = Resolved connectedSocket
          /\ socket = Some connectedSocket
          /\ _supportedFeatures (state run) = Some version)
    /\ List.filter isOptionsWrite (trace run)
       = match settled (tcpInfo s), settled (connected s), settled (negotiated s) with
         | Resolved _, Resolved _, Resolved version =>
             if (version <=? 0)%Z then []
             else [SocketWrite (OptionsFrame (_options w))]
         | _, _, _ => []
         end.
Proof.
  intros s w run.
  destruct run as [[r w'] t] eqn:Hrun. subst run.
  unfold result, state, trace. simpl.
  unfold _connectToServer in Hrun.
  unfold bind at 1, this in Hrun. simpl in Hrun.
  (* the request for the connection info *)
  match type of Hrun with context [bind ?m ?k w] =>
    assert (exists r1 w1 t1,
               m w = (r1, w1, t1)
               /\ r1 = match settled (tcpInfo s) with
                       | Resolved a => Normal a
                       | Rejected e => Throw e
                       | Unsettled => Pending
                       end
               /\ _options w1 = _options w /\ List.filter isOptionsWrite t1 = [])
      as (r1 & w1 & t1 & Hstage1 & Hr1 & Ho1 & Ht1)
  end.
  { destruct (await_stage (tcpInfo s) w) as (w1 & t1 & Ha & Ho & _ & _ & Ht).
    apply no_writes_no_options in Ht.
    destruct (_redirectNode w); [|by eauto 10].
    unfold try_catch. rewrite Ha.
    destruct (settled (tcpInfo s)); simpl; [by eauto 10| |by eauto 10].
    unfold bind, update, throw; simpl. rewrite app_nil_r. eauto 10. }
  unfold bind at 1 in Hrun. rewrite Hstage1 in Hrun.
  destruct (settled (tcpInfo s)) as [info0| |] eqn:Hinfo; subst r1; simpl in Hrun;
    [|injection Hrun as <- <- <-; split; [done|done]..].
  (* the connection *)
  destruct (await_stage (connected s) w1) as (w2 & t2 & Ha2 & Ho2 & _ & _ & Ht2).
  apply no_writes_no_options in Ht2.
  unfold bind at 1 in Hrun. rewrite Ha2 in Hrun.
  destruct (settled (connected s)) as [connectedSocket| |] eqn:Hconnected;
    simpl in Hrun;
    [|injection Hrun as <- <- <-; rewrite List.filter_app, Ht1, Ht2;
      split; [done|done]..].
  unfold bind at 1, update in Hrun. simpl in Hrun.
  unfold bind at 1, _ensureParser, update in Hrun. simpl in Hrun.
  (* the negotiation *)
  match type of Hrun with context [bind (await (negotiated s)) ?k ?w0] =>
    destruct (await_stage (negotiated s) w0) as (w3 & t3 & Ha3 & Ho3 & Hs3 & _ & Ht3)
  end.
  apply no_writes_no_options in Ht3.
  unfold bind at 1 in Hrun. rewrite Ha3 in Hrun. simpl in Ho3, Hs3.
  destruct (settled (negotiated s)) as [version| |] eqn:Hnegotiated;
    simpl in Hrun;
    [|injection Hrun as <- <- <-; rewrite !List.filter_app, Ht1, Ht2, Ht3;
      split; [done|done]..].
  unfold bind at 1, update in Hrun. simpl in Hrun.
  unfold bind at 1, this in Hrun. simpl in Hrun.
  destruct (version <=? 0)%Z eqn:Hversion.
  { unfold bind at 1, throwError, throw in Hrun. simpl in Hrun.
    injection Hrun as <- <- <-. rewrite !List.filter_app, Ht1, Ht2, Ht3.
    split; [done|done]. }
  apply Z.leb_gt in Hversion.
  unfold bind at 1, ret in Hrun. simpl in Hrun.
  (* the options *)
  unfold _sendOptions in Hrun.
  match type of Hrun with context [await (optionsWritten s)] =>
    match type of Hrun with context [set_supportedFeatures ?v ?w0] =>
      destruct (await_stage (optionsWritten s) (set_supportedFeatures v w0))
        as (w4 & t4 & Ha4 & Ho4 & Hs4 & Hf4 & Ht4)
    end
  end.
  apply no_writes_no_options in Ht4.
  simpl in Ho4, Hs4, Hf4.
  unfold bind at 1 in Hrun. unfold bind at 1, effect in Hrun. simpl in Hrun.
  unfold bind at 1 in Hrun. rewrite Ha4 in Hrun.
  assert (_options w3 = _options w) as Ho by (by rewrite Ho3, Ho2, Ho1).
  destruct (settled (optionsWritten s)) as [written| |]; simpl in Hrun;
    [|injection Hrun as <- <- <-; split; [done|];
      rewrite !List.filter_app; simpl; rewrite Ht1, Ht2, Ht3, Ht4; simpl;
      by rewrite Ho..].
  unfold ret in Hrun. simpl in Hrun.
  unfold bind at 1, this in Hrun. simpl in Hrun.
  assert (exists t5 executor,
             r = Normal (_tcpClient w4)
             /\ w' = set_subscriptionLocalRequestExecutor executor w4
             /\ t = t1 ++ t2 ++ t3 ++ SocketWrite (OptionsFrame (_options w3)) :: t4 ++ t5
             /\ List.filter isOptionsWrite t5 = [])
    as (t5 & executor & -> & -> & -> & Ht5).
  { destruct (_subscriptionLocalRequestExecutor w4);
      unfold bind, effect, update, this, ret in Hrun; simpl in Hrun;
      injection Hrun as <- <- <-;
      [exists [DisposeExecutor]|exists []]; eexists;
      (split; [reflexivity|]); (split; [reflexivity|]);
      rewrite ?app_nil_r; simpl; rewrite ?app_nil_r; by split. }
  split.
  - intros socket [= <-]. exists version, connectedSocket.
    split; [done|]. split; [done|]. split; [done|].
    split; [by rewrite Hs4, Hs3|]. by simpl; rewrite Hf4.
  - rewrite !List.filter_app. simpl. rewrite List.filter_app, Ht1, Ht2, Ht3, Ht4, Ht5.
    simpl. by rewrite Ho.
Qed.

Lemma cleanup_ends_socket_and_parser (socket : nat) (p q : Await unit)
    (w : SubscriptionWorker) :
  exists r w' t,
    (effect (SocketEnd socket);;; effect ParserEnd;;; settle p;;; settle q) w
    = (r, w', SocketEnd socket :: ParserEnd :: t).
Proof.
  unfold bind at 1, effect. simpl. unfold bind at 1. simpl.
  destruct ((settle p;;; settle q) w) as [[r w'] t]. eauto.
Qed.

(** X10. A connection attempt that got its socket and has finished, by
    returning or by throwing, has ended that socket and then the parser. *)
Theorem finished_connection_has_ended_socket_and_parser :
  forall (s : ProcessScript) (w w1 : SubscriptionWorker) (socket : nat)
         (t1 : list Effect),
    _processingCancelled w = false ->
    _connectToServer (connecting s) w = (Normal (Some socket), w1, t1) ->
    result (_processSubscription s w) <> Pending ->
    exists t2 t3,
      trace (_processSubscription s w)
      = t1 ++ t2 ++ SocketEnd socket :: ParserEnd :: t3.
Proof.
  intros s w w1 socket t1 Hc Hconn Hfinished.
  destruct (_processSubscription s w) as [[r w'] t] eqn:Hrun.
  unfold result, trace in *. simpl in *.
  unfold _processSubscription, try_catch in Hrun.
  unfold bind at 1, this in Hrun. simpl in Hrun. rewrite Hc in Hrun.
  unfold bind at 1, ret in Hrun. simpl in Hrun.
  unfold bind at 1 in Hrun. rewrite Hconn in Hrun.
  unfold try_finally in Hrun.
  match type of Hrun with context [match ?inner w1 with _ => _ end] =>
    destruct (inner w1) as [[r0 w2] t2] end.
  destruct (cleanup_ends_socket_and_parser socket (lastNotified s) (lastRead s) w2)
    as (rc & w3 & t3 & Hcleanup).
  destruct r0 as [[]|e|]; [| |simpl in Hrun; by injection Hrun as <- _ _].
  all: rewrite Hcleanup in Hrun; simpl in Hrun.
  all: destruct rc as [[]|e'|]; simpl in Hrun.
  all: unfold bind, this, throw, ret in Hrun; simpl in Hrun.
  all: try destruct (_disposed w3); simpl in Hrun.
  all: injection Hrun as <- <- <-; try done.
  all: rewrite ?app_nil_r, <- ?app_assoc; simpl; eauto.
Qed.

#[local] Instance emitsNothing_stepwise : Stepwise emitsNothing.
Proof.
  split; unfold emitsNothing; [by constructor|].
  intros. by apply Forall_app.
Qed.

Lemma emitsNothing_interleave (calls : list UserCall) :
  Always emitsNothing (interleave calls).
Proof.
  intros w. unfold emitsNothing.
  eapply Forall_impl; [apply interleave_only_ends|]. by intros [].
Qed.

Ltac stepwise_emitsNothing :=
  stepwise;
  try first
    [ apply emitsNothing_interleave
    | intros ?; unfold emitsNothing, update, effect, state, trace; simpl;
      by repeat constructor ].

Lemma emitsNothing_connectToServer (s : ConnectScript) :
  Always emitsNothing (_connectToServer s).
Proof. unfold _connectToServer. stepwise_emitsNothing. Qed.

Lemma emitsNothing_refused (s : ProcessScript) (m : ServerMessage)
    (rest : ServerMessage -> M unit) :
  settled (connectionStatus s) = Resolved (Some m) ->
  ServerMessage.type m <> "ConnectionStatus" \/ ServerMessage.status m <> "Accepted" ->
  Always emitsNothing
    (w <- this;;
     (if _processingCancelled w then throwError "OperationCancelledException" "" None
      else ret tt);;;
     connectionStatus <- await (connectionStatus s);;
     w <- this;;
     if _processingCancelled w then ret tt
     else
       match connectionStatus with
       | None => throw (TypeError "Cannot read property 'type' of null")
       | Some connectionStatus =>
           (if negb (String.eqb (ServerMessage.type connectionStatus) "ConnectionStatus")
               || negb (String.eqb (ServerMessage.status connectionStatus) "Accepted")
            then _assertConnectionState connectionStatus
            else ret tt);;;
           rest connectionStatus
       end).
Proof.
  intros Hs Hm w. unfold emitsNothing.
  unfold bind at 1, this. simpl.
  destruct (_processingCancelled w) eqn:Hc.
  { unfold bind, throwError, throw, trace. simpl. constructor. }
  unfold bind at 1, ret. simpl.
  destruct (await_run (connectionStatus s) w) as (w1 & t1 & Ha & _ & Ht1).
  rewrite Hs in Ha. unfold bind at 1. rewrite Ha.
  assert (Forall (fun e => isEmit e = false) t1) as Hquiet
    by (eapply Forall_impl; [exact Ht1|]; by intros []).
  unfold bind at 1, this. simpl.
  destruct (_processingCancelled w1).
  { unfold ret, trace. simpl. by rewrite app_nil_r. }
  assert (negb (String.eqb (ServerMessage.type m) "ConnectionStatus")
          || negb (String.eqb (ServerMessage.status m) "Accepted") = true) as ->.
  { destruct Hm as [Hm|Hm]; apply String.eqb_neq in Hm; rewrite Hm; simpl; [done|].
    by rewrite orb_true_r. }
  unfold bind. destruct (assertConnectionState_throws m w1 Hm) as (e & ->).
  unfold trace. simpl. by rewrite app_nil_r.
Qed.

(** X11. When the first message of a connection is not [ConnectionStatus:
    Accepted], the attempt itself emits no event: no batch is dispatched
    before the connection is accepted. (The completion callback of the
    stream pipeline, [pipelineCallback], is called by the stream library and
    is not part of the attempt.) *)
Theorem refused_connection_emits_nothing :
  forall (s : ProcessScript) (w : SubscriptionWorker) (m : ServerMessage),
    settled (connectionStatus s) = Resolved (Some m) ->
    ServerMessage.type m <> "ConnectionStatus" \/ ServerMessage.status m <> "Accepted" ->
    Forall (fun e => isEmit e = false) (trace (_processSubscription s w)).
Proof.
  intros s w m Hs Hm.
  revert w. change (Always emitsNothing (_processSubscription s)).
  unfold _processSubscription.
  apply always_try_catch; [tc_solve| |intros e; stepwise_emitsNothing].
  apply always_bind; [tc_solve|apply always_this; tc_solve|]. intros w0.
  apply always_bind; [tc_solve|stepwise_emitsNothing|]. intros _.
  apply always_bind; [tc_solve|apply emitsNothing_connectToServer|]. intros socket.
  apply always_try_finally; [tc_solve| |stepwise_emitsNothing].
  by apply (emitsNothing_refused s m).
Qed.

(** X12. When the promise of the subscriber's notification rejects, the loop
    of a connection ends the socket at once and fails with the same error,
    without dispatching another batch. *)
Theorem failed_notification_closes_the_socket :
  forall (round : PipelineRound) (later : list PipelineRound) (w : SubscriptionWorker)
         (err : Error),
    _processingCancelled w = false ->
    settled (notified round) = Rejected err ->
    exists w' t,
      dispatchLoop (round :: later) w
      = (Throw err, w',
         t ++ match _tcpClient w with Some socket => [SocketEnd socket] | None => [] end)
      /\ Forall (fun e => isEnd e = true) t.
Proof.
  intros round later w err Hc Hs.
  destruct (await_run (notified round) w) as (w1 & t1 & Ha & _ & Ht1).
  pose proof (always_await (keeps _tcpClient) (notified round) w) as Hk.
  unfold keeps, state in Hk. rewrite Ha in Hk. simpl in Hk.
  rewrite Hs in Ha.
  exists w1, t1. split; [|done].
  simpl. unfold bind at 1, this. simpl. rewrite Hc.
  unfold bind at 1, try_catch. rewrite Ha.
  unfold _closeTcpClient, bind, this, effect, throw, ret. simpl. rewrite Hk.
  by destruct (_tcpClient w).
Qed.

(** X13. A batch that was read while the user disposed of the worker is not
    dispatched: the loop of a connection throws OperationCancelledException
    and emits nothing. *)
Theorem batch_read_during_dispose_is_not_dispatched :
  forall (round : PipelineRound) (later : list PipelineRound) (w : SubscriptionWorker)
         (incomingBatch : list ServerMessage),
    _processingCancelled w = false ->
    _disposed w = false ->
    settled (notified round) = Resolved tt ->
    settled (incoming round) = Resolved incomingBatch ->
    CallDispose ∈ meanwhile (notified round) ++ meanwhile (incoming round) ->
    exists e w' t,
      dispatchLoop (round :: later) w = (Throw e, w', t)
      /\ name e = "OperationCancelledException"
      /\ Forall (fun ef => isEmit ef = false) t
      /\ _disposed w' = true.
Proof.
  intros round later w incomingBatch Hc Hd Hnotified Hincoming Hdispose.
  assert (exists w2 t1 t2,
             interleave (meanwhile (notified round)) w
             = (Normal tt, state (interleave (meanwhile (notified round)) w), t1)
             /\ interleave (meanwhile (incoming round))
                  (state (interleave (meanwhile (notified round)) w))
                = (Normal tt, w2, t2)
             /\ _processingCancelled w2 = true /\ _disposed w2 = true
             /\ Forall (fun e => isEnd e = true) (t1 ++ t2))
    as (w2 & t1 & t2 & Hi1 & Hi2 & Hc2 & Hd2 & Hends).
  { pose proof (interleave_only_ends (meanwhile (notified round)) w) as He1.
    destruct (interleave_flags (meanwhile (notified round)) w) as (w1 & t1 & Hi1 & Hflags).
    unfold state, trace in *. rewrite Hi1 in *. simpl in *.
    pose proof (interleave_only_ends (meanwhile (incoming round)) w1) as He2.
    assert (exists w2 t2,
               interleave (meanwhile (incoming round)) w1 = (Normal tt, w2, t2)
               /\ _processingCancelled w2 = true /\ _disposed w2 = true)
      as (w2 & t2 & Hi2 & Hc2 & Hd2).
    { destruct Hflags as [[Hc1 Hd1]|[Hc1 Hd1]].
      - by apply interleave_stays_disposed.
      - apply elem_of_app in Hdispose as [Hin|Hin].
        + destruct (interleave_disposes _ w Hd Hin) as (w1' & t1' & Hi1' & _ & Hd1').
          rewrite Hi1 in Hi1'. injection Hi1' as <- <-. congruence.
        + apply interleave_disposes; [congruence|done]. }
    unfold trace in He2. rewrite Hi2 in He2. simpl in He2.
    exists w2, t1, t2. split; [done|]. split; [done|]. split; [done|]. split; [done|].
    by apply Forall_app. }
  unfold state in Hi2. rewrite Hi1 in Hi2. simpl in Hi2.
  simpl. unfold bind at 1, this. simpl. rewrite Hc.
  unfold bind at 1, try_catch, await. unfold bind at 1. rewrite Hi1, Hnotified. simpl.
  unfold bind at 1. unfold bind at 1. rewrite Hi2, Hincoming. simpl.
  unfold bind, this, throwError, throw. simpl. rewrite Hc2. simpl.
  eexists _, _, _. split; [reflexivity|]. split; [reflexivity|]. split; [|done].
  rewrite !app_nil_r. eapply Forall_impl; [exact Hends|]. by intros [].
Qed.

(** ** A waiting read *)

Lemma readOrWait_waits {V} (stream : ParserStream V)
    (wait : ParserStream V -> M (option V * ParserStream V)) (w : SubscriptionWorker) :
  _processingCancelled w = false ->
  _disposed w = false ->
  readable stream = false \/ buffered stream = [] ->
  readOrWait stream wait w = wait stream w.
Proof.
  intros Hc Hd Hempty. unfold readOrWait, bind, this; simpl.
  rewrite Hc, Hd.
  assert ((if readable stream then buffered stream else []) = []) as ->
    by (destruct Hempty as [->| ->]; [done|by destruct (readable stream)]).
  by destruct (wait stream w) as [[r w'] t].
Qed.

Lemma waitForStream_idle {V} (quiet later : list (StreamEvent V)) :
  Forall (fun ev => idle ev = true) quiet ->
  forall (stream : ParserStream V) (w : SubscriptionWorker),
    _processingCancelled w = false ->
    _disposed w = false ->
    readable stream = true ->
    buffered stream = [] ->
    exists w',
      _processingCancelled w' = false /\ _disposed w' = false
      /\ waitForStream stream (quiet ++ later) w
         = (result (waitForStream stream later w'),
            state (waitForStream stream later w'),
            trace (waitForStream stream later w')).
Proof.
  induction 1 as [|ev quiet Hev Hquiet IH]; intros stream w Hc Hd Hr Hb.
  - exists w. split; [done|]. split; [done|].
    simpl. by destruct (waitForStream stream later w) as [[r s] t].
  - destruct ev as [arrived| | |call]; try done.
    + destruct arrived; [|done]. simpl.
      rewrite readOrWait_waits by (simpl; rewrite ?Hb; auto).
      destruct (IH {| readable := readable stream; buffered := buffered stream ++ [] |}
                  w Hc Hd Hr) as (w' & Hc' & Hd' & ->); [by simpl; rewrite Hb|].
      exists w'. split; [done|]. split; [done|].
      assert ({| readable := readable stream; buffered := buffered stream ++ [] |} = stream)
        as -> by (destruct stream; simpl in *; by rewrite app_nil_r).
      done.
    + assert (exists w1, userCall call w = (Normal tt, w1, [])
                         /\ _processingCancelled w1 = false /\ _disposed w1 = false)
        as (w1 & Hcall & Hc1 & Hd1)
        by (destruct call; try done; simpl; unfold update; by eauto).
      destruct (IH stream w1 Hc1 Hd1 Hr Hb) as (w' & Hc' & Hd' & Hrun).
      exists w'. split; [done|]. split; [done|].
      simpl. unfold bind. rewrite Hcall. rewrite Hrun. done.
Qed.

(** X14. A read that waits on an empty, readable stream of a worker in use
    resolves with the first object that arrives, however many empty
    ['readable'] events and calls of the user (short of [dispose]) come
    before, and leaves the objects that arrived with it in the buffer; a
    stream error that comes first rejects the read with that error. The read
    has no effect of its own. *)
Theorem waiting_read_returns_the_first_object :
  forall (V : Type) (w : SubscriptionWorker) (stream : ParserStream V)
         (quiet later : list (StreamEvent V)) (key : Z) (value : option V)
         (more : list (Z * option V)) (err : Error),
    _processingCancelled w = false ->
    _disposed w = false ->
    readable stream = true ->
    buffered stream = [] ->
    Forall (fun ev => idle ev = true) quiet ->
    (result (_readNextObject stream (quiet ++ Readable ((key, value) :: more) :: later) w)
     = Normal (value, {| readable := true; buffered := more |})
     /\ trace (_readNextObject stream (quiet ++ Readable ((key, value) :: more) :: later) w)
        = [])
    /\ (result (_readNextObject stream (quiet ++ StreamError err :: later) w) = Throw err
        /\ trace (_readNextObject stream (quiet ++ StreamError err :: later) w) = []).
Proof.
  intros V w stream quiet later key value more err Hc Hd Hr Hb Hquiet.
  unfold _readNextObject. rewrite !readOrWait_waits by auto.
  split.
  - destruct (waitForStream_idle quiet (Readable ((key, value) :: more) :: later)
                Hquiet stream w Hc Hd Hr Hb) as (w' & Hc' & Hd' & ->).
    unfold result, trace; simpl.
    unfold readOrWait, bind, this, ret; simpl. rewrite Hc', Hd', Hr, Hb. by simpl.
  - destruct (waitForStream_idle quiet (StreamError err :: later)
                Hquiet stream w Hc Hd Hr Hb) as (w' & Hc' & Hd' & ->).
    by unfold result, trace; simpl.
Qed.

(** ** The batch pump, its effects and its end *)

Lemma await_delivers_quietly (read : Await (option ServerMessage)) (m : ServerMessage)
    (w : SubscriptionWorker) :
  delivers read m ->
  exists w', await read w = (Normal (Some m), w', [])
             /\ _processingCancelled w' = _processingCancelled w
             /\ _disposed w' = _disposed w.
Proof.
  intros [Hs Hnot]. destruct (interleave_quietly _ w Hnot) as (w' & Hi & Hw' & Hd').
  exists w'. split; [|done].
  unfold await, bind. by rewrite Hi, Hs.
Qed.

(** The head of the loop once more, now with the effects and both flags. *)
Lemma readBatchLoop_step batch acc read reads m w :
  _processingCancelled w = false ->
  _disposed w = false ->
  delivers read m ->
  exists w',
    _processingCancelled w' = false /\ _disposed w' = false
    /\ readBatchLoop batch acc (read :: reads) w
       = (let type := ServerMessage.type m in
          if String.eqb type "Data" then
            readBatchLoop batch (acc ++ [m]) reads
          else if String.eqb type "EndOfBatch" then ret (acc, batch)
          else if String.eqb type "Confirm" then
            _ <- emit "afterAcknowledgment" (BatchArg batch);;
            readBatchLoop {| items := [] |} [] reads
          else if String.eqb type "ConnectionStatus" then
            _assertConnectionState m;;; readBatchLoop batch acc reads
          else if String.eqb type "Error" then _throwSubscriptionError m
          else _throwInvalidServerResponse m) w'.
Proof.
  intros Hc Hd Hdel.
  destruct (await_delivers_quietly read m w Hdel) as (w' & Ha & Hc' & Hd').
  exists w'. split; [congruence|]. split; [congruence|].
  simpl. unfold bind at 1, this. rewrite Hc.
  unfold bind at 1. rewrite Ha.
  unfold bind at 1, this. simpl. rewrite Hc', Hc.
  match goal with |- context [(if ?c then ?a else ?b) w'] =>
    destruct ((if c then a else b) w') as [[r s] t'] end.
  done.
Qed.

Lemma goesOn_refl {A} (next : M A) (w : SubscriptionWorker) :
  _processingCancelled w = false -> _disposed w = false -> goesOn (next w) [] next.
Proof.
  intros Hc Hd. exists w. split; [done|]. split; [done|].
  by destruct (next w) as [[r s] t].
Qed.

(** Reading a prefix of frames that keep the loop going emits
    [afterAcknowledgment] once for each [Confirm] among them, and nothing
    else. *)
Lemma readBatchLoop_prefix_effects (reads : list (Await (option ServerMessage)))
    (pre : list ServerMessage) :
  Forall2 delivers reads pre ->
  Forall (fun m => keepsReading m = true) pre ->
  forall batch acc later w,
    _processingCancelled w = false ->
    _disposed w = false ->
    exists t,
      goesOn (readBatchLoop batch acc (reads ++ later) w) t
        (readBatchLoop
           (if existsb (isType "Confirm") pre then {| items := [] |} else batch)
           (if existsb (isType "Confirm") pre then dataFrames (sinceLastConfirm pre)
            else acc ++ dataFrames pre)
           later)
      /\ Forall (fun e => isAcknowledgment e = true) t
      /\ length t = length (List.filter (isType "Confirm") pre).
Proof.
  induction 1 as [|read m reads pre Hdel Hrest IH]; intros Hpre batch acc later w Hc Hd.
  - exists []. simpl. rewrite app_nil_r. split; [by apply goesOn_refl|]. by split.
  - apply Forall_cons in Hpre as [Hm Hpre]. specialize (IH Hpre).
    change (existsb (isType "Confirm") (m :: pre))
      with (isType "Confirm" m || existsb (isType "Confirm") pre).
    rewrite sinceLastConfirm_cons, dataFrames_cons. simpl app.
    destruct (readBatchLoop_step batch acc read (reads ++ later) m w Hc Hd Hdel)
      as (w' & Hc' & Hd' & ->).
    cbv zeta. simpl List.filter.
    apply keepsReading_cases in Hm as [Hm|[Hm|[Hm Hs]]].
    + rewrite Hm. simpl.
      destruct (IH batch (acc ++ [m]) later w' Hc' Hd') as (t & Hgo & Ht & Hlen).
      exists t.
      rewrite (isType_other "Data" "Confirm") by done.
      rewrite (proj2 (isType_eq "Data" m) Hm). simpl.
      split; [|by split].
      destruct (existsb (isType "Confirm") pre); [done|].
      by rewrite <- app_assoc in Hgo.
    + rewrite Hm. simpl.
      destruct (IH {| items := [] |} [] later w' Hc' Hd') as (t & Hgo & Ht & Hlen).
      destruct (emit_delivers "afterAcknowledgment" (BatchArg batch) w') as (b & He);
        [done|].
      exists (Emit "afterAcknowledgment" (BatchArg batch)
                (listeners (_emitter w') "afterAcknowledgment") :: t).
      rewrite (proj2 (isType_eq "Confirm" m) Hm). simpl.
      split; [|split; [by constructor|by rewrite Hlen]].
      unfold bind. rewrite He.
      destruct Hgo as (w2 & Hc2 & Hd2 & ->).
      exists w2. split; [done|]. split; [done|].
      unfold result, state, trace; simpl.
      by destruct (existsb (isType "Confirm") pre).
    + rewrite Hm. simpl.
      destruct (IH batch acc later w' Hc' Hd') as (t & Hgo & Ht & Hlen).
      exists t.
      rewrite (isType_other "ConnectionStatus" "Confirm") by done.
      rewrite (isType_other "ConnectionStatus" "Data") by done. simpl.
      split; [|by split].
      unfold bind. rewrite assertConnectionState_accepted by done.
      destruct Hgo as (w2 & Hc2 & Hd2 & Hgo).
      exists w2. split; [done|]. split; [done|].
      rewrite Hgo. unfold result, state, trace; simpl.
      by destruct (existsb (isType "Confirm") pre).
Qed.

(** A read that returns null, or during which the worker is disposed of,
    ends the loop with what it has. *)
Lemma read_null_or_disposed batch acc read later x w :
  _processingCancelled w = false ->
  _disposed w = false ->
  settled read = Resolved x ->
  x = None \/ CallDispose ∈ meanwhile read ->
  result (readBatchLoop batch acc (read :: later) w) = Normal (acc, batch).
Proof.
  intros Hc Hd Hs Hx. simpl. unfold bind at 1, this. simpl. rewrite Hc.
  unfold bind at 1, await. unfold bind at 1. rewrite Hs.
  destruct Hx as [->|Hin].
  - destruct (interleave_returns (meanwhile read) w) as (w1 & t1 & ->). simpl.
    unfold bind, this, ret, result. by simpl.
  - destruct (interleave_disposes (meanwhile read) w Hd Hin) as (w1 & t1 & -> & Hc1 & _).
    simpl. unfold bind, this, ret, result. simpl. rewrite Hc1. by destruct x.
Qed.

(** X15. When a read returns null, or the user disposes of the worker while
    a frame is awaited, the pump returns without error the [Data] frames
    received since the last [Confirm]; the frame that arrived meanwhile, if
    any, is dropped. *)
Theorem pump_returns_what_it_has_when_disposed :
  forall (w : SubscriptionWorker) (batch : SubscriptionBatch)
         (reads : list (Await (option ServerMessage))) (pre : list ServerMessage)
         (lastRead : Await (option ServerMessage)) (x : option ServerMessage)
         (later : list (Await (option ServerMessage))),
    _processingCancelled w = false ->
    _disposed w = false ->
    Forall2 delivers reads pre ->
    Forall (fun m => keepsReading m = true) pre ->
    settled lastRead = Resolved x ->
    x = None \/ CallDispose ∈ meanwhile lastRead ->
    result (_readSingleSubscriptionBatchFromServer batch (reads ++ lastRead :: later) w)
    = Normal (dataFrames (sinceLastConfirm pre),
              if existsb (isType "Confirm") pre then {| items := [] |} else batch).
Proof.
  intros w batch reads pre lastRead x later Hc Hd Hreads Hpre Hs Hx.
  unfold _readSingleSubscriptionBatchFromServer.
  destruct (readBatchLoop_prefix_effects reads pre Hreads Hpre batch [] (lastRead :: later)
              w Hc Hd) as (t & (w' & Hc' & Hd' & ->) & _).
  match goal with |- context [readBatchLoop ?b ?a _ w'] =>
    pose proof (read_null_or_disposed b a lastRead later x w' Hc' Hd' Hs Hx) as Hr end.
  unfold result in *. simpl in *. rewrite Hr.
  destruct (existsb (isType "Confirm") pre) eqn:Hex; [done|].
  by rewrite sinceLastConfirm_none.
Qed.

(** X16. Up to the end of a batch the pump emits [afterAcknowledgment] once
    for each [Confirm] frame it read, and has no other effect. *)
Theorem afterAcknowledgment_is_emitted_once_per_Confirm :
  forall (w : SubscriptionWorker) (batch : SubscriptionBatch)
         (reads : list (Await (option ServerMessage))) (pre : list ServerMessage)
         (lastRead : Await (option ServerMessage)) (eob : ServerMessage)
         (later : list (Await (option ServerMessage))),
    _processingCancelled w = false ->
    _disposed w = false ->
    Forall2 delivers reads pre ->
    Forall (fun m => keepsReading m = true) pre ->
    delivers lastRead eob ->
    ServerMessage.type eob = "EndOfBatch" ->
    let run := _readSingleSubscriptionBatchFromServer batch
                 (reads ++ lastRead :: later) w in
    Forall (fun e => isAcknowledgment e = true) (trace run)
    /\ length (trace run) = length (List.filter (isType "Confirm") pre).
Proof.
  intros w batch reads pre lastRead eob later Hc Hd Hreads Hpre Hlast Heob run.
  subst run. unfold _readSingleSubscriptionBatchFromServer.
  destruct (readBatchLoop_prefix_effects reads pre Hreads Hpre batch [] (lastRead :: later)
              w Hc Hd) as (t & (w' & Hc' & Hd' & ->) & Ht & Hlen).
  destruct (readBatchLoop_step
              (if existsb (isType "Confirm") pre then {| items := [] |} else batch)
              (if existsb (isType "Confirm") pre then dataFrames (sinceLastConfirm pre)
               else [] ++ dataFrames pre)
              lastRead later eob w' Hc' Hd' Hlast) as (w2 & _ & _ & ->).
  rewrite Heob. simpl. unfold trace; simpl. rewrite app_nil_r. by split.
Qed.

(** X17. An [Error] frame makes the pump throw InvalidOperationException, a
    frame of unrecognized type InvalidArgumentException; the reconnect
    policy retries both while the erroneous period is not exceeded. *)
Theorem server_error_frame_is_retried :
  forall (w : SubscriptionWorker) (batch : SubscriptionBatch)
         (reads : list (Await (option ServerMessage))) (pre : list ServerMessage)
         (lastRead : Await (option ServerMessage)) (bad : ServerMessage)
         (later : list (Await (option ServerMessage))),
    _processingCancelled w = false ->
    _disposed w = false ->
    Forall2 delivers reads pre ->
    Forall (fun m => keepsReading m = true) pre ->
    delivers lastRead bad ->
    ServerMessage.type bad = "Error" \/ recognized (ServerMessage.type bad) = false ->
    exists e,
      result (_readSingleSubscriptionBatchFromServer batch (reads ++ lastRead :: later) w)
      = Throw e
      /\ name e = (if isType "Error" bad then "InvalidOperationException"
                   else "InvalidArgumentException")
      /\ forall now topologyNodes w',
           windowExceeded now w' = false ->
           _shouldTryToReconnect now topologyNodes e w'
           = (Normal true, failureRecorded now w', []).
Proof.
  intros w batch reads pre lastRead bad later Hc Hd Hreads Hpre Hlast Hbad.
  unfold _readSingleSubscriptionBatchFromServer.
  destruct (readBatchLoop_prefix_effects reads pre Hreads Hpre batch [] (lastRead :: later)
              w Hc Hd) as (t & (w' & Hc' & Hd' & ->) & _).
  match goal with |- context [readBatchLoop ?b ?a _ w'] =>
    destruct (readBatchLoop_step b a lastRead later bad w' Hc' Hd' Hlast)
      as (w2 & _ & _ & ->) end.
  cbv zeta. unfold result; simpl.
  assert (forall e, name e = "InvalidOperationException" \/ name e = "InvalidArgumentException" ->
            forall now nodes w0, windowExceeded now w0 = false ->
              _shouldTryToReconnect now nodes e w0
              = (Normal true, failureRecorded now w0, [])) as Hretry.
  { intros e He now nodes w0 Hw.
    pose proof (shouldTryToReconnect_other now nodes e w0) as H.
    rewrite Hw in H. by destruct He as [He|He]; apply H; rewrite He. }
  destruct Hbad as [Hbad|Hbad].
  - unfold isType. rewrite Hbad. simpl.
    eexists. split; [reflexivity|]. split; [reflexivity|]. apply Hretry. by left.
  - unfold recognized in Hbad. repeat (apply orb_false_iff in Hbad as [Hbad ?]).
    unfold isType.
    repeat match goal with H : String.eqb _ _ = false |- _ => rewrite H; clear H end.
    simpl. eexists. split; [reflexivity|]. split; [reflexivity|]. apply Hretry. by right.
Qed.

(** ** The dispatch and the acknowledgement *)

Lemma callbacks_below_zero (n : Z) (invocations : list (nat * option Error)) :
  (n <= 0)%Z ->
  promise (callbacks {| listenerCount := n; promise := Unsettled |} invocations)
  = match firstError invocations with
    | Some err => Rejected err
    | None => Unsettled
    end.
Proof.
  revert n. induction invocations as [|[i [e|]] calls IH]; intros n Hn; [done| |].
  - unfold callbacks; simpl.
    fold (callbacks {| listenerCount := n; promise := Rejected e |} calls).
    by rewrite callbacks_settled.
  - unfold callbacks; simpl. destruct (n - 1 =? 0)%Z eqn:Hz; [lia|].
    apply (IH (n - 1)%Z). lia.
Qed.

(** X18. With no listener for ["batch"] the dispatch never resolves: it
    stays pending, unless the completion callback is invoked with an error,
    which rejects it. *)
Theorem dispatch_without_listeners_never_resolves :
  forall (w : SubscriptionWorker) (batch : SubscriptionBatch)
         (invocations : list (nat * option Error)),
    listeners (_emitter w) "batch" = [] ->
    result (_emitBatchAndWaitForProcessing batch invocations w)
    = Normal (match firstError invocations with
              | Some err => Rejected err
              | None => Unsettled
              end).
Proof.
  intros w batch invocations Hl. rewrite emitBatch_runs.
  rewrite callbacks_below_zero; [done|].
  unfold emitter_listenerCount. by rewrite Hl.
Qed.

(** X19. The dispatch settles once: whatever the completion callback is
    invoked with after the promise has settled changes nothing. *)
Theorem dispatch_settles_once :
  forall (w : SubscriptionWorker) (batch : SubscriptionBatch)
         (invocations later : list (nat * option Error)) (p : Settled unit),
    result (_emitBatchAndWaitForProcessing batch invocations w) = Normal p ->
    p <> Unsettled ->
    result (_emitBatchAndWaitForProcessing batch (invocations ++ later) w) = Normal p.
Proof.
  intros w batch invocations later p Hp Hsettled.
  rewrite emitBatch_runs in *. injection Hp as <-.
  unfold callbacks in *. rewrite fold_left_app.
  match goal with |- context [fold_left ?f later ?d] =>
    change (fold_left f later d) with (callbacks d later) end.
  by rewrite callbacks_settled.
Qed.

Lemma emitBatch_run (batch : SubscriptionBatch)
    (invocations : list (nat * option Error)) (w : SubscriptionWorker) :
  _emitBatchAndWaitForProcessing batch invocations w
  = (Normal (promise (callbacks
               {| listenerCount := emitter_listenerCount (_emitter w) "batch";
                  promise := Unsettled |} invocations)),
     w, [Emit "batch" (BatchArg batch) (listeners (_emitter w) "batch")]).
Proof.
  unfold _emitBatchAndWaitForProcessing, emit, bind, this, effect, ret; simpl.
  by destruct (listeners (_emitter w) "batch").
Qed.

(** X20. When the subscribers have processed the batch, or one of them
    failed and [ignoreSubscriberErrors] is set, the batch is acknowledged:
    if the socket is writable, one Acknowledge frame with the change vector
    is written and the promise follows the outcome of that write; if it is
    not, nothing is written and the promise resolves. *)
Theorem processed_batch_is_acknowledged_once :
  forall (w : SubscriptionWorker) (batch : SubscriptionBatch)
         (invocations : list (nat * option Error)) (whileProcessing : list UserCall)
         (lastReceivedChangeVector : option string) (socket : nat) (writable : bool)
         (written : Await (option Error)),
    (result (_emitBatchAndWaitForProcessing batch invocations w) = Normal (Resolved tt)
     \/ (ignoreSubscriberErrors (_options w) = true
         /\ exists err, result (_emitBatchAndWaitForProcessing batch invocations w)
                        = Normal (Rejected err))) ->
    let run := notifiedSubscriber batch invocations whileProcessing
                 lastReceivedChangeVector (Some socket) writable written w in
    if writable then
      List.filter isWrite (trace run)
      = [SocketWrite (AcknowledgeFrame lastReceivedChangeVector)]
      /\ result run = match settled written with
                      | Resolved None => Normal tt
                      | Resolved (Some e) | Rejected e => Throw e
                      | Unsettled => Pending
                      end
    else
      List.filter isWrite (trace run) = [] /\ result run = Normal tt.
Proof.
  intros w batch invocations calls cv socket writable written Hdispatched run.
  rewrite emitBatch_runs in Hdispatched.
  destruct run as [[r s] t] eqn:Hrun. subst run. unfold notifiedSubscriber in Hrun.
  unfold bind at 1 in Hrun. rewrite emitBatch_run in Hrun.
  set (dispatched := promise (callbacks _ invocations)) in *.
  destruct (await_run {| meanwhile := calls; settled := dispatched |} w)
    as (w1 & t1 & Hawait & Ho1 & Ht1).
  apply ends_are_no_writes in Ht1.
  assert (exists w2,
             try_catch (await {| meanwhile := calls; settled := dispatched |})
               (fun err =>
                  w <- this;;
                  if negb (ignoreSubscriberErrors (_options w)) then
                    throwError "SubscriberErrorException"
                      ("Subscriber threw an exception in subscription "
                       +:+ subscriptionName (_options w)) (Some err)
                  else ret tt) w
             = (Normal tt, w2, t1)) as (w2 & Hcatch).
  { unfold try_catch. rewrite Hawait. simpl.
    destruct Hdispatched as [[= ->]|(Hig & err & [= ->])]; [by eauto|].
    unfold bind, this, ret; simpl. rewrite Ho1, Hig. simpl. rewrite app_nil_r. eauto. }
  unfold bind at 1 in Hrun. rewrite Hcatch in Hrun.
  unfold result, trace. simpl.
  destruct writable.
  - unfold _sendAck in Hrun. unfold bind at 1, effect in Hrun.
    destruct (await_run written w2) as (w3 & t3 & Hw & _ & Ht3).
    apply ends_are_no_writes in Ht3.
    unfold bind at 1 in Hrun. rewrite Hw in Hrun.
    destruct (settled written) as [[e|]|e|]; simpl in Hrun;
      injection Hrun as <- <- <-;
      rewrite ?app_nil_r; simpl; rewrite !List.filter_app; simpl;
      rewrite ?Ht1, ?Ht3; by simpl.
  - unfold ret in Hrun. simpl in Hrun. injection Hrun as <- <- <-.
    simpl. by rewrite List.filter_app, Ht1.
Qed.

(** X21. When a subscriber fails and [ignoreSubscriberErrors] is not set,
    the promise rejects with a SubscriberErrorException that wraps the
    subscriber's error, no acknowledgement is written, and the reconnect
    policy does not retry. *)
Theorem subscriber_error_ends_the_subscription_unacknowledged :
  forall (w : SubscriptionWorker) (batch : SubscriptionBatch)
         (invocations : list (nat * option Error)) (whileProcessing : list UserCall)
         (lastReceivedChangeVector : option string) (tcpClientCopy : option nat)
         (writable : bool) (written : Await (option Error)) (err : Error),
    ignoreSubscriberErrors (_options w) = false ->
    result (_emitBatchAndWaitForProcessing batch invocations w) = Normal (Rejected err) ->
    let run := notifiedSubscriber batch invocations whileProcessing
                 lastReceivedChangeVector tcpClientCopy writable written w in
    exists e,
      result run = Throw e
      /\ name e = "SubscriberErrorException"
      /\ inner e = Some err
      /\ List.filter isWrite (trace run) = []
      /\ forall now topologyNodes,
           result (_shouldTryToReconnect now topologyNodes e (state run)) = Normal false.
Proof.
  intros w batch invocations calls cv socket writable written err Hig Hdispatched run.
  rewrite emitBatch_runs in Hdispatched.
  destruct run as [[r s] t] eqn:Hrun. subst run. unfold notifiedSubscriber in Hrun.
  unfold bind at 1 in Hrun. rewrite emitBatch_run in Hrun.
  injection Hdispatched as Hd. rewrite Hd in Hrun.
  destruct (await_run (A := unit) {| meanwhile := calls; settled := Rejected err |} w)
    as (w1 & t1 & Hawait & Ho1 & Ht1).
  apply ends_are_no_writes in Ht1. simpl in Hawait.
  unfold bind at 1, try_catch in Hrun. rewrite Hawait in Hrun.
  unfold bind, this, throwError, throw in Hrun; simpl in Hrun.
  rewrite Ho1, Hig in Hrun. simpl in Hrun. injection Hrun as <- <- <-.
  unfold result, state, trace; simpl.
  eexists. split; [reflexivity|]. split; [reflexivity|]. split; [reflexivity|].
  split; [by rewrite app_nil_r|].
  intros now nodes. by rewrite shouldTryToReconnect_fatal.
Qed.

(** ** Runs of the reconnect loop *)

#[local] Instance performsNoRetry_stepwise : Stepwise performsNoRetry.
Proof.
  split; unfold performsNoRetry; [by constructor|].
  intros. by apply Forall_app.
Qed.

Lemma noRetry_interleave (calls : list UserCall) :
  Always performsNoRetry (interleave calls).
Proof.
  intros w. unfold performsNoRetry.
  eapply Forall_impl; [apply interleave_only_ends|]. by intros [].
Qed.

Ltac stepwise_noRetry :=
  stepwise;
  try first
    [ apply noRetry_interleave
    | intros ?; unfold performsNoRetry, update, effect, state, trace; simpl;
      by repeat constructor ].

Lemma noRetry_dispatchLoop (rounds : list PipelineRound) :
  Always performsNoRetry (dispatchLoop rounds).
Proof. induction rounds as [|round rounds IH]; simpl; stepwise_noRetry; done. Qed.

Lemma noRetry_attempt (it : Iteration) :
  Always performsNoRetry
    (_closeTcpClient;;;
     try_finally (_processSubscription (processing it)) (interleave (onResume it));;;
     ret true).
Proof.
  unfold _processSubscription. stepwise_noRetry; by apply noRetry_dispatchLoop.
Qed.

Lemma options_processSubscription s : Always (keeps _options) (_processSubscription s).
Proof. unfold _processSubscription. stepwise_all. Qed.

Lemma options_shouldTryToReconnect now nodes ex :
  Always (keeps _options) (_shouldTryToReconnect now nodes ex).
Proof. unfold _shouldTryToReconnect, _assertLastConnectionFailure. stepwise_all. Qed.

Lemma options_attempt (it : Iteration) :
  Always (keeps _options)
    (_closeTcpClient;;;
     try_finally (_processSubscription (processing it)) (interleave (onResume it));;;
     ret true).
Proof. stepwise_all; auto using options_processSubscription. Qed.

Lemma no_retry_effects (t : list Effect) :
  Forall (fun e => retryEffect e = false) t -> List.filter retryEffect t = [].
Proof.
  induction 1 as [|e t He Ht IH]; [done|]. simpl. by rewrite He.
Qed.

(** X22. In every run of the reconnect loop the sleeps and the emissions of
    [connectionRetry] come in pairs: a sleep of
    [timeToWaitBeforeConnectionRetry], then the emission, with an error. *)
Theorem every_retry_follows_its_sleep :
  forall (its : list Iteration) (w : SubscriptionWorker),
    sleepsThenRetries (timeToWaitBeforeConnectionRetry (_options w))
      (List.filter retryEffect (trace (_runSubscriptionAsync its w))) = true.
Proof.
  induction its as [|it later IH]; intros w.
  { simpl. unfold bind, this, pending, ret, trace. simpl.
    by destruct (_processingCancelled w). }
  destruct (_processingCancelled w) eqn:Hc.
  { by rewrite runSubscriptionAsync_cancelled. }
  pose proof (runSubscriptionAsync_other_turns it later w Hc) as Hother.
  pose proof (runSubscriptionAsync_failed_iteration it later w) as Hfailed.
  pose proof (noRetry_attempt it w) as Hquiet.
  pose proof (options_attempt it w) as Hopt.
  unfold performsNoRetry, keeps, state, trace in Hquiet, Hopt.
  match type of Hother with match ?body with _ => _ end =>
    destruct body as [[[b|error|] w1] t1] eqn:Hbody end; simpl in Hquiet, Hopt.
  - rewrite Hother. unfold trace at 1. simpl.
    rewrite List.filter_app, (no_retry_effects t1) by done. simpl.
    rewrite <- Hopt. apply IH.
  - destruct (_processingCancelled w1) eqn:Hc1.
    + rewrite (Hother eq_refl).
      destruct (_disposed w1); unfold trace; simpl; by rewrite no_retry_effects.
    + specialize (Hfailed w1 error t1 Hc eq_refl Hc1).
      pose proof (proj1 (shouldTryToReconnect_answers (now it) (topologyNodes it) error w1))
        as Hsilent.
      pose proof (options_shouldTryToReconnect (now it) (topologyNodes it) error w1)
        as Hopt2.
      unfold keeps, state, trace in Hsilent, Hopt2.
      destruct (_shouldTryToReconnect (now it) (topologyNodes it) error w1)
        as [[[[|]|e2|] w2] t2] eqn:Hcls; simpl in *; subst t2;
        try (rewrite Hfailed; unfold trace; simpl; rewrite app_nil_r;
             by rewrite no_retry_effects).
      destruct Hfailed as (w3 & t3 & Hi & Hrun). rewrite Hrun.
      pose proof (noRetry_interleave (duringDelay it) w2) as Hquiet3.
      pose proof (always_interleave (keeps _options) (duringDelay it) w2) as Hopt3.
      unfold performsNoRetry, keeps, state, trace in Hquiet3, Hopt3.
      rewrite Hi in Hquiet3, Hopt3. simpl in Hquiet3, Hopt3.
      unfold trace at 1. simpl.
      rewrite List.filter_app, (no_retry_effects t1) by done. simpl.
      rewrite List.filter_app, (no_retry_effects t3) by done. simpl.
      rewrite Hopt, Z.eqb_refl. simpl.
      specialize (IH w3). rewrite Hopt3, Hopt2, Hopt in IH. exact IH.
  - rewrite Hother. unfold trace; simpl. by rewrite no_retry_effects.
Qed.

#[local] Instance staysCancelledByDispose_stepwise : Stepwise staysCancelledByDispose.
Proof. split; unfold staysCancelledByDispose; auto. Qed.

#[local] Instance staysCancelledByDispose_harmless : Harmless staysCancelledByDispose.
Proof.
  split.
  - intros e He w H. exact H.
  - run_dispose w; unfold staysCancelledByDispose, cancelledByDispose; simpl; auto.
  - intros g w H. exact H.
Qed.

Ltac stepwise_flags :=
  stepwise;
  try first
    [ stepwise_leaf
    | apply always_dispatchLoop; tc_solve
    | intros ?;
      unfold staysCancelledByDispose, cancelledByDispose, update, effect, state, trace;
      simpl; by auto ].

Lemma cancelledByDispose_attempt (it : Iteration) :
  Always staysCancelledByDispose
    (_closeTcpClient;;;
     try_finally (_processSubscription (processing it)) (interleave (onResume it));;;
     ret true).
Proof. unfold _processSubscription. stepwise_flags. Qed.

(** A classification that says "retry" leaves both flags as they were. *)
Lemma shouldTryToReconnect_retry_keeps_flags now nodes ex w w2 t2 :
  _shouldTryToReconnect now nodes ex w = (Normal true, w2, t2) ->
  _processingCancelled w2 = _processingCancelled w /\ _disposed w2 = _disposed w.
Proof.
  intros Hrun.
  destruct (fatalName (name ex)) eqn:Hf.
  { rewrite shouldTryToReconnect_fatal in Hrun by done. discriminate. }
  pose proof (disposed_shouldTryToReconnect now nodes ex w) as Hd.
  unfold keeps, state in Hd. rewrite Hrun in Hd. simpl in Hd.
  split; [|done].
  destruct (shouldTryToReconnect_nonfatal now nodes ex w Hf)
    as [(w' & H)|(e & w' & H & _)]; [|congruence].
  clear H.
  destruct (String.eqb (name ex) "SubscriptionDoesNotBelongToNodeException") eqn:H1.
  { apply String.eqb_eq in H1.
    pose proof (shouldTryToReconnect_redirect now nodes ex w H1) as H.
    destruct (windowExceeded now w); [destruct H as (e & H & _); congruence|].
    assert (_processingCancelled (failureRecorded now w) = _processingCancelled w) as Hrec
      by (unfold failureRecorded; by destruct (_lastConnectionFailure w)).
    destruct (appropriateNode ex) as [[|c tag]|];
      try (rewrite H in Hrun; injection Hrun as <- _; exact Hrec).
    destruct (find _ nodes); [|destruct H as (e & H & _); congruence].
    rewrite H in Hrun. injection Hrun as <- _. exact Hrec. }
  apply String.eqb_neq in H1.
  destruct (String.eqb (name ex) "SubscriptionChangeVectorUpdateConcurrencyException")
    eqn:H2.
  { apply String.eqb_eq in H2. rewrite shouldTryToReconnect_concurrency in Hrun by done.
    by injection Hrun as <- _. }
  apply String.eqb_neq in H2.
  pose proof (shouldTryToReconnect_other now nodes ex w H1 H2 Hf) as H.
  destruct (windowExceeded now w); [destruct H as (e & H & _); congruence|].
  rewrite H in Hrun. injection Hrun as <- _.
  unfold failureRecorded. by destruct (_lastConnectionFailure w).
Qed.

(** X23. When [dispose] is the only way the processing was cancelled so far,
    the reconnect loop returns normally only on a disposed worker. *)
Theorem reconnect_loop_returns_only_after_dispose :
  forall (its : list Iteration) (w : SubscriptionWorker),
    cancelledByDispose w ->
    result (_runSubscriptionAsync its w) = Normal tt ->
    _disposed (state (_runSubscriptionAsync its w)) = true.
Proof.
  induction its as [|it later IH]; intros w Hinv Hnormal.
  { destruct (_processingCancelled w) eqn:Hc.
    - rewrite runSubscriptionAsync_cancelled by done. by apply Hinv.
    - simpl in Hnormal. unfold bind, this, pending, result in Hnormal.
      simpl in Hnormal. by rewrite Hc in Hnormal. }
  destruct (_processingCancelled w) eqn:Hc.
  { rewrite runSubscriptionAsync_cancelled by done. by apply Hinv. }
  pose proof (runSubscriptionAsync_other_turns it later w Hc) as Hother.
  pose proof (runSubscriptionAsync_failed_iteration it later w) as Hfailed.
  pose proof (cancelledByDispose_attempt it w Hinv) as Hinv1.
  match type of Hother with match ?body with _ => _ end =>
    destruct body as [[[b|error|] w1] t1] eqn:Hbody end;
    unfold state in Hinv1; simpl in Hinv1.
  - rewrite Hother in *. unfold result, state in *; simpl in *. by apply IH.
  - destruct (_processingCancelled w1) eqn:Hc1.
    + rewrite (Hother eq_refl) in *.
      destruct (_disposed w1) eqn:Hd1; [by unfold state|done].
    + specialize (Hfailed w1 error t1 Hc eq_refl Hc1).
      destruct (_shouldTryToReconnect (now it) (topologyNodes it) error w1)
        as [[[[|]|e2|] w2] t2] eqn:Hcls; simpl in *.
      * destruct Hfailed as (w3 & t3 & Hi & Hrun). rewrite Hrun in *.
        unfold result, state in *; simpl in *. apply IH; [|done].
        apply shouldTryToReconnect_retry_keeps_flags in Hcls as [Hc2 Hd2].
        pose proof (always_interleave staysCancelledByDispose (duringDelay it) w2) as H3.
        unfold staysCancelledByDispose, state in H3. rewrite Hi in H3. simpl in H3.
        apply H3. unfold cancelledByDispose. congruence.
      * by rewrite Hfailed in Hnormal.
      * by rewrite Hfailed in Hnormal.
      * by rewrite Hfailed in Hnormal.
  - by rewrite Hother in Hnormal.
Qed.

(** X24. A [dispose] during the retry delay does not suppress the event:
    [connectionRetry] is emitted after the sleep, then the loop returns
    without another attempt. *)
Theorem dispose_during_the_delay_still_announces_the_retry :
  forall (it : Iteration) (later : list Iteration) (w w1 : SubscriptionWorker)
         (error : Error) (t1 : list Effect),
    _processingCancelled w = false ->
    (_closeTcpClient;;;
     try_finally (_processSubscription (processing it)) (interleave (onResume it));;;
     ret true) w = (Throw error, w1, t1) ->
    _processingCancelled w1 = false ->
    _disposed w1 = false ->
    result (_shouldTryToReconnect (now it) (topologyNodes it) error w1) = Normal true ->
    CallDispose ∈ duringDelay it ->
    exists w3 t3,
      _runSubscriptionAsync (it :: later) w
      = (Normal tt, w3,
         t1 ++ Sleep (timeToWaitBeforeConnectionRetry (_options w1)) :: t3
         ++ [Emit "connectionRetry" (ErrorArg error)
               (listeners (_emitter w3) "connectionRetry")])
      /\ _disposed w3 = true.
Proof.
  intros it later w w1 error t1 Hc Hbody Hc1 Hd1 Hretry Hdispose.
  pose proof (runSubscriptionAsync_failed_iteration it later w w1 error t1 Hc Hbody Hc1)
    as Hturn.
  pose proof (proj1 (shouldTryToReconnect_answers (now it) (topologyNodes it) error w1))
    as Hsilent.
  destruct (_shouldTryToReconnect (now it) (topologyNodes it) error w1)
    as [[r w2] t2] eqn:Hcls.
  unfold result, trace in Hretry, Hsilent. simpl in Hretry, Hsilent. subst r t2.
  destruct (shouldTryToReconnect_retry_keeps_flags _ _ _ _ _ _ Hcls) as [_ Hd2].
  destruct Hturn as (w3 & t3 & Hi & Hrun).
  destruct (interleave_disposes (duringDelay it) w2) as (w3' & t3' & Hi' & Hc3 & Hd3);
    [congruence|done|].
  rewrite Hi in Hi'. injection Hi' as <- <-.
  exists w3, t3. split; [|done].
  rewrite Hrun. rewrite runSubscriptionAsync_cancelled by done.
  unfold result, state, trace. by simpl.
Qed.

Lemma unreachable_attempt (e : Error) (time : Z) (w : SubscriptionWorker) :
  _processingCancelled w = false ->
  _disposed w = false ->
  _tcpClient w = None ->
  (_closeTcpClient;;;
   try_finally (_processSubscription (processing (unreachable e time)))
     (interleave (onResume (unreachable e time)));;;
   ret true) w = (Throw e, w, []).
Proof.
  intros Hc Hd Ht.
  unfold _processSubscription, _connectToServer, _closeTcpClient, try_finally, try_catch,
    await, bind, this, ret, throw; simpl.
  rewrite Ht, Hc. simpl.
  destruct (_redirectNode w); simpl; by rewrite Hd.
Qed.

Lemma shouldTryToReconnect_escalates now nodes ex w :
  name ex <> "SubscriptionDoesNotBelongToNodeException" ->
  name ex <> "SubscriptionChangeVectorUpdateConcurrencyException" ->
  fatalName (name ex) = false ->
  windowExceeded now w = true ->
  _shouldTryToReconnect now nodes ex w
  = (Throw (erroneousPeriodOver (maxErroneousPeriod (_options w)) ex), w, []).
Proof.
  intros H1 H2 Hf Hw. apply String.eqb_neq in H1. apply String.eqb_neq in H2.
  unfold _shouldTryToReconnect. rewrite H1, H2, Hf.
  unfold windowExceeded in Hw.
  unfold _assertLastConnectionFailure, bind, this, throwError, throw; simpl.
  destruct (_lastConnectionFailure w); [|done]. by rewrite Hw.
Qed.

Lemma unreachable_streak (e : Error) (first late : Z) (later : list Iteration)
    (times : list Z) :
  name e <> "SubscriptionDoesNotBelongToNodeException" ->
  name e <> "SubscriptionChangeVectorUpdateConcurrencyException" ->
  fatalName (name e) = false ->
  forall (w : SubscriptionWorker),
    _processingCancelled w = false ->
    _disposed w = false ->
    _tcpClient w = None ->
    _lastConnectionFailure w = Some first ->
    Forall (fun time => (time - first <= maxErroneousPeriod (_options w))%Z) times ->
    (maxErroneousPeriod (_options w) < late - first)%Z ->
    _runSubscriptionAsync (map (unreachable e) (times ++ [late]) ++ later) w
    = (Throw (erroneousPeriodOver (maxErroneousPeriod (_options w)) e), w,
       retries (length times) w e).
Proof.
  intros H1 H2 Hf w Hc Hd Ht Hl Htimes Hlate.
  induction Htimes as [|time times Htime Htimes IH].
  - simpl app. simpl map.
    pose proof (runSubscriptionAsync_failed_iteration (unreachable e late) later w w e []
                  Hc (unreachable_attempt e late w Hc Hd Ht) Hc) as Hturn.
    rewrite shouldTryToReconnect_escalates in Hturn; try done.
    unfold windowExceeded. rewrite Hl. by apply Z.ltb_lt.
  - simpl app. simpl map.
    pose proof (runSubscriptionAsync_failed_iteration (unreachable e time)
                  (map (unreachable e) (times ++ [late]) ++ later) w w e []
                  Hc (unreachable_attempt e time w Hc Hd Ht) Hc) as Hturn.
    pose proof (shouldTryToReconnect_other (now (unreachable e time))
                  (topologyNodes (unreachable e time)) e w H1 H2 Hf) as Hcls.
    assert (windowExceeded (now (unreachable e time)) w = false) as Hw
      by (unfold windowExceeded; rewrite Hl; simpl; by apply Z.ltb_ge).
    rewrite Hw in Hcls.
    assert (failureRecorded (now (unreachable e time)) w = w) as Hrec
      by (unfold failureRecorded; by rewrite Hl).
    rewrite Hrec in Hcls. rewrite Hcls in Hturn.
    destruct Hturn as (w3 & t3 & [= <- <-] & Hrun).
    rewrite Hrun, IH. unfold result, state, trace. by simpl.
Qed.

(** X25. A node that stays out of reach, [TcpUtils.connect] failing each
    time with the same error (neither fatal, nor a redirect, nor a
    concurrency error), on a worker with no failure on record: every failure
    that comes no later than [maxErroneousPeriod] after the first one is
    answered by a sleep and a [connectionRetry]; the first failure that
    comes later ends the loop with the SubscriptionInvalidStateException
    that wraps the error. The period is counted from the first failure,
    whose time stays on record. *)
Theorem unreachable_node_is_retried_until_the_period_is_over :
  forall (e : Error) (first late : Z) (times : list Z) (later : list Iteration)
         (w : SubscriptionWorker),
    name e <> "SubscriptionDoesNotBelongToNodeException" ->
    name e <> "SubscriptionChangeVectorUpdateConcurrencyException" ->
    fatalName (name e) = false ->
    _processingCancelled w = false ->
    _disposed w = false ->
    _tcpClient w = None ->
    _lastConnectionFailure w = None ->
    Forall (fun time => (time - first <= maxErroneousPeriod (_options w))%Z) times ->
    (maxErroneousPeriod (_options w) < late - first)%Z ->
    _runSubscriptionAsync (map (unreachable e) (first :: times ++ [late]) ++ later) w
    = (Throw (erroneousPeriodOver (maxErroneousPeriod (_options w)) e),
       set_lastConnectionFailure (Some first) w,
       retries (S (length times)) w e).
Proof.
  intros e first late times later w H1 H2 Hf Hc Hd Ht Hl Htimes Hlate.
  simpl map. simpl app.
  pose proof (runSubscriptionAsync_failed_iteration (unreachable e first)
                (map (unreachable e) (times ++ [late]) ++ later) w w e []
                Hc (unreachable_attempt e first w Hc Hd Ht) Hc) as Hturn.
  pose proof (shouldTryToReconnect_other (now (unreachable e first))
                (topologyNodes (unreachable e first)) e w H1 H2 Hf) as Hcls.
  assert (windowExceeded (now (unreachable e first)) w = false) as Hw
    by (unfold windowExceeded; by rewrite Hl).
  rewrite Hw in Hcls.
  assert (failureRecorded (now (unreachable e first)) w
          = set_lastConnectionFailure (Some first) w) as Hrec
    by (unfold failureRecorded; by rewrite Hl).
  rewrite Hrec in Hcls. rewrite Hcls in Hturn.
  destruct Hturn as (w3 & t3 & [= <- <-] & Hrun).
  rewrite Hrun.
  rewrite (unreachable_streak e first late later times H1 H2 Hf
             (set_lastConnectionFailure (Some first) w)); try done.
Qed.

(** * The claims on sample inputs *)

(** ** Where the code departs from a claim *)

(** C2 as stated fails when the erroneous period is exceeded: a second
    transport failure, five minutes and a millisecond after the first, is
    of a non-fatal kind and yet is not retried (one sleep and one
    [connectionRetry] only, for the first failure); the loop ends with the
    SubscriptionInvalidStateException that wraps it. *)
Lemma second_transport_failure_after_the_window_is_not_retried :
  exists e,
    result (_runSubscriptionAsync
              [unreachable transportFailure 0; unreachable transportFailure 300001]
              orders) = Throw e
    /\ name e = "SubscriptionInvalidStateException"
    /\ inner e = Some transportFailure
    /\ fatalName (name transportFailure) = false
    /\ trace (_runSubscriptionAsync
                [unreachable transportFailure 0; unreachable transportFailure 300001]
                orders)
       = [Sleep 5000; Emit "connectionRetry" (ErrorArg transportFailure) []].
Proof. eexists. by vm_compute. Qed.

(** C3 as stated fails for the concurrency error: it is classified as
    non-fatal (retry), but the classification neither records the failure
    time when none is recorded, nor escalates when the recorded one is older
    than [maxErroneousPeriod]. *)
Lemma concurrency_error_bypasses_the_window_guard :
  _lastConnectionFailure orders = None
  /\ _shouldTryToReconnect 1000 [nodeA; nodeB] concurrencyFailure orders
     = (Normal true, orders, [])
  /\ windowExceeded 999999 (set_lastConnectionFailure (Some 0) orders) = true
  /\ result (_shouldTryToReconnect 999999 [nodeA; nodeB] concurrencyFailure
               (set_lastConnectionFailure (Some 0) orders))
     = Normal true.
Proof. by vm_compute. Qed.

(** C4 as stated fails in two ways.  The completion callback of the stream
    pipeline emits ['error'] for a parse failure while the socket is not
    destroyed, although the reconnect controller classifies that very error
    as retryable; and no ['end'] follows.  And when no listener is
    registered for ['error'], a fatal error (here: subscription in use) is
    thrown by the emitter instead of being delivered, and ['end'] is never
    emitted. *)
Lemma retryable_error_reaches_error_event_and_end_can_be_lost :
  trace (pipelineCallback (Some parseFailure) false listening)
    = [Emit "error" (ErrorArg parseFailure) [7%nat]]
  /\ result (_shouldTryToReconnect 0 [nodeA; nodeB] parseFailure listening) = Normal true
  /\ result (on "batch" 1%nat [answeredWith (frame "ConnectionStatus" "InUse" "") 0] orders)
     = Throw inUseFailure
  /\ existsb taskEvent
       (trace (on "batch" 1%nat
                 [answeredWith (frame "ConnectionStatus" "InUse" "") 0] orders))
     = false.
Proof. by vm_compute. Qed.

(** C6 as stated fails at the first handshake: it completes with node A,
    and [currentNodeTag] is still null.  And when node A then answers with a
    redirect to B, [currentNodeTag] is "B" as soon as the error is
    classified, while the loop is still waiting to connect to B. *)
Lemma currentNodeTag_is_null_after_first_handshake :
  result (_connectToServer (connectingTo nodeA) orders) = Normal (Some 1%nat)
  /\ clusterTag (requestedNode {| tcpUrl := "tcp://node:38888"; requestedNode := nodeA |})
     = "A"
  /\ currentNodeTag (state (_connectToServer (connectingTo nodeA) orders)) = None
  /\ result (_runSubscriptionAsync [answeredWith (redirectTo "B") 0] orders) = Pending
  /\ currentNodeTag (state (_runSubscriptionAsync [answeredWith (redirectTo "B") 0] orders))
     = Some "B".
Proof. by vm_compute. Qed.

(** C8 as stated fails when the stream ends after [dispose].  The server
    closes the connection: the stream fires ['readable'] with nothing to
    read, so the read waits on; [dispose] is called; then ['end'] fires and
    rejects the read with the SubscriptionException, although the worker is
    disposed. *)
Lemma end_after_dispose_rejects_the_waiting_read :
  result (_readNextObject (V := ServerMessage) {| readable := true; buffered := [] |}
            [Readable []; User CallDispose; StreamEnd] orders)
  = Throw (getError "SubscriptionException"
             "Subscription stream has ended unexpectedly." None)
  /\ _disposed (state (_readNextObject (V := ServerMessage)
                         {| readable := true; buffered := [] |}
                         [Readable []; User CallDispose; StreamEnd] orders)) = true.
Proof. by vm_compute. Qed.

(** ** The theorems at work *)

(** Two documents, a [Confirm] between them, then the end of the batch:
    only the second document is returned, and [batch.items] is empty.  A
    server error after the first document throws. *)
Lemma sample_batch_is_pumped :
  result (_readSingleSubscriptionBatchFromServer
            {| items := [frame "Data" "" "orders/0"] |}
            (map deliver [frame "Data" "" "orders/1"; frame "Confirm" "" "";
                          frame "Data" "" "orders/2"; frame "EndOfBatch" "" ""])
            orders)
  = Normal ([frame "Data" "" "orders/2"], {| items := [] |})
  /\ (exists e,
         result (_readSingleSubscriptionBatchFromServer {| items := [] |}
                   (map deliver [frame "Data" "" "orders/1"; frame "Error" "" ""])
                   orders) = Throw e).
Proof.
  split.
  - apply (proj1 (pump_returns_data_since_last_confirm orders
                    {| items := [frame "Data" "" "orders/0"] |} eq_refl)
             (map deliver [frame "Data" "" "orders/1"; frame "Confirm" "" "";
                           frame "Data" "" "orders/2"])
             [frame "Data" "" "orders/1"; frame "Confirm" "" ""; frame "Data" "" "orders/2"]
             (deliver (frame "EndOfBatch" "" "")) (frame "EndOfBatch" "" "") []).
    + repeat constructor; simpl; by intros ?%elem_of_nil.
    + repeat constructor.
    + split; [reflexivity|]. simpl. by intros ?%elem_of_nil.
    + reflexivity.
  - apply (proj2 (proj2 (proj2 (pump_returns_data_since_last_confirm orders
                                  {| items := [] |} eq_refl)))
             (map deliver [frame "Data" "" "orders/1"])
             [frame "Data" "" "orders/1"]
             (deliver (frame "Error" "" "")) (frame "Error" "" "") []).
    + repeat constructor; simpl; by intros ?%elem_of_nil.
    + repeat constructor.
    + split; [reflexivity|]. simpl. by intros ?%elem_of_nil.
    + left. reflexivity.
Defined.

(** A subscription in use: fatal, rethrown at once.  A node that cannot be
    reached: sleep, [connectionRetry], next attempt. *)
Lemma fatal_error_is_rethrown_on_a_sample :
  result (_runSubscriptionAsync [answeredWith (frame "ConnectionStatus" "InUse" "") 0]
            orders) = Throw inUseFailure
  /\ ((exists w2 w3 t3,
          _shouldTryToReconnect 0 [nodeA; nodeB] transportFailure orders
          = (Normal true, w2, [])
          /\ interleave [] w2 = (Normal tt, w3, t3)
          /\ _runSubscriptionAsync [unreachable transportFailure 0] orders
             = (result (_runSubscriptionAsync [] w3),
                state (_runSubscriptionAsync [] w3),
                [] ++ Sleep 5000 :: t3
                ++ Emit "connectionRetry" (ErrorArg transportFailure)
                     (listeners (_emitter w3) "connectionRetry")
                :: trace (_runSubscriptionAsync [] w3)))
      \/ (exists e w2,
             _runSubscriptionAsync [unreachable transportFailure 0] orders
             = (Throw e, w2, [])
             /\ _processingCancelled w2 = false
             /\ ((name e = "SubscriptionInvalidStateException"
                  /\ windowExceeded 0 orders = true
                  /\ name transportFailure
                     <> "SubscriptionChangeVectorUpdateConcurrencyException")
                 \/ (name e = "InvalidOperationException"
                     /\ name transportFailure
                        = "SubscriptionDoesNotBelongToNodeException")))).
Proof.
  split.
  - rewrite (proj1 (fatal_errors_stop_other_errors_retry_unless_escalated
                      (answeredWith (frame "ConnectionStatus" "InUse" "") 0) []
                      orders
                      (state (_processSubscription
                                (processing
                                   (answeredWith (frame "ConnectionStatus" "InUse" "") 0))
                                orders))
                      inUseFailure
                      (trace (_processSubscription
                                (processing
                                   (answeredWith (frame "ConnectionStatus" "InUse" "") 0))
                                orders))
                      eq_refl ltac:(vm_compute; reflexivity) eq_refl)
               eq_refl).
    reflexivity.
  - apply (proj2 (fatal_errors_stop_other_errors_retry_unless_escalated
                    (unreachable transportFailure 0) [] orders orders transportFailure []
                    eq_refl ltac:(vm_compute; reflexivity) eq_refl)
             eq_refl).
Defined.

(** A first transport failure at time 1000 is put on record; one that comes
    more than five minutes after the recorded failure ends the loop; an
    accepted connection clears the record. *)
Lemma first_failure_is_recorded_on_a_sample :
  _lastConnectionFailure
    (state (_shouldTryToReconnect 1000 [nodeA; nodeB] transportFailure orders))
  = Some 1000
  /\ (exists e,
         _runSubscriptionAsync [unreachable transportFailure 300001]
           (set_lastConnectionFailure (Some 0) orders)
         = (Throw e, set_lastConnectionFailure (Some 0) orders, [])
         /\ name e = "SubscriptionInvalidStateException")
  /\ _lastConnectionFailure
       (state (_processSubscription
                 (processing (answeredWith (frame "ConnectionStatus" "Accepted" "") 0))
                 (set_lastConnectionFailure (Some 0) orders)))
     = None.
Proof.
  split; [|split].
  - apply (proj1 erroneous_window_is_guarded 1000 [nodeA; nodeB] transportFailure orders).
    + reflexivity.
    + discriminate.
  - apply (proj1 (proj2 erroneous_window_is_guarded)
             (unreachable transportFailure 300001) []
             (set_lastConnectionFailure (Some 0) orders)
             (set_lastConnectionFailure (Some 0) orders) transportFailure []).
    + reflexivity.
    + vm_compute. reflexivity.
    + reflexivity.
    + reflexivity.
    + discriminate.
    + reflexivity.
  - apply (proj2 (proj2 erroneous_window_is_guarded)
             (processing (answeredWith (frame "ConnectionStatus" "Accepted" "") 0))
             (set_lastConnectionFailure (Some 0) orders)
             (state (_connectToServer (connectingTo nodeA)
                       (set_lastConnectionFailure (Some 0) orders)))
             (Some 1%nat)
             (trace (_connectToServer (connectingTo nodeA)
                       (set_lastConnectionFailure (Some 0) orders)))
             (frame "ConnectionStatus" "Accepted" "")).
    + reflexivity.
    + vm_compute. reflexivity.
    + reflexivity.
    + reflexivity.
    + reflexivity.
    + reflexivity.
Defined.

(** With a listener for ['error'], the loop of a subscription in use emits
    neither task event itself. *)
Lemma task_events_on_a_sample :
  Forall (fun e => taskEvent e = false)
    (trace (_runSubscriptionAsync [answeredWith (frame "ConnectionStatus" "InUse" "") 0]
              listening)).
Proof.
  apply (proj1 (proj1 task_emits_error_only_for_the_failure_then_end
                  [answeredWith (frame "ConnectionStatus" "InUse" "") 0] listening
                  ltac:(intros H; vm_compute in H; discriminate))).
Defined.

(** A redirect to B, known to the topology, makes B the current node; the
    handshake with A had left the tag null; and when the request to B then
    fails, the tag is null again. *)
Lemma redirect_sets_currentNodeTag_on_a_sample :
  currentNodeTag (state (_shouldTryToReconnect 0 [nodeA; nodeB] redirectedToB orders))
  = Some "B"
  /\ currentNodeTag (state (_connectToServer (connectingTo nodeA) orders))
     = currentNodeTag orders
  /\ result (_connectToServer (endpointFails transportFailure) redirectedOrders)
     = Throw transportFailure
  /\ currentNodeTag
       (state (_connectToServer (endpointFails transportFailure) redirectedOrders))
     = None.
Proof.
  split; [|split].
  - apply (proj2 (proj1 (proj2 (proj2 (proj2 (proj2 (proj2 (proj2
                    currentNodeTag_is_the_redirect_target))))))
                    0 [nodeA; nodeB] redirectedToB orders "B" nodeB
                    eq_refl eq_refl eq_refl ltac:(discriminate) eq_refl)).
  - apply (proj1 (proj2 (proj2 currentNodeTag_is_the_redirect_target))
             (connectingTo nodeA) orders (Some 1%nat)).
    reflexivity.
  - apply (proj1 (proj2 (proj2 (proj2 (proj2 currentNodeTag_is_the_redirect_target))))
             (endpointFails transportFailure) redirectedOrders nodeB transportFailure);
      reflexivity.
Defined.

(** Two subscribers: two clean completions resolve the dispatch; a failing
    second subscriber rejects it. *)
Lemma sample_dispatch_is_latched :
  (exists completed later,
      [(0%nat, None); (1%nat, None)] = completed ++ later
      /\ Forall (fun call : nat * option Error => snd call = None) completed
      /\ Z.of_nat (length completed)
         = emitter_listenerCount (_emitter twoSubscribers) "batch")
  /\ (exists err,
         result (_emitBatchAndWaitForProcessing {| items := [] |}
                   [(0%nat, None); (1%nat, Some subscriberFailure)] twoSubscribers)
         = Normal (Rejected err))
  /\ result (_emitBatchAndWaitForProcessing {| items := [] |}
               [(0%nat, None); (1%nat, Some subscriberFailure)] twoSubscribers)
     = Normal (Rejected subscriberFailure).
Proof.
  split; [|split].
  - apply (proj1 (dispatch_waits_for_every_listener twoSubscribers {| items := [] |}
                    [(0%nat, None); (1%nat, None)])).
    vm_compute. reflexivity.
  - apply (proj1 (proj2 (dispatch_waits_for_every_listener twoSubscribers
                           {| items := [] |}
                           [(0%nat, None); (1%nat, Some subscriberFailure)]))).
    + compute_done.
    + repeat constructor.
    + right. left. discriminate.
  - apply (proj2 (proj2 (dispatch_waits_for_every_listener twoSubscribers
                           {| items := [] |}
                           [(0%nat, None); (1%nat, Some subscriberFailure)]))
             [(0%nat, None)] 1%nat subscriberFailure []).
    + reflexivity.
    + vm_compute. reflexivity.
Defined.

(** [dispose] during a read of an empty stream, then ['readable']: null.  A
    read on a disposed worker: null, although the stream has ended.  The
    end of the stream on a worker in use: the SubscriptionException. *)
Lemma read_after_dispose_on_a_sample :
  result (_readNextObject (V := ServerMessage) {| readable := true; buffered := [] |}
            [User CallDispose; Readable []; StreamEnd] orders)
  = Normal (None, {| readable := true; buffered := [] |})
  /\ _readNextObject (V := ServerMessage) {| readable := true; buffered := [] |}
       [StreamEnd] (state (dispose orders))
     = (Normal (None, {| readable := true; buffered := [] |}), state (dispose orders), [])
  /\ _readNextObject (V := ServerMessage) {| readable := true; buffered := [] |}
       [StreamEnd] orders
     = (Throw (getError "SubscriptionException"
                 "Subscription stream has ended unexpectedly." None), orders, []).
Proof.
  split; [|split].
  - apply (proj1 (proj2 (read_is_null_once_disposed_but_end_rejects_a_waiting_read
                           ServerMessage orders {| readable := true; buffered := [] |}))
             [] [StreamEnd] eq_refl eq_refl).
    right. reflexivity.
  - apply (proj1 (read_is_null_once_disposed_but_end_rejects_a_waiting_read
                    ServerMessage (state (dispose orders))
                    {| readable := true; buffered := [] |}) [StreamEnd]).
    left. reflexivity.
  - apply (proj1 (proj2 (proj2 (read_is_null_once_disposed_but_end_rejects_a_waiting_read
                                  ServerMessage orders
                                  {| readable := true; buffered := [] |})))
             [StreamEnd] eq_refl eq_refl).
    right. reflexivity.
Defined.

(** ** The further properties at work *)


(** [on("error", 7)], then [off("error", 7)]: no listener is left. *)
Lemma on_then_off_on_a_sample :
  result ((on "error" 7%nat [];;; off "error" 7%nat) orders) = Normal tt
  /\ listeners (_emitter (state ((on "error" 7%nat [];;; off "error" 7%nat) orders))) "error"
     = listeners (_emitter orders) "error"
  /\ (7%nat ∉ listeners (_emitter orders) "error" ->
      listeners (_emitter (state (off "error" 7%nat orders))) "error"
      = listeners (_emitter orders) "error").
Proof.
  apply (off_undoes_on orders "error" 7%nat [] "error").
  left. discriminate.
Defined.

(** A subscription in use: the error is fatal. *)
Lemma in_use_status_is_fatal_on_a_sample :
  exists e,
    _assertConnectionState (frame "ConnectionStatus" "InUse" "") orders
    = (Throw e, orders, [])
    /\ name e = "SubscriptionInUseException"
    /\ forall now topologyNodes,
         _shouldTryToReconnect now topologyNodes e orders
         = (Normal false, set_processingCancelled true orders, []).
Proof.
  apply (refusing_statuses_end_the_subscription (frame "ConnectionStatus" "InUse" "")
           orders "SubscriptionInUseException" eq_refl).
  unfold refusals. constructor.
Defined.

(** Node A redirects to B, which the topology knows: B becomes the
    redirect node. *)
Lemma redirect_to_a_known_node_on_a_sample :
  exists e,
    _assertConnectionState (redirectTo "B") orders = (Throw e, orders, [])
    /\ name e = "SubscriptionDoesNotBelongToNodeException"
    /\ appropriateNode e = Some "B"
    /\ forall now topologyNodes,
         windowExceeded now orders = false ->
         match find (fun x => String.eqb (clusterTag x) "B") topologyNodes with
         | Some node =>
             _shouldTryToReconnect now topologyNodes e orders
             = (Normal true, set_redirectNode (Some node) (failureRecorded now orders), [])
             /\ clusterTag node = "B"
         | None =>
             exists e',
               _shouldTryToReconnect now topologyNodes e orders
               = (Throw e', failureRecorded now orders, [])
               /\ name e' = "InvalidOperationException"
         end.
Proof.
  apply (redirect_status_selects_the_named_node (redirectTo "B") orders (Some "B")
           eq_refl eq_refl eq_refl).
Defined.

(** A subscription in use: the attempt throws, and it has ended the socket
    and the parser. *)
Lemma refused_connection_is_closed_on_a_sample :
  exists t2 t3,
    trace (_processSubscription
             (processing (answeredWith (frame "ConnectionStatus" "InUse" "") 0)) orders)
    = trace (_connectToServer (connectingTo nodeA) orders)
      ++ t2 ++ SocketEnd 1%nat :: ParserEnd :: t3.
Proof.
  apply (finished_connection_has_ended_socket_and_parser
           (processing (answeredWith (frame "ConnectionStatus" "InUse" "") 0))
           orders (state (_connectToServer (connectingTo nodeA) orders)) 1%nat
           (trace (_connectToServer (connectingTo nodeA) orders)) eq_refl).
  - vm_compute. reflexivity.
  - vm_compute. discriminate.
Defined.

(** A subscription in use: no event is emitted by the attempt. *)
Lemma refused_connection_on_a_sample :
  Forall (fun e => isEmit e = false)
    (trace (_processSubscription
              (processing (answeredWith (frame "ConnectionStatus" "InUse" "") 0))
              listening)).
Proof.
  apply (refused_connection_emits_nothing
           (processing (answeredWith (frame "ConnectionStatus" "InUse" "") 0))
           listening (frame "ConnectionStatus" "InUse" "") eq_refl).
  right. discriminate.
Defined.

(** The subscriber's promise rejects: the loop ends the socket and fails
    with the same error. *)
Lemma failed_notification_on_a_sample :
  exists w' t,
    dispatchLoop [{| notified := undisturbed (Rejected subscriberFailure);
                     incoming := undisturbed Unsettled |}]
      (set_tcpClient (Some 1%nat) orders)
    = (Throw subscriberFailure, w',
       t ++ match _tcpClient (set_tcpClient (Some 1%nat) orders) with
            | Some socket => [SocketEnd socket]
            | None => []
            end)
    /\ Forall (fun e => isEnd e = true) t.
Proof.
  apply (failed_notification_closes_the_socket
           {| notified := undisturbed (Rejected subscriberFailure);
              incoming := undisturbed Unsettled |} []
           (set_tcpClient (Some 1%nat) orders) subscriberFailure eq_refl eq_refl).
Defined.

(** [dispose] while a batch is read: the batch is not dispatched. *)
Lemma batch_read_during_dispose_on_a_sample :
  exists e w' t,
    dispatchLoop [{| notified := undisturbed (Resolved tt);
                     incoming := {| meanwhile := [CallDispose];
                                    settled := Resolved [frame "Data" "" "orders/1"] |} |}]
      orders
    = (Throw e, w', t)
    /\ name e = "OperationCancelledException"
    /\ Forall (fun ef => isEmit ef = false) t
    /\ _disposed w' = true.
Proof.
  apply (batch_read_during_dispose_is_not_dispatched
           {| notified := undisturbed (Resolved tt);
              incoming := {| meanwhile := [CallDispose];
                             settled := Resolved [frame "Data" "" "orders/1"] |} |} []
           orders [frame "Data" "" "orders/1"] eq_refl eq_refl eq_refl eq_refl).
  simpl. constructor.
Defined.

(** An empty ['readable'], a listener added meanwhile, then a document:
    the read returns the document.  A stream error instead: the read fails
    with it. *)
Lemma waiting_read_on_a_sample :
  (result (_readNextObject {| readable := true; buffered := [] |}
             ([Readable []; User (CallOn "error" 7%nat)]
              ++ Readable [(0, Some (frame "Data" "" "orders/1"))] :: [])
             orders)
   = Normal (Some (frame "Data" "" "orders/1"), {| readable := true; buffered := [] |})
   /\ trace (_readNextObject {| readable := true; buffered := [] |}
               ([Readable []; User (CallOn "error" 7%nat)]
                ++ Readable [(0, Some (frame "Data" "" "orders/1"))] :: [])
               orders)
      = [])
  /\ (result (_readNextObject (V := ServerMessage) {| readable := true; buffered := [] |}
                ([Readable []; User (CallOn "error" 7%nat)]
                 ++ StreamError transportFailure :: [])
                orders)
      = Throw transportFailure
      /\ trace (_readNextObject (V := ServerMessage) {| readable := true; buffered := [] |}
                  ([Readable []; User (CallOn "error" 7%nat)]
                   ++ StreamError transportFailure :: [])
                  orders)
         = []).
Proof.
  apply (waiting_read_returns_the_first_object ServerMessage orders
           {| readable := true; buffered := [] |}
           [Readable []; User (CallOn "error" 7%nat)] [] 0
           (Some (frame "Data" "" "orders/1")) [] transportFailure
           eq_refl eq_refl eq_refl eq_refl).
  repeat constructor.
Defined.

(** One document, then [dispose] while the next frame is awaited: the pump
    returns the document. *)
Lemma pump_disposed_on_a_sample :
  result (_readSingleSubscriptionBatchFromServer {| items := [] |}
            (map deliver [frame "Data" "" "orders/1"]
             ++ disposedMeanwhile (frame "Data" "" "orders/2") :: [])
            orders)
  = Normal ([frame "Data" "" "orders/1"], {| items := [] |}).
Proof.
  apply (pump_returns_what_it_has_when_disposed orders {| items := [] |}
           (map deliver [frame "Data" "" "orders/1"]) [frame "Data" "" "orders/1"]
           (disposedMeanwhile (frame "Data" "" "orders/2"))
           (Some (frame "Data" "" "orders/2")) [] eq_refl eq_refl).
  - repeat constructor; simpl; by intros ?%elem_of_nil.
  - repeat constructor.
  - reflexivity.
  - right. simpl. constructor.
Defined.

(** Two [Confirm] frames in a batch: two emissions of
    [afterAcknowledgment], and no other effect. *)
Lemma acknowledgments_on_a_sample :
  let run := _readSingleSubscriptionBatchFromServer {| items := [] |}
               (map deliver [frame "Confirm" "" ""; frame "Data" "" "orders/1";
                             frame "Confirm" "" ""]
                ++ deliver (frame "EndOfBatch" "" "") :: [])
               orders in
  Forall (fun e => isAcknowledgment e = true) (trace run)
  /\ length (trace run)
     = length (List.filter (isType "Confirm")
                 [frame "Confirm" "" ""; frame "Data" "" "orders/1";
                  frame "Confirm" "" ""]).
Proof.
  apply (afterAcknowledgment_is_emitted_once_per_Confirm orders {| items := [] |}
           (map deliver [frame "Confirm" "" ""; frame "Data" "" "orders/1";
                         frame "Confirm" "" ""])
           [frame "Confirm" "" ""; frame "Data" "" "orders/1"; frame "Confirm" "" ""]
           (deliver (frame "EndOfBatch" "" "")) (frame "EndOfBatch" "" "") []
           eq_refl eq_refl).
  - repeat constructor; simpl; by intros ?%elem_of_nil.
  - repeat constructor.
  - split; [reflexivity|]. simpl. by intros ?%elem_of_nil.
  - reflexivity.
Defined.

(** An [Error] frame after a document: InvalidOperationException, which
    the policy retries. *)
Lemma error_frame_on_a_sample :
  exists e,
    result (_readSingleSubscriptionBatchFromServer {| items := [] |}
              (map deliver [frame "Data" "" "orders/1"]
               ++ deliver (frame "Error" "" "") :: [])
              orders)
    = Throw e
    /\ name e = (if isType "Error" (frame "Error" "" "") then "InvalidOperationException"
                 else "InvalidArgumentException")
    /\ forall now topologyNodes w',
         windowExceeded now w' = false ->
         _shouldTryToReconnect now topologyNodes e w'
         = (Normal true, failureRecorded now w', []).
Proof.
  apply (server_error_frame_is_retried orders {| items := [] |}
           (map deliver [frame "Data" "" "orders/1"]) [frame "Data" "" "orders/1"]
           (deliver (frame "Error" "" "")) (frame "Error" "" "") [] eq_refl eq_refl).
  - repeat constructor; simpl; by intros ?%elem_of_nil.
  - repeat constructor.
  - split; [reflexivity|]. simpl. by intros ?%elem_of_nil.
  - left. reflexivity.
Defined.

(** No subscriber: the dispatch stays pending. *)
Lemma dispatch_without_listeners_on_a_sample :
  result (_emitBatchAndWaitForProcessing {| items := [] |} [] orders)
  = Normal Unsettled.
Proof.
  apply (dispatch_without_listeners_never_resolves orders {| items := [] |} []).
  reflexivity.
Defined.

(** Once both subscribers have completed, a late error changes nothing. *)
Lemma settled_dispatch_on_a_sample :
  result (_emitBatchAndWaitForProcessing {| items := [] |}
            ([(0%nat, None); (1%nat, None)] ++ [(1%nat, Some subscriberFailure)])
            twoSubscribers)
  = Normal (Resolved tt).
Proof.
  apply (dispatch_settles_once twoSubscribers {| items := [] |}
           [(0%nat, None); (1%nat, None)] [(1%nat, Some subscriberFailure)] (Resolved tt)).
  - vm_compute. reflexivity.
  - discriminate.
Defined.

(** Two subscribers complete the batch: one acknowledgement is written. *)
Lemma acknowledgement_on_a_sample :
  let run := notifiedSubscriber {| items := [] |} [(0%nat, None); (1%nat, None)] []
               (Some "A:7") (Some 1%nat) true (undisturbed (Resolved None))
               twoSubscribers in
  List.filter isWrite (trace run) = [SocketWrite (AcknowledgeFrame (Some "A:7"))]
  /\ result run = Normal tt.
Proof.
  apply (processed_batch_is_acknowledged_once twoSubscribers {| items := [] |}
           [(0%nat, None); (1%nat, None)] [] (Some "A:7") 1%nat true
           (undisturbed (Resolved None))).
  left. vm_compute. reflexivity.
Defined.

(** The second subscriber fails: SubscriberErrorException, no
    acknowledgement, no retry. *)
Lemma subscriber_error_on_a_sample :
  let run := notifiedSubscriber {| items := [] |}
               [(0%nat, None); (1%nat, Some subscriberFailure)] []
               (Some "A:7") (Some 1%nat) true (undisturbed (Resolved None))
               twoSubscribers in
  exists e,
    result run = Throw e
    /\ name e = "SubscriberErrorException"
    /\ inner e = Some subscriberFailure
    /\ List.filter isWrite (trace run) = []
    /\ forall now topologyNodes,
         result (_shouldTryToReconnect now topologyNodes e (state run)) = Normal false.
Proof.
  apply (subscriber_error_ends_the_subscription_unacknowledged twoSubscribers
           {| items := [] |} [(0%nat, None); (1%nat, Some subscriberFailure)] []
           (Some "A:7") (Some 1%nat) true (undisturbed (Resolved None)) subscriberFailure
           eq_refl).
  vm_compute. reflexivity.
Defined.

(** [dispose] while the first batch is read: the loop returns, and the
    worker is disposed. *)
Lemma loop_returns_after_dispose_on_a_sample :
  _disposed (state (_runSubscriptionAsync [disposedWhileReading 0] orders)) = true.
Proof.
  apply (reconnect_loop_returns_only_after_dispose [disposedWhileReading 0] orders).
  - intros H. discriminate H.
  - vm_compute. reflexivity.
Defined.

(** [dispose] during the retry delay: [connectionRetry] is emitted all the
    same, and the loop returns. *)
Lemma dispose_during_the_delay_on_a_sample :
  exists w3 t3,
    _runSubscriptionAsync [disposedDuringDelay transportFailure 0] orders
    = (Normal tt, w3,
       [] ++ Sleep (timeToWaitBeforeConnectionRetry (_options orders)) :: t3
       ++ [Emit "connectionRetry" (ErrorArg transportFailure)
             (listeners (_emitter w3) "connectionRetry")])
    /\ _disposed w3 = true.
Proof.
  apply (dispose_during_the_delay_still_announces_the_retry
           (disposedDuringDelay transportFailure 0) [] orders orders transportFailure []
           eq_refl).
  - vm_compute. reflexivity.
  - reflexivity.
  - reflexivity.
  - vm_compute. reflexivity.
  - simpl. constructor.
Defined.

(** Node A is out of reach at 0, 100 and 200 seconds, and still at 301
    seconds: three retries, then the loop fails. *)
Lemma unreachable_node_on_a_sample :
  _runSubscriptionAsync
    (map (unreachable transportFailure) (0 :: [100000; 200000] ++ [301000]) ++ [])
    orders
  = (Throw (erroneousPeriodOver (maxErroneousPeriod (_options orders)) transportFailure),
     set_lastConnectionFailure (Some 0) orders,
     retries (S (length [100000; 200000])) orders transportFailure).
Proof.
  apply (unreachable_node_is_retried_until_the_period_is_over transportFailure 0 301000
           [100000; 200000] [] orders).
  - discriminate.
  - discriminate.
  - reflexivity.
  - reflexivity.
  - reflexivity.
  - reflexivity.
  - reflexivity.
  - repeat constructor; vm_compute; discriminate.
  - vm_compute. reflexivity.
Defined.
